(** * EEVEE light probes: registry, bake scheduler and filter parameters

    A shallow embedding of [source/blender/draw/engines/eevee/eevee_lightprobes.c]:
    the probe registry ([EEVEE_lightprobes_cache_init], [_cache_add],
    [_cache_finish]), the filter parameter loops ([glossy_filter_probe],
    [diffuse_filter_probe]), the cell decoding of
    [lightprobe_cell_location_get] and the per-frame scheduler
    [EEVEE_lightprobes_refresh].

    Conventions.
    - A C [int] is a [Z] and every arithmetic operation that can leave the
      32-bit range is written with its wrap-around ([Int.wrap]).
    - A C [float] is an IEEE binary32 value: [spec_float] with the operations
      of [SpecFloat] at precision 24 and maximal exponent 128.
    - An [Object *] is an object identifier; [NULL] is [None].  The objects
      live in one shared store, so that two references to the same object see
      the same engine data.
    - Draw calls, captures and buffer swaps are logged in a trace of [event]s,
      in program order. *)

From Stdlib Require Import ZArith List Bool Lia QArith Qabs Qpower.
From Stdlib Require Import Floats.SpecFloat.
From stdpp Require Import base option list strings gmap.

Local Open Scope Z_scope.

(** ** C [int] arithmetic *)

Module Int.

Definition INT_MAX : Z := 2147483647.
Definition INT_MIN : Z := -2147483648.

(** Reduction of a mathematical integer to the 32-bit two's complement
    range. *)
Definition wrap (z : Z) : Z := (z + 2147483648) mod 4294967296 - 2147483648.

Definition add (a b : Z) : Z := wrap (a + b).
Definition mul (a b : Z) : Z := wrap (a * b).
Definition incr (a : Z) : Z := wrap (a + 1).

(** C division truncates toward zero; the remainder has the sign of the
    dividend.  Division by zero has no defined result in C; here it is the
    value [Z.quot] and [Z.rem] give. *)
Definition div (a b : Z) : Z := wrap (Z.quot a b).
Definition rem (a b : Z) : Z := Z.rem a b.

Definition in_range (z : Z) : Prop := INT_MIN <= z <= INT_MAX.

End Int.

(** ** C [float] arithmetic (IEEE binary32, round to nearest even) *)

Module F32.

Definition prec : Z := 24.
Definition emax : Z := 128.

Definition float : Type := spec_float.

(** [(float)n] for an integer [n]. *)
Definition of_Z (n : Z) : float := binary_normalize prec emax n 0 false.

Definition add (a b : float) : float := SFadd prec emax a b.
Definition sub (a b : float) : float := SFsub prec emax a b.
Definition mul (a b : float) : float := SFmul prec emax a b.
Definition div (a b : float) : float := SFdiv prec emax a b.
Definition ltb (a b : float) : bool := SFltb a b.
Definition leb (a b : float) : bool := SFleb a b.

(** [powf(2.0f, (float)k)] for an integer [k >= 0]: a power of two, which
    binary32 holds exactly. *)
Definition powf_2 (k : Z) : float := of_Z (2 ^ k).

(** The exact rational value of a finite float. *)
Definition to_Q (f : float) : option Q :=
  match f with
  | S754_zero _ => Some 0%Q
  | S754_finite s m e =>
      let v := (inject_Z (Zpos m) * Qpower 2 e)%Q in
      Some (if s then Qopp v else v)
  | S754_infinity _ | S754_nan => None
  end.

End F32.

(** ** Constants

    The three sizes are defined at the top of the source file. *)

Definition PROBE_RT_SIZE : Z := 512.
Definition PROBE_OCTAHEDRON_SIZE : Z := 1024.
Definition IRRADIANCE_POOL_SIZE : Z := 1024.

(** The irradiance encoding is selected by one of three macros that the
    engine's private header defines. *)
Inductive IrradianceEncoding :=
| IRRADIANCE_SH_L2
| IRRADIANCE_CUBEMAP
| IRRADIANCE_HL2.

(** The constants that the source takes from headers outside this file
    ([eevee_private.h], the dependency graph): the capacity of the cube
    table, the capacity of the grid table, the two flag bits and the
    irradiance encoding.  Every function that reads one of them takes the
    record as its first argument. *)
Record Constants := mkConstants {
  MAX_PROBE : Z;
  MAX_GRID : Z;
  DEG_RUNTIME_DATA_UPDATE : Z;
  PROBE_UPDATE_CUBE : Z;
  IRRADIANCE : IrradianceEncoding;
}.

(** ** Data model *)

(** Modelled from the spec: the kind tag of a probe object, "cube | grid"
    (section 6); the enumeration behind [probe->type] is declared in
    [DNA_lightprobe_types.h], which is not part of the source tree. *)
Inductive LightProbeType :=
| LIGHTPROBE_TYPE_CUBE
| LIGHTPROBE_TYPE_GRID.

Definition LightProbeType_eqb (a b : LightProbeType) : bool :=
  match a, b with
  | LIGHTPROBE_TYPE_CUBE, LIGHTPROBE_TYPE_CUBE => true
  | LIGHTPROBE_TYPE_GRID, LIGHTPROBE_TYPE_GRID => true
  | _, _ => false
  end.

(** The fields of [LightProbe] (object data) that the scheduler reads. *)
Record LightProbe := mkLightProbe {
  type : LightProbeType;
  grid_resolution_x : Z;
  grid_resolution_y : Z;
  grid_resolution_z : Z;
  clipsta : F32.float;
  clipend : F32.float;
}.

(** [EEVEE_LightProbeEngineData]: the bake state attached to an object. *)
Record EEVEE_LightProbeEngineData := mkEngineData {
  need_update : bool;
  updated_cells : Z;
  num_cell : Z;
  probe_id : Z;
  ready_to_shade : bool;
}.

(** An [Object]: its probe data, the update flags of the dependency graph
    and the engine data that [EEVEE_lightprobe_data_get] returns. *)
Record Object := mkObject {
  data : LightProbe;
  deg_update_flag : Z;
  ped : EEVEE_LightProbeEngineData;
}.

(** [EEVEE_LightGrid]: an entry of the grid parameter table.  Only the
    integer fields take part in the scheduling: [offset] is the first cell
    of the grid in the irradiance atlas, [resolution] the number of cells
    per axis.  The matrix, corner and increment vectors are float data
    derived from the object matrix and are left out. *)
Record EEVEE_LightGrid := mkLightGrid {
  offset : Z;
  resolution : Z * Z * Z;
}.

Definition resolution_x (g : EEVEE_LightGrid) : Z := g.(resolution).1.1.
Definition resolution_y (g : EEVEE_LightGrid) : Z := g.(resolution).1.2.
Definition resolution_z (g : EEVEE_LightGrid) : Z := g.(resolution).2.

(** [EEVEE_LightProbesInfo].  The two reference tables map a slot to the
    object stored there; an absent slot is a [NULL] entry.  The uniform
    scratch fields ([layer], [texel_size], [padding_size], [roughness],
    [samples_ct], [invsamples_ct], [lodfactor], [lodmax], [shres]) are
    written immediately before each draw call; the model attaches their
    values to the draw event instead of keeping them in the state. *)
Record EEVEE_LightProbesInfo := mkProbesInfo {
  num_cube : Z;
  cache_num_cube : Z;
  num_grid : Z;
  update_flag : Z;
  updated_bounce : Z;
  num_render_cube : Z;
  num_render_grid : Z;
  specular_toggle : bool;
  probes_cube_ref : gmap Z positive;
  probes_grid_ref : gmap Z positive;
  grid_data : gmap Z EEVEE_LightGrid;
}.

(** A texture handle; [None] is a [NULL] texture pointer. *)
Abbreviation GPUTexture := nat.

(** The state the functions of the file share: the two flags of the static
    [e_data], the textures and the probe info of [EEVEE_SceneLayerData], and
    the store of the scene's objects.  [next_texture] is the next handle
    that a texture creation returns. *)
Record state := mkState {
  update_world : bool;
  world_ready_to_shade : bool;
  probe_pool : option GPUTexture;
  irradiance_pool : option GPUTexture;
  irradiance_rt : option GPUTexture;
  next_texture : nat;
  probes : EEVEE_LightProbesInfo;
  objects : gmap positive Object;
}.

(** What the scheduler reads of [DRWContextState]: whether [evil_C] is set,
    whether [rv3d->rflag] has [RV3D_NAVIGATING], and whether
    [ED_screen_animation_no_scrub] finds a playing screen. *)
Record DRWContextState := mkContext {
  evil_C : bool;
  navigating : bool;
  animation_no_scrub : bool;
}.

(** *** Field updates *)

Definition zero_probe : LightProbe :=
  mkLightProbe LIGHTPROBE_TYPE_CUBE 0 0 0 (S754_zero false) (S754_zero false).
Definition zero_engine_data : EEVEE_LightProbeEngineData :=
  mkEngineData false 0 0 0 false.
Definition zero_object : Object := mkObject zero_probe 0 zero_engine_data.
Definition zero_grid : EEVEE_LightGrid := mkLightGrid 0 (0, 0, 0).

(** Dereferencing an object pointer.  Every pointer the engine holds is to a
    live object; an identifier absent from the store reads as an object
    whose fields are zero, the state in which engine data is allocated. *)
Definition get_object (st : state) (ob : positive) : Object :=
  default zero_object (st.(objects) !! ob).

Definition with_probes (f : EEVEE_LightProbesInfo -> EEVEE_LightProbesInfo)
  (st : state) : state :=
  mkState st.(update_world) st.(world_ready_to_shade) st.(probe_pool)
    st.(irradiance_pool) st.(irradiance_rt) st.(next_texture)
    (f st.(probes)) st.(objects).

Definition with_ped (ob : positive)
  (f : EEVEE_LightProbeEngineData -> EEVEE_LightProbeEngineData)
  (st : state) : state :=
  let o := get_object st ob in
  mkState st.(update_world) st.(world_ready_to_shade) st.(probe_pool)
    st.(irradiance_pool) st.(irradiance_rt) st.(next_texture) st.(probes)
    (<[ob := mkObject o.(data) o.(deg_update_flag) (f o.(ped))]> st.(objects)).

Definition set_update_world (b : bool) (st : state) : state :=
  mkState b st.(world_ready_to_shade) st.(probe_pool) st.(irradiance_pool)
    st.(irradiance_rt) st.(next_texture) st.(probes) st.(objects).

Definition set_world_ready_to_shade (b : bool) (st : state) : state :=
  mkState st.(update_world) b st.(probe_pool) st.(irradiance_pool)
    st.(irradiance_rt) st.(next_texture) st.(probes) st.(objects).

Definition set_probe_pool (t : option GPUTexture) (st : state) : state :=
  mkState st.(update_world) st.(world_ready_to_shade) t st.(irradiance_pool)
    st.(irradiance_rt) st.(next_texture) st.(probes) st.(objects).

Definition set_irradiance_pool (t : option GPUTexture) (st : state) : state :=
  mkState st.(update_world) st.(world_ready_to_shade) st.(probe_pool) t
    st.(irradiance_rt) st.(next_texture) st.(probes) st.(objects).

Definition set_irradiance_rt (t : option GPUTexture) (st : state) : state :=
  mkState st.(update_world) st.(world_ready_to_shade) st.(probe_pool)
    st.(irradiance_pool) t st.(next_texture) st.(probes) st.(objects).

Definition set_next_texture (n : nat) (st : state) : state :=
  mkState st.(update_world) st.(world_ready_to_shade) st.(probe_pool)
    st.(irradiance_pool) st.(irradiance_rt) n st.(probes) st.(objects).

Definition set_num_cube (v : Z) (p : EEVEE_LightProbesInfo) :=
  mkProbesInfo v p.(cache_num_cube) p.(num_grid) p.(update_flag)
    p.(updated_bounce) p.(num_render_cube) p.(num_render_grid)
    p.(specular_toggle) p.(probes_cube_ref) p.(probes_grid_ref) p.(grid_data).

Definition set_cache_num_cube (v : Z) (p : EEVEE_LightProbesInfo) :=
  mkProbesInfo p.(num_cube) v p.(num_grid) p.(update_flag)
    p.(updated_bounce) p.(num_render_cube) p.(num_render_grid)
    p.(specular_toggle) p.(probes_cube_ref) p.(probes_grid_ref) p.(grid_data).

Definition set_num_grid (v : Z) (p : EEVEE_LightProbesInfo) :=
  mkProbesInfo p.(num_cube) p.(cache_num_cube) v p.(update_flag)
    p.(updated_bounce) p.(num_render_cube) p.(num_render_grid)
    p.(specular_toggle) p.(probes_cube_ref) p.(probes_grid_ref) p.(grid_data).

Definition set_update_flag (v : Z) (p : EEVEE_LightProbesInfo) :=
  mkProbesInfo p.(num_cube) p.(cache_num_cube) p.(num_grid) v
    p.(updated_bounce) p.(num_render_cube) p.(num_render_grid)
    p.(specular_toggle) p.(probes_cube_ref) p.(probes_grid_ref) p.(grid_data).

Definition set_updated_bounce (v : Z) (p : EEVEE_LightProbesInfo) :=
  mkProbesInfo p.(num_cube) p.(cache_num_cube) p.(num_grid) p.(update_flag)
    v p.(num_render_cube) p.(num_render_grid)
    p.(specular_toggle) p.(probes_cube_ref) p.(probes_grid_ref) p.(grid_data).

Definition set_num_render_cube (v : Z) (p : EEVEE_LightProbesInfo) :=
  mkProbesInfo p.(num_cube) p.(cache_num_cube) p.(num_grid) p.(update_flag)
    p.(updated_bounce) v p.(num_render_grid)
    p.(specular_toggle) p.(probes_cube_ref) p.(probes_grid_ref) p.(grid_data).

Definition set_num_render_grid (v : Z) (p : EEVEE_LightProbesInfo) :=
  mkProbesInfo p.(num_cube) p.(cache_num_cube) p.(num_grid) p.(update_flag)
    p.(updated_bounce) p.(num_render_cube) v
    p.(specular_toggle) p.(probes_cube_ref) p.(probes_grid_ref) p.(grid_data).

Definition set_specular_toggle (v : bool) (p : EEVEE_LightProbesInfo) :=
  mkProbesInfo p.(num_cube) p.(cache_num_cube) p.(num_grid) p.(update_flag)
    p.(updated_bounce) p.(num_render_cube) p.(num_render_grid)
    v p.(probes_cube_ref) p.(probes_grid_ref) p.(grid_data).

Definition set_probes_cube_ref (v : gmap Z positive) (p : EEVEE_LightProbesInfo) :=
  mkProbesInfo p.(num_cube) p.(cache_num_cube) p.(num_grid) p.(update_flag)
    p.(updated_bounce) p.(num_render_cube) p.(num_render_grid)
    p.(specular_toggle) v p.(probes_grid_ref) p.(grid_data).

Definition set_probes_grid_ref (v : gmap Z positive) (p : EEVEE_LightProbesInfo) :=
  mkProbesInfo p.(num_cube) p.(cache_num_cube) p.(num_grid) p.(update_flag)
    p.(updated_bounce) p.(num_render_cube) p.(num_render_grid)
    p.(specular_toggle) p.(probes_cube_ref) v p.(grid_data).

Definition set_grid_data (v : gmap Z EEVEE_LightGrid) (p : EEVEE_LightProbesInfo) :=
  mkProbesInfo p.(num_cube) p.(cache_num_cube) p.(num_grid) p.(update_flag)
    p.(updated_bounce) p.(num_render_cube) p.(num_render_grid)
    p.(specular_toggle) p.(probes_cube_ref) p.(probes_grid_ref) v.

Definition set_need_update (b : bool) (d : EEVEE_LightProbeEngineData) :=
  mkEngineData b d.(updated_cells) d.(num_cell) d.(probe_id) d.(ready_to_shade).
Definition set_updated_cells (v : Z) (d : EEVEE_LightProbeEngineData) :=
  mkEngineData d.(need_update) v d.(num_cell) d.(probe_id) d.(ready_to_shade).
Definition set_num_cell (v : Z) (d : EEVEE_LightProbeEngineData) :=
  mkEngineData d.(need_update) d.(updated_cells) v d.(probe_id) d.(ready_to_shade).
Definition set_probe_id (v : Z) (d : EEVEE_LightProbeEngineData) :=
  mkEngineData d.(need_update) d.(updated_cells) d.(num_cell) v d.(ready_to_shade).
Definition set_ready_to_shade (b : bool) (d : EEVEE_LightProbeEngineData) :=
  mkEngineData d.(need_update) d.(updated_cells) d.(num_cell) d.(probe_id) b.

(** ** Trace of GPU work *)

(** Where a scene capture is taken from: a grid cell (the slot of the grid,
    the flattened cell index and the decoded cell coordinates, which are
    floats) or the origin of a cube probe object. *)
Inductive capture_pos :=
| PosGridCell (grid : Z) (cell_id : Z) (local_cell : F32.float * F32.float * F32.float)
| PosObject (ob : positive).

(** The uniforms of one draw of the glossy filter pass. *)
Record glossy_pass := mkGlossyPass {
  gp_layer : Z;
  gp_level : Z;
  gp_mipsize : F32.float;
  gp_texel_size : F32.float;
  gp_padding_size : F32.float;
  gp_roughness : F32.float;
  gp_samples_ct : F32.float;
  gp_invsamples_ct : F32.float;
  gp_lodmax : F32.float;
}.

(** What an invocation does outside the state: the diagnostic of the
    registry, the world capture, a scene capture (with what the shading of
    the captured scene reads: the numbers of cubes and grids ready to shade
    and the irradiance atlas), a draw of the glossy or of the diffuse filter
    pass (with the texture it writes, the atlas cell and the viewport), a
    swap of the two irradiance buffers, and a redraw request. *)
Inductive event :=
| EvPrintf (msg : string)
| EvRenderWorld
| EvRenderScene (pos : capture_pos) (near far : F32.float)
    (lit_cubes lit_grids : Z) (irradiance : option GPUTexture)
| EvGlossyPass (p : glossy_pass)
| EvDiffusePass (target : option GPUTexture) (cell_offset : Z)
    (viewport : Z * Z * Z * Z)
| EvSwapIrradiance
| EvRequestRedraw.

(** ** Walking a reference table

    [for (i = 1; (ob = ref[i]) && (i < MAX); i++)]: the slots visited, in
    order, with the object found in each.  The walk starts at slot 1 and ends
    at the first empty slot or at slot [MAX].  No loop body of the file
    writes a reference table, so the visited slots are fixed when the loop
    is entered. *)
Fixpoint walk_refs (refs : gmap Z positive) (n : nat) (i : Z)
  : list (Z * positive) :=
  match n with
  | O => []
  | S n' =>
      match refs !! i with
      | None => []
      | Some ob => (i, ob) :: walk_refs refs n' (i + 1)
      end
  end.

Definition for_each_ref (refs : gmap Z positive) (max : Z) : list (Z * positive) :=
  walk_refs refs (Z.to_nat (max - 1)) 1.

(** ** Registry *)

(** [EEVEE_lightprobes_init], for a scene layer that has no probe info yet:
    the info is zeroed and [specular_toggle] is set.  [objs] is the scene's
    object store. *)
Definition EEVEE_lightprobes_init (objs : gmap positive Object) : state :=
  mkState false false None None None O
    (mkProbesInfo 0 0 0 0 0 0 0 true ∅ ∅ ∅) objs.

(** [EEVEE_lightprobes_cache_init].  [wo] is the update flag of the scene's
    world, [None] when the scene has no world.  The creation of the draw
    passes is not modelled. *)
Definition EEVEE_lightprobes_cache_init (wo : option Z) (st : state) : state :=
  let st := with_probes (set_num_cube 1) st in
  let st := with_probes (set_num_grid 1) st in
  let st := with_probes (set_probes_cube_ref ∅) st in
  let st := with_probes (set_probes_grid_ref ∅) st in
  match wo with
  | Some wo_update_flag => set_update_world (negb (wo_update_flag =? 0)) st
  | None => st
  end.

(** The four assignments that tag an object for a new bake. *)
Definition tag_object_update (ob : positive) (st : state) : state :=
  let st := with_ped ob (set_need_update true) st in
  let st := with_ped ob (set_updated_cells 0) st in
  let st := with_ped ob (set_probe_id 0) st in
  with_probes (set_updated_bounce 0) st.

(** The capacity test that opens [EEVEE_lightprobes_cache_add]. *)
Definition too_much_probes (K : Constants) (pinfo : EEVEE_LightProbesInfo)
  (probe : LightProbe) : bool :=
  (LightProbeType_eqb probe.(type) LIGHTPROBE_TYPE_CUBE
     && (K.(MAX_PROBE) <=? pinfo.(num_cube)))
  || (LightProbeType_eqb probe.(type) LIGHTPROBE_TYPE_GRID
        && (K.(MAX_PROBE) <=? pinfo.(num_grid))).

Definition EEVEE_lightprobes_cache_add (K : Constants) (st : state) (ob : positive)
  : state * list event :=
  let pinfo := st.(probes) in
  let probe := (get_object st ob).(data) in
  if too_much_probes K pinfo probe
  then (st, [EvPrintf "Too much probes in the scene !!!"%string])
  else
    let st :=
      with_ped ob
        (set_num_cell
           (Int.mul (Int.mul probe.(grid_resolution_x) probe.(grid_resolution_y))
              probe.(grid_resolution_z))) st in
    let st :=
      if negb (Z.land (get_object st ob).(deg_update_flag)
                 K.(DEG_RUNTIME_DATA_UPDATE) =? 0)
      then tag_object_update ob st else st in
    let st := if st.(update_world) then tag_object_update ob st else st in
    let pinfo := st.(probes) in
    if LightProbeType_eqb probe.(type) LIGHTPROBE_TYPE_CUBE then
      let st := with_probes (set_probes_cube_ref
                  (<[pinfo.(num_cube) := ob]> pinfo.(probes_cube_ref))) st in
      (with_probes (set_num_cube (Int.incr pinfo.(num_cube))) st, [])
    else
      let st := with_probes (set_probes_grid_ref
                  (<[pinfo.(num_grid) := ob]> pinfo.(probes_grid_ref))) st in
      (with_probes (set_num_grid (Int.incr pinfo.(num_grid))) st, []).

(** [EEVEE_lightprobes_updates].  The cube loop and most of the grid loop
    compute float matrices and vectors from the object matrices; what remains
    is the assignment of atlas offsets and the copy of the resolution. *)
Definition update_grid (acc : state * Z) (slot : Z * positive) : state * Z :=
  let '(st, offset) := acc in
  let '(i, ob) := slot in
  let o := get_object st ob in
  let egrid :=
    mkLightGrid offset
      (o.(data).(grid_resolution_x), o.(data).(grid_resolution_y),
       o.(data).(grid_resolution_z)) in
  (with_probes (set_grid_data (<[i := egrid]> st.(probes).(grid_data))) st,
   Int.add offset o.(ped).(num_cell)).

Definition EEVEE_lightprobes_updates (K : Constants) (st : state) : state :=
  fst (fold_left update_grid
         (for_each_ref st.(probes).(probes_grid_ref) K.(MAX_GRID)) (st, 1)).

(** Modelled from the spec: the texture creation of the GPU resource
    layer, which section 1 keeps out of scope as an abstract resource API
    ([DRW_texture_create_2D] and [DRW_texture_create_2D_array] are not part
    of the source tree).  A creation is taken to return a texture that no
    handle names yet: the next free handle.  The code never tests the
    result, and a failed allocation is not modelled. *)
Definition texture_create (st : state) : GPUTexture * state :=
  (st.(next_texture), set_next_texture (S st.(next_texture)) st).

Definition tag_cube_refresh (st : state) (slot : Z * positive) : state :=
  let st := with_ped slot.2 (set_need_update true) st in
  let st := with_ped slot.2 (set_ready_to_shade false) st in
  with_ped slot.2 (set_probe_id 0) st.

Definition tag_grid_refresh (st : state) (slot : Z * positive) : state :=
  let st := with_ped slot.2 (set_need_update true) st in
  with_ped slot.2 (set_updated_cells 0) st.

(** The block run when [sldata->probe_pool] is [NULL]. *)
Definition probe_pool_create (K : Constants) (st : state) : state :=
  let '(tex, st) := texture_create st in
  let st := set_probe_pool (Some tex) st in
  let st := set_update_world true st in
  let st := set_world_ready_to_shade false st in
  let st := with_probes (set_num_render_cube 0) st in
  let st := with_probes (fun p =>
              set_update_flag (Z.lor p.(update_flag) K.(PROBE_UPDATE_CUBE)) p) st in
  let st := with_probes (fun p => set_cache_num_cube p.(num_cube) p) st in
  fold_left tag_cube_refresh
    (for_each_ref st.(probes).(probes_cube_ref) K.(MAX_PROBE)) st.

(** The block run when an irradiance texture is [NULL], after the texture
    has been created. *)
Definition irradiance_reset (K : Constants) (st : state) : state :=
  let st := with_probes (set_num_render_grid 0) st in
  let st := with_probes (set_updated_bounce 0) st in
  fold_left tag_grid_refresh
    (for_each_ref st.(probes).(probes_grid_ref) K.(MAX_PROBE)) st.

(** The two tests on [sldata->probe_pool]: freed when the number of cubes
    differs from the cached one, created when [NULL]. *)
Definition probe_pool_ensure (K : Constants) (st : state) : state :=
  let st :=
    if negb (st.(probes).(num_cube) =? st.(probes).(cache_num_cube))
    then set_probe_pool None st else st in
  match st.(probe_pool) with
  | None => probe_pool_create K st
  | Some _ => st
  end.

Definition irradiance_pool_ensure (K : Constants) (st : state) : state :=
  match st.(irradiance_pool) with
  | None =>
      let '(tex, st) := texture_create st in
      irradiance_reset K (set_irradiance_pool (Some tex) st)
  | Some _ => st
  end.

Definition irradiance_rt_ensure (K : Constants) (st : state) : state :=
  match st.(irradiance_rt) with
  | None =>
      let '(tex, st) := texture_create st in
      irradiance_reset K (set_irradiance_rt (Some tex) st)
  | Some _ => st
  end.

Definition EEVEE_lightprobes_cache_finish (K : Constants) (st : state) : state :=
  let st := probe_pool_ensure K st in
  let st := irradiance_pool_ensure K st in
  let st := irradiance_rt_ensure K st in
  EEVEE_lightprobes_updates K st.

(** ** Convolution filters *)

(** [CLAMP(a, b, c)] and [CLAMP_MIN(a, b)] of [BLI_utildefines.h]. *)
Definition CLAMP (a b c : F32.float) : F32.float :=
  if F32.ltb a b then b else if F32.ltb c a then c else a.

Definition CLAMP_MIN (a b : F32.float) : F32.float :=
  if F32.ltb a b then b else a.

(** The float literals [1e-8f] and [0.99999f]: numerator and denominator are
    exact binary32 values, so the correctly rounded quotient is the float
    nearest to the decimal literal. *)
Definition lit_1e_8 : F32.float := F32.div (F32.of_Z 1) (F32.of_Z 100000000).
Definition lit_0_99999 : F32.float := F32.div (F32.of_Z 99999) (F32.of_Z 100000).

(** [(int)floorf(log2f(PROBE_OCTAHEDRON_SIZE))]; the size is a power of
    two, whose logarithm is an exact integer. *)
Definition maxlevel : Z := Z.log2 PROBE_OCTAHEDRON_SIZE.
Definition min_lod_level : Z := 3.

(** The body of the loop of [glossy_filter_probe], uniform by uniform. *)
Definition glossy_padding_size (i : Z) : F32.float :=
  let padding_size := F32.powf_2 (maxlevel - min_lod_level - 1 - i) in
  let padding_size :=
    if F32.ltb (F32.of_Z 32) padding_size
    then F32.add padding_size (F32.of_Z 5) else padding_size in
  if F32.ltb (F32.of_Z 16) padding_size then F32.add padding_size (F32.of_Z 4)
  else if F32.ltb (F32.of_Z 8) padding_size then F32.add padding_size (F32.of_Z 2)
  else if F32.ltb (F32.of_Z 4) padding_size then F32.add padding_size (F32.of_Z 1)
  else padding_size.

Definition glossy_roughness (i : Z) : F32.float :=
  let roughness :=
    F32.div (F32.of_Z i) (F32.sub (F32.of_Z maxlevel) (F32.of_Z 4)) in
  let roughness := F32.mul roughness roughness in
  let roughness := F32.mul roughness roughness in
  CLAMP roughness lit_1e_8 lit_0_99999.

Definition glossy_samples_ct (i : Z) : F32.float :=
  match i with
  | 0 => F32.of_Z 1
  | 1 => F32.of_Z 16
  | 2 => F32.of_Z 32
  | 3 => F32.of_Z 64
  | _ => F32.of_Z 128
  end.

(** The uniforms of the draw at mip level [i].  [lodfactor] is computed
    with the double precision [log] of the C library and is left out. *)
Definition glossy_level (probe_idx i : Z) (mipsize : F32.float) : glossy_pass :=
  let samples_ct := glossy_samples_ct i in
  mkGlossyPass probe_idx i mipsize
    (F32.div (F32.of_Z 1) mipsize)
    (glossy_padding_size i)
    (glossy_roughness i)
    samples_ct
    (F32.div (F32.of_Z 1) samples_ct)
    (F32.sub (F32.of_Z (Z.log2 PROBE_RT_SIZE)) (F32.of_Z 2)).

(** [for (i = 0; i < maxlevel - min_lod_level; i++)], with [n] levels still
    to draw. *)
Fixpoint glossy_levels (probe_idx : Z) (n : nat) (i : Z) (mipsize : F32.float)
  : list glossy_pass :=
  match n with
  | O => []
  | S n' =>
      glossy_level probe_idx i mipsize
        :: glossy_levels probe_idx n' (i + 1)
             (CLAMP_MIN (F32.div mipsize (F32.of_Z 2)) (F32.of_Z 1))
  end.

Definition glossy_filter_passes (probe_idx : Z) : list glossy_pass :=
  glossy_levels probe_idx (Z.to_nat (maxlevel - min_lod_level)) 0
    (F32.of_Z PROBE_OCTAHEDRON_SIZE).

(** [glossy_filter_probe]: one draw per mip level. *)
Definition glossy_filter_probe (probe_idx : Z) : list event :=
  map EvGlossyPass (glossy_filter_passes probe_idx).

(** The footprint of one cell in the irradiance atlas. *)
Definition irradiance_cell_size (K : Constants) : Z * Z :=
  match K.(IRRADIANCE) with
  | IRRADIANCE_SH_L2 => (3, 3)
  | IRRADIANCE_CUBEMAP => (8, 8)
  | IRRADIANCE_HL2 => (3, 2)
  end.

(** [diffuse_filter_probe]: one draw into [irradiance_rt], restricted to the
    footprint of cell [offset]. *)
Definition diffuse_filter_probe (K : Constants) (st : state) (offset : Z) : event :=
  let size := irradiance_cell_size K in
  let cell_per_row := Int.div IRRADIANCE_POOL_SIZE size.1 in
  let x := Int.mul size.1 (Int.rem offset cell_per_row) in
  let y := Int.mul size.2 (Int.div offset cell_per_row) in
  EvDiffusePass st.(irradiance_rt) offset (x, y, size.1, size.2).

(** ** Capture *)

(** [render_scene_to_probe]: the six faces are one capture.  The event
    records what the shading of the captured scene reads: the number of
    cubes and grids ready to shade and the irradiance atlas.  Specular
    lighting is switched off for the capture and on again after it. *)
Definition render_scene_to_probe (st : state) (pos : capture_pos)
  (near far : F32.float) : state * list event :=
  let st := with_probes (set_specular_toggle false) st in
  let ev :=
    EvRenderScene pos near far st.(probes).(num_render_cube)
      st.(probes).(num_render_grid) st.(irradiance_pool) in
  (with_probes (set_specular_toggle true) st, [ev]).

Definition render_world_to_probe : list event := [EvRenderWorld].

(** [lightprobe_cell_location_get]: the cell coordinates
    [(local_cell[0], local_cell[1], local_cell[2])], each computed on C
    [int]s from the flattened index and then cast to [float].  The C
    function goes on to return
    [corner + x * increment_x + y * increment_y + z * increment_z]; the
    corner and the increments are float vectors that
    [EEVEE_lightprobes_updates] derives from the object matrix, and that
    affine combination is not modelled. *)
Definition lightprobe_cell_location_get (egrid : EEVEE_LightGrid) (cell_idx : Z)
  : F32.float * F32.float * F32.float :=
  let local_cell_2 := F32.of_Z (Int.rem cell_idx (resolution_z egrid)) in
  let local_cell_1 :=
    F32.of_Z (Int.rem (Int.div cell_idx (resolution_z egrid)) (resolution_y egrid)) in
  let local_cell_0 :=
    F32.of_Z (Int.div cell_idx (Int.mul (resolution_z egrid) (resolution_y egrid))) in
  (local_cell_0, local_cell_1, local_cell_2).

(** ** Scheduler *)

(** [SWAP(GPUTexture *, sldata->irradiance_pool, sldata->irradiance_rt)]. *)
Definition swap_irradiance (st : state) : state :=
  let pool := st.(irradiance_pool) in
  let rt := st.(irradiance_rt) in
  set_irradiance_rt pool (set_irradiance_pool rt st).

(** The pause test: only with a window context, while navigating or during
    playback. *)
Definition bake_paused (ctx : DRWContextState) : bool :=
  ctx.(evil_C) && (ctx.(navigating) || ctx.(animation_no_scrub)).

Definition max_bounce : Z := 3.

(** The first visited slot whose object has [need_update] set. *)
Definition find_need_update (st : state) (slots : list (Z * positive))
  : option (Z * positive) :=
  find (fun slot => (get_object st slot.2).(ped).(need_update)) slots.

(** The branch taken when [e_data.update_world] is set. *)
Definition refresh_world (K : Constants) (st : state) : state * list event :=
  let t1 := render_world_to_probe in
  let t2 := glossy_filter_probe 0 in
  let t3 := [diffuse_filter_probe K st 0] in
  let st := swap_irradiance st in
  let t4 := [EvSwapIrradiance; diffuse_filter_probe K st 0] in
  let st := set_update_world false st in
  let st :=
    if negb st.(world_ready_to_shade) then
      let st := set_world_ready_to_shade true st in
      let st := with_probes (set_num_render_cube 1) st in
      with_probes (set_num_render_grid 1) st
    else st in
  (st, t1 ++ t2 ++ t3 ++ t4 ++ [EvRequestRedraw]).

(** The body run for the first grid that needs an update: one cell. *)
Definition refresh_grid_cell (K : Constants) (st : state) (i : Z) (ob : positive)
  : state * list event :=
  let egrid := default zero_grid (st.(probes).(grid_data) !! i) in
  let prb := (get_object st ob).(data) in
  let cell_id := (get_object st ob).(ped).(updated_cells) in
  let st := swap_irradiance st in
  let tmp_num_render_grid := st.(probes).(num_render_grid) in
  let tmp_num_render_cube := st.(probes).(num_render_cube) in
  let st := with_probes (set_num_render_cube 0) st in
  let st :=
    if st.(probes).(updated_bounce) =? 0
    then with_probes (set_num_render_grid 0) st else st in
  let pos := lightprobe_cell_location_get egrid cell_id in
  let '(st, t1) :=
    render_scene_to_probe st (PosGridCell i cell_id pos) prb.(clipsta) prb.(clipend) in
  let t2 := [diffuse_filter_probe K st (Int.add egrid.(offset) cell_id)] in
  let st := with_probes (set_num_render_grid tmp_num_render_grid) st in
  let st := with_probes (set_num_render_cube tmp_num_render_cube) st in
  let st := swap_irradiance st in
  let st := with_ped ob (fun d => set_updated_cells (Int.incr d.(updated_cells)) d) st in
  let st :=
    if (get_object st ob).(ped).(num_cell) <=? (get_object st ob).(ped).(updated_cells)
    then with_ped ob (set_need_update false) st else st in
  (st, [EvSwapIrradiance] ++ t1 ++ t2 ++ [EvSwapIrradiance; EvRequestRedraw]).

(** How the bounce loop ends: by the [return] after a cell, or by its
    condition. *)
Inductive loop_exit :=
| Returned
| Fallthrough.

(** [while (pinfo->updated_bounce < max_bounce)], with [n] passes of fuel.
    Every pass that does not return adds one to [updated_bounce], so
    [max_bounce - updated_bounce] passes are enough: [refresh_grids] starts
    the loop with that many, and [refresh_grids_while] is the loop
    equation. *)
Fixpoint refresh_grids_loop (K : Constants) (n : nat) (st : state)
  : state * list event * loop_exit :=
  match n with
  | O => (st, [], Fallthrough)
  | S n' =>
      if st.(probes).(updated_bounce) <? max_bounce then
        let st := with_probes (fun p => set_num_render_grid p.(num_grid) p) st in
        let grids := for_each_ref st.(probes).(probes_grid_ref) K.(MAX_GRID) in
        match find_need_update st grids with
        | Some (i, ob) =>
            let '(st, tr) := refresh_grid_cell K st i ob in (st, tr, Returned)
        | None =>
            let st := with_probes
                        (fun p => set_updated_bounce (Int.incr p.(updated_bounce)) p) st in
            let st := with_probes (fun p => set_num_render_grid p.(num_grid) p) st in
            if st.(probes).(updated_bounce) <? max_bounce then
              let st := fold_left tag_grid_refresh grids st in
              let st := swap_irradiance st in
              let '(st, tr, exit) := refresh_grids_loop K n' st in
              (st, EvSwapIrradiance :: tr, exit)
            else refresh_grids_loop K n' st
        end
      else (st, [], Fallthrough)
  end.

Definition refresh_grids (K : Constants) (st : state) : state * list event * loop_exit :=
  refresh_grids_loop K (Z.to_nat (max_bounce - st.(probes).(updated_bounce))) st.

(** The body run for the first cube that needs an update. *)
Definition refresh_cube (st : state) (i : Z) (ob : positive) : state * list event :=
  let prb := (get_object st ob).(data) in
  let '(st, t1) := render_scene_to_probe st (PosObject ob) prb.(clipsta) prb.(clipend) in
  let t2 := glossy_filter_probe i in
  let st := with_ped ob (set_need_update false) st in
  let st := with_ped ob (set_probe_id i) st in
  let st :=
    if negb (get_object st ob).(ped).(ready_to_shade) then
      let st := with_probes
                  (fun p => set_num_render_cube (Int.incr p.(num_render_cube)) p) st in
      with_ped ob (set_ready_to_shade true) st
    else st in
  (st, t1 ++ t2 ++ [EvRequestRedraw]).

Definition refresh_cubes (K : Constants) (st : state) : state * list event :=
  match find_need_update st
          (for_each_ref st.(probes).(probes_cube_ref) K.(MAX_PROBE)) with
  | Some (i, ob) => refresh_cube st i ob
  | None => (st, [])
  end.

Definition EEVEE_lightprobes_refresh (K : Constants) (ctx : DRWContextState)
  (st : state) : state * list event :=
  if st.(update_world) then refresh_world K st
  else if bake_paused ctx then (st, [])
  else
    match refresh_grids K st with
    | (st, tr, Returned) => (st, tr)
    | (st, tr, Fallthrough) =>
        let '(st, tr') := refresh_cubes K st in (st, tr ++ tr')
    end.

(** ** Reading a trace *)

(** The scene captures of a trace, each the start of one bake unit. *)
Definition captures (tr : list event) : list capture_pos :=
  flat_map (fun e => match e with
                     | EvRenderScene pos _ _ _ _ _ => [pos]
                     | _ => []
                     end) tr.

Definition bake_units (tr : list event) : nat := length (captures tr).


(** ** Statements to check against the code *)

(** The flattened index of cell [(x, y, z)] in a grid of resolution [res]:
    [f(x,y,z) = z + resZ * (y + resY * x)]. *)
Definition flat_cell_index (res : Z * Z * Z) (x y z : Z) : Z :=
  z + res.2 * (y + res.1.2 * x).

(** The roughness of mip level [i] over the rationals:
    [clamp(((i / (maxLevel - 4))^2)^2, 1e-8, 0.99999)]. *)
Definition roughness_formula (i : Z) : Q :=
  let r := (inject_Z i / inject_Z (Z.log2 PROBE_OCTAHEDRON_SIZE - 4))%Q in
  let r := ((r * r) * (r * r))%Q in
  if Qle_bool r (1 # 100000000) then (1 # 100000000)%Q
  else if Qle_bool (99999 # 100000) r then (99999 # 100000)%Q
  else r.

(** The distance between a float and a rational, relative to the
    rational, is at most [eps]. *)
Definition F32_close (f : F32.float) (q eps : Q) : bool :=
  match F32.to_Q f with
  | Some v => Qle_bool (Qabs (v - q)) (eps * Qabs q)
  | None => false
  end.

(** A float is finite and its value is the integer [n]. *)
Definition F32_exact (f : F32.float) (n : Z) : Prop :=
  exists q, F32.to_Q f = Some q /\ (q == inject_Z n)%Q.

(** The draws of the glossy filter in a trace, in program order: the atlas
    layer and the mip level of each. *)
Definition glossy_draws (tr : list event) : list (Z * Z) :=
  flat_map (fun e => match e with
                     | EvGlossyPass p => [(gp_layer p, gp_level p)]
                     | _ => []
                     end) tr.

(** The cell counter of a grid is in step with its cell count: the grid has
    at least one cell, the counter is between 0 and the cell count, and
    below it while the grid needs an update. *)
Definition counter_in_step (d : EEVEE_LightProbeEngineData) : Prop :=
  1 <= d.(num_cell) <= Int.INT_MAX
  /\ 0 <= d.(updated_cells) <= d.(num_cell)
  /\ (d.(need_update) = true -> d.(updated_cells) < d.(num_cell)).


Definition grid_slots (K : Constants) (st : state) : list (Z * positive) :=
  for_each_ref st.(probes).(probes_grid_ref) K.(MAX_GRID).

Definition cube_slots (K : Constants) (st : state) : list (Z * positive) :=
  for_each_ref st.(probes).(probes_cube_ref) K.(MAX_PROBE).


(** Successive invocations of the scheduler, one per context, with nothing
    else touching the state in between; the traces come in frame order. *)
Fixpoint refresh_frames (K : Constants) (ctxs : list DRWContextState) (st : state)
  : state * list event :=
  match ctxs with
  | [] => (st, [])
  | ctx :: ctxs' =>
      let '(st, tr) := EEVEE_lightprobes_refresh K ctx st in
      let '(st, tr') := refresh_frames K ctxs' st in
      (st, tr ++ tr')
  end.

(** The scan of the scene: every probe object it shows is added in turn. *)
Definition cache_populate (K : Constants) (st : state) (obs : list positive) : state :=
  fold_left (fun st ob => fst (EEVEE_lightprobes_cache_add K st ob)) obs st.

(** Modelled from the spec: the per-frame protocol of sections 4.2 and 4.5
    (reset the counts, scan the scene's probe objects, finish the registry,
    then run the scheduler once); the engine code that makes these calls is
    not part of the source tree. *)
Definition frame (K : Constants) (ctx : DRWContextState) (wo : option Z)
  (obs : list positive) (st : state) : state * list event :=
  let st := EEVEE_lightprobes_cache_init wo st in
  let st := cache_populate K st obs in
  let st := EEVEE_lightprobes_cache_finish K st in
  EEVEE_lightprobes_refresh K ctx st.

(** The dependency graph tags or clears the update flag of an object
    between two frames. *)
Definition set_deg_update_flag (ob : positive) (flag : Z) (st : state) : state :=
  let o := get_object st ob in
  mkState st.(update_world) st.(world_ready_to_shade) st.(probe_pool)
    st.(irradiance_pool) st.(irradiance_rt) st.(next_texture) st.(probes)
    (<[ob := mkObject o.(data) flag o.(ped)]> st.(objects)).

(** Everything in a state but the object store. *)
Definition frame_of (st : state) :=
  (st.(update_world), st.(world_ready_to_shade), st.(probe_pool),
   st.(irradiance_pool), st.(irradiance_rt), st.(next_texture), st.(probes)).

(** The engine data of a grid after one of its cells is baked: the counter
    moves on, and the flag is cleared once the counter has reached the cell
    count. *)
Definition grid_cell_ped (d : EEVEE_LightProbeEngineData) : EEVEE_LightProbeEngineData :=
  let d := set_updated_cells (Int.incr d.(updated_cells)) d in
  if d.(num_cell) <=? d.(updated_cells) then set_need_update false d else d.

(** The engine data of a cube after it is baked into layer [i]. *)
Definition cube_ped (i : Z) (d : EEVEE_LightProbeEngineData) : EEVEE_LightProbeEngineData :=
  set_ready_to_shade true (set_probe_id i (set_need_update false d)).

(** The number of passes of the bounce loop that a state can still need. *)
Definition passes_left (st : state) : nat :=
  Z.to_nat (max_bounce - st.(probes).(updated_bounce)).

(** Whether [EEVEE_lightprobes_cache_add] tags the object: its update flag
    has the runtime-data bit, or the world changed. *)
Definition tagged_for_update (K : Constants) (st : state) (ob : positive) : bool :=
  negb (Z.land (get_object st ob).(deg_update_flag) K.(DEG_RUNTIME_DATA_UPDATE) =? 0)
  || st.(update_world).

(** The engine data of an object after it is added to the registry. *)
Definition cache_add_ped (K : Constants) (st : state) (ob : positive)
  : EEVEE_LightProbeEngineData :=
  let probe := (get_object st ob).(data) in
  let d :=
    set_num_cell
      (Int.mul (Int.mul probe.(grid_resolution_x) probe.(grid_resolution_y))
         probe.(grid_resolution_z)) (get_object st ob).(ped) in
  if tagged_for_update K st ob
  then set_probe_id 0 (set_updated_cells 0 (set_need_update true d))
  else d.

(** The engine data of a cube after the reflection atlas is recreated. *)
Definition cube_refresh_ped (d : EEVEE_LightProbeEngineData) : EEVEE_LightProbeEngineData :=
  set_probe_id 0 (set_ready_to_shade false (set_need_update true d)).

(** [s'] has what the recreation of the reflection atlas set up in [s]: the
    atlas, the world flags, the two cube counts, and for every object a
    [need_update] flag that was not cleared and the same [ready_to_shade]
    and [probe_id]. *)
Definition keeps_cubes (s s' : state) : Prop :=
  s'.(probe_pool) = s.(probe_pool)
  /\ s'.(update_world) = s.(update_world)
  /\ s'.(world_ready_to_shade) = s.(world_ready_to_shade)
  /\ s'.(probes).(num_render_cube) = s.(probes).(num_render_cube)
  /\ s'.(probes).(cache_num_cube) = s.(probes).(cache_num_cube)
  /\ forall ob,
       ((get_object s ob).(ped).(need_update) = true ->
        (get_object s' ob).(ped).(need_update) = true)
       /\ (get_object s' ob).(ped).(ready_to_shade) = (get_object s ob).(ped).(ready_to_shade)
       /\ (get_object s' ob).(ped).(probe_id) = (get_object s ob).(ped).(probe_id).

(** *** Sample inputs *)

(** An instance of the header constants: 128 cube slots, 64 grid slots. *)
Definition sample_constants : Constants :=
  mkConstants 128 64 1 1 IRRADIANCE_HL2.

Definition ctx_idle : DRWContextState := mkContext true false false.
Definition ctx_navigating : DRWContextState := mkContext true true false.

Definition sample_cube (flag : Z) : Object :=
  mkObject (mkLightProbe LIGHTPROBE_TYPE_CUBE 4 4 4 (F32.of_Z 1) (F32.of_Z 40))
    flag zero_engine_data.

Definition sample_grid (flag : Z) (rx ry rz : Z) : Object :=
  mkObject (mkLightProbe LIGHTPROBE_TYPE_GRID rx ry rz (F32.of_Z 1) (F32.of_Z 40))
    flag zero_engine_data.

(** A scene with one grid of 2 x 2 x 2 cells (object 1) and two cube probes
    (objects 2 and 3), all freshly tagged by the dependency graph. *)
Definition sample_scene : gmap positive Object :=
  <[1%positive := sample_grid 1 2 2 2]>
    (<[2%positive := sample_cube 1]> (<[3%positive := sample_cube 1]> ∅)).

Definition clear_deg_update_flags (st : state) : state :=
  set_deg_update_flag 1 0 (set_deg_update_flag 2 0 (set_deg_update_flag 3 0 st)).

(** The registry of the first frame of a scene that shows only cube 2:
    the atlas has just been created, so the world is dirty, and so is the
    cube. *)
Definition sample_first_frame : state :=
  EEVEE_lightprobes_cache_finish sample_constants
    (cache_populate sample_constants
       (EEVEE_lightprobes_cache_init (Some 0) (EEVEE_lightprobes_init sample_scene))
       [2%positive]).

(** Three frames of the sample scene.  In the first all three objects are
    visible and the world is baked.  In the second the grid is hidden: with
    no grid listed the bounce counter runs to the limit and cube 2 is baked.
    In the third the grid is visible again, untouched by the dependency
    graph; [sample_grid_back] is the state the scheduler then starts
    from. *)
Definition sample_frame_1 : state * list event :=
  frame sample_constants ctx_idle (Some 0) [1%positive; 2%positive; 3%positive]
    (EEVEE_lightprobes_init sample_scene).

Definition sample_frame_2 : state * list event :=
  frame sample_constants ctx_idle (Some 0) [2%positive; 3%positive]
    (clear_deg_update_flags sample_frame_1.1).

Definition sample_grid_back : state :=
  EEVEE_lightprobes_cache_finish sample_constants
    (cache_populate sample_constants
       (EEVEE_lightprobes_cache_init (Some 0) sample_frame_2.1)
       [1%positive; 2%positive; 3%positive]).

(** The registry of the second frame when all three objects stay visible:
    the world is baked, no bounce is done, and the grid is the first object
    that needs an update. *)
Definition sample_grid_bake : state :=
  EEVEE_lightprobes_cache_finish sample_constants
    (cache_populate sample_constants
       (EEVEE_lightprobes_cache_init (Some 0)
          (clear_deg_update_flags sample_frame_1.1))
       [1%positive; 2%positive; 3%positive]).

(** A scene that shows only cube 2, whose update flag stays set (the cube
    moves in every frame).  The first frame creates the atlas and bakes the
    world; the second frame tags the cube, runs the bounce counter to the
    limit (no grid is listed) and bakes the cube; [sample_moving_cube] is
    the registry at the start of the third frame, before the cube is
    added. *)
Definition sample_moving_frame_1 : state * list event :=
  frame sample_constants ctx_idle (Some 0) [2%positive]
    (EEVEE_lightprobes_init sample_scene).

Definition sample_moving_frame_2 : state * list event :=
  frame sample_constants ctx_idle (Some 0) [2%positive] sample_moving_frame_1.1.

Definition sample_moving_cube : state :=
  EEVEE_lightprobes_cache_init (Some 0) sample_moving_frame_2.1.

(** A registry whose grid table is full as far as the scheduler walks
    it: 64 grids counted, under the constants of the sample. *)
Definition sample_full_grids : state :=
  with_probes (set_num_grid 64)
    (EEVEE_lightprobes_cache_init (Some 0) (EEVEE_lightprobes_init sample_scene)).

(** A registry in the middle of a grid bake (the sample grid has three of
    its eight cells done) in which one more cube shows up: cube 3 was
    hidden so far, so the number of cubes differs from the cached one while
    both irradiance buffers exist. *)
Definition sample_cube_added : state :=
  cache_populate sample_constants
    (EEVEE_lightprobes_cache_init (Some 0)
       (refresh_frames sample_constants (repeat ctx_idle 3)
          (EEVEE_lightprobes_cache_finish sample_constants
             (cache_populate sample_constants
                (EEVEE_lightprobes_cache_init (Some 0)
                   (clear_deg_update_flags
                      (frame sample_constants ctx_idle (Some 0)
                         [1%positive; 2%positive]
                         (EEVEE_lightprobes_init sample_scene)).1))
                [1%positive; 2%positive]))).1)
    [1%positive; 2%positive; 3%positive].

(** A scene with the 2 x 2 x 2 grid alone, and [n] further frames of it
    after the first, the dependency graph tagging nothing. *)
Fixpoint sample_grid_only_frames (n : nat) : state * list (list capture_pos) :=
  match n with
  | O =>
      let r := frame sample_constants ctx_idle (Some 0) [1%positive]
                 (EEVEE_lightprobes_init sample_scene) in
      (r.1, [captures r.2])
  | S n' =>
      let '(st, log) := sample_grid_only_frames n' in
      let r := frame sample_constants ctx_idle (Some 0) [1%positive]
                 (clear_deg_update_flags st) in
      (r.1, log ++ [captures r.2])
  end.




(** ** Further functions of the file *)

(** *** C [unsigned int] arithmetic *)

Module UInt.

(** Reduction to the 32-bit unsigned range; also the conversion
    [(unsigned int)i] of an [int]. *)
Definition wrap (z : Z) : Z := z mod 4294967296.

Definition shl (a n : Z) : Z := wrap (Z.shiftl a n).
Definition shr (a n : Z) : Z := Z.shiftr a n.

End UInt.

(** The five exchanges of [radical_inverse]: halves, then odd and even bits,
    pairs, nibbles and bytes. *)
Definition reverse_bits (bits : Z) : Z :=
  let bits := Z.lor (UInt.shl bits 16) (UInt.shr bits 16) in
  let bits := Z.lor (UInt.shl (Z.land bits 0x55555555) 1)
                    (UInt.shr (Z.land bits 0xAAAAAAAA) 1) in
  let bits := Z.lor (UInt.shl (Z.land bits 0x33333333) 2)
                    (UInt.shr (Z.land bits 0xCCCCCCCC) 2) in
  let bits := Z.lor (UInt.shl (Z.land bits 0x0F0F0F0F) 4)
                    (UInt.shr (Z.land bits 0xF0F0F0F0) 4) in
  Z.lor (UInt.shl (Z.land bits 0x00FF00FF) 8)
        (UInt.shr (Z.land bits 0xFF00FF00) 8).

(** The float literal [2.3283064365386963e-10f]: the decimal is within
    [1e-26] of [2^-32], which binary32 holds exactly. *)
Definition lit_2_pow_m32 : F32.float := binary_normalize F32.prec F32.emax 1 (-32) false.

(** [radical_inverse]: the Van der Corput sequence in base 2. *)
Definition radical_inverse (i : Z) : F32.float :=
  let bits := UInt.wrap i in
  F32.mul (F32.of_Z (reverse_bits bits)) lit_2_pow_m32.

(** *** Statements about the registry *)

(** A reference table holds the objects [l] in the slots 1, 2, ... in this
    order and nothing else; slot 0 stands for the world. *)
Definition table_holds (refs : gmap Z positive) (l : list positive) : Prop :=
  forall j, refs !! j = if bool_decide (1 <= j) then l !! Z.to_nat (j - 1) else None.

Definition is_cube (st : state) (ob : positive) : bool :=
  LightProbeType_eqb (get_object st ob).(data).(type) LIGHTPROBE_TYPE_CUBE.

Definition is_grid (st : state) (ob : positive) : bool :=
  LightProbeType_eqb (get_object st ob).(data).(type) LIGHTPROBE_TYPE_GRID.

(** The objects of one kind that a scan stores: the first [MAX_PROBE - 1]
    of that kind, in the order of the scan. *)
Definition stored (K : Constants) (kind : positive -> bool) (obs : list positive)
  : list positive :=
  take (Z.to_nat (K.(MAX_PROBE) - 1)) (List.filter kind obs).

(** The number of atlas cells that the grids of the visited slots take
    together. *)
Definition cells_of (st : state) (slots : list (Z * positive)) : Z :=
  foldr (fun slot n => (get_object st slot.2).(ped).(num_cell) + n) 0 slots.

(** The resolution that [copy_v3_v3_int] copies from the probe of an
    object. *)
Definition probe_resolution (st : state) (ob : positive) : Z * Z * Z :=
  let d := (get_object st ob).(data) in
  (d.(grid_resolution_x), d.(grid_resolution_y), d.(grid_resolution_z)).

(** *** Statements about the textures and the scheduler *)

(** The texture handles a state holds. *)
Definition textures (st : state) : list GPUTexture :=
  option_list st.(probe_pool) ++ option_list st.(irradiance_pool)
    ++ option_list st.(irradiance_rt).

(** The handles held are pairwise different and were all returned by a
    texture creation. *)
Definition textures_ok (st : state) : Prop :=
  NoDup (textures st) /\ Forall (fun t => (t < st.(next_texture))%nat) (textures st).

(** What the scan and [EEVEE_lightprobes_cache_finish] set up for the
    scheduler: the counts, the tables, the grid parameters, the reflection
    atlas and the handle counter. *)
Definition registry_of (st : state) :=
  (st.(probes).(num_cube), st.(probes).(cache_num_cube), st.(probes).(num_grid),
   st.(probes).(update_flag), st.(probes).(probes_cube_ref),
   st.(probes).(probes_grid_ref), st.(probes).(grid_data),
   st.(probe_pool), st.(next_texture)).

(** [s'] has the registry of [s], the same two irradiance buffers (in the
    same or in the other order) and, for every object, the same probe data,
    update flag and cell count; specular lighting is on in [s'] if it is
    in [s]. *)
Definition keeps_registry (s s' : state) : Prop :=
  registry_of s' = registry_of s
  /\ ((s'.(irradiance_pool) = s.(irradiance_pool)
       /\ s'.(irradiance_rt) = s.(irradiance_rt))
      \/ (s'.(irradiance_pool) = s.(irradiance_rt)
          /\ s'.(irradiance_rt) = s.(irradiance_pool)))
  /\ (s.(probes).(specular_toggle) = true -> s'.(probes).(specular_toggle) = true)
  /\ forall ob,
       (get_object s' ob).(data) = (get_object s ob).(data)
       /\ (get_object s' ob).(deg_update_flag) = (get_object s ob).(deg_update_flag)
       /\ (get_object s' ob).(ped).(num_cell) = (get_object s ob).(ped).(num_cell).

(** * Properties *)

(** ** C [int] arithmetic without overflow *)

Lemma Int_wrap_small z : Int.in_range z -> Int.wrap z = z.
Proof.
  unfold Int.in_range, Int.wrap, Int.INT_MIN, Int.INT_MAX. intros Hz.
  rewrite Z.mod_small; lia.
Qed.

Lemma Int_wrap_range z : Int.in_range (Int.wrap z).
Proof.
  unfold Int.in_range, Int.wrap, Int.INT_MIN, Int.INT_MAX.
  pose proof (Z.mod_pos_bound (z + 2147483648) 4294967296 ltac:(lia)). lia.
Qed.

(** Wrapping a value that is not above the range never lowers it. *)
Lemma Int_wrap_ge z : z <= Int.INT_MAX -> z <= Int.wrap z.
Proof.
  intros Hz. destruct (Z_lt_ge_dec z Int.INT_MIN) as [Hlt|Hge].
  - pose proof (Int_wrap_range z) as [Hlo _]. lia.
  - rewrite Int_wrap_small; [lia|]. unfold Int.in_range. lia.
Qed.

Lemma Int_incr_small a : Int.INT_MIN <= a < Int.INT_MAX -> Int.incr a = a + 1.
Proof.
  intros Ha. apply Int_wrap_small. unfold Int.in_range. lia.
Qed.

Lemma Int_div_nonneg a b : 0 <= a <= Int.INT_MAX -> 0 < b -> Int.div a b = a / b.
Proof.
  unfold Int.div. intros Ha Hb.
  rewrite Z.quot_div_nonneg by lia.
  apply Int_wrap_small. unfold Int.in_range, Int.INT_MIN.
  pose proof (Z.div_pos a b ltac:(lia) Hb).
  pose proof (Z.div_le_upper_bound a b a Hb ltac:(nia)). lia.
Qed.

Lemma Int_rem_nonneg a b : 0 <= a -> 0 < b -> Int.rem a b = a mod b.
Proof. unfold Int.rem. intros. apply Z.rem_mod_nonneg; lia. Qed.

(** ** Cell index decoding *)

(** ** Integers as floats

    [(float)n] is exact for an integer [n] of at most 24 significant bits:
    the mantissa is shifted left to 24 digits and nothing is rounded. *)

Lemma digits2_pos_iter p k :
  digits2_pos (Pos.iter xO p k) = (digits2_pos p + k)%positive.
Proof.
  induction k as [|k IH] using Pos.peano_ind.
  - cbn. by rewrite Pos.add_1_r.
  - rewrite Pos.iter_succ. cbn [digits2_pos]. by rewrite IH, Pos.add_succ_r.
Qed.

Lemma Zpos_iter_xO p k : Zpos (Pos.iter xO p k) = Zpos p * 2 ^ Zpos k.
Proof.
  induction k as [|k IH] using Pos.peano_ind.
  - cbn. lia.
  - rewrite Pos.iter_succ, Pos2Z.inj_xO, IH, Pos2Z.inj_succ, Z.pow_succ_r by lia. lia.
Qed.

Lemma digits2_pos_bound p : Zpos p < 2 ^ 24 -> Zpos (digits2_pos p) <= 24.
Proof.
  intros Hp.
  assert (Hs : digits2_pos p = Pos.size p).
  { clear Hp. induction p as [p IH|p IH|]; cbn [digits2_pos Pos.size];
      [by rewrite IH..|done]. }
  rewrite Hs. pose proof (Pos.size_le p) as Hle.
  destruct (Z_le_gt_dec (Zpos (Pos.size p)) 24) as [|Hgt]; [done|exfalso].
  assert (H2 : 2 ^ 25 <= 2 ^ Zpos (Pos.size p)) by (apply Z.pow_le_mono_r; lia).
  assert (H3 : 2 ^ Zpos (Pos.size p) <= Zpos p~0).
  { rewrite <- Pos2Z.inj_pow. by apply Pos2Z.pos_le_pos. }
  change (2 ^ 25) with 33554432 in H2. change (2 ^ 24) with 16777216 in Hp. lia.
Qed.

Lemma binary_round_aux_exact m e :
  Zpos (digits2_pos m) = 24 -> -149 <= e <= 104 ->
  binary_round_aux F32.prec F32.emax false (Zpos m) e loc_Exact = S754_finite false m e.
Proof.
  intros Hd He.
  assert (Hshift : fexp F32.prec F32.emax (Zdigits2 (Zpos m) + e) - e = 0).
  { unfold fexp, emin, Zdigits2, F32.prec, F32.emax. rewrite Hd. lia. }
  unfold binary_round_aux, shr_fexp. rewrite Hshift.
  cbn [shr shr_record_of_loc shr_m loc_of_shr_record round_nearest_even].
  rewrite Hshift. cbn [shr shr_record_of_loc shr_m].
  unfold F32.prec, F32.emax.
  destruct (Z.leb_spec e (128 - 24)); [done|lia].
Qed.

Lemma F32_of_Z_pos p :
  Zpos (digits2_pos p) <= 24 ->
  exists m k, F32.of_Z (Zpos p) = S754_finite false m (- k)
              /\ 0 <= k /\ Zpos m = Zpos p * 2 ^ k.
Proof.
  intros Hd. unfold F32.of_Z, binary_normalize, binary_round, shl_align.
  assert (Hf : fexp F32.prec F32.emax (Zpos (digits2_pos p) + 0)
               = Zpos (digits2_pos p) - 24).
  { unfold fexp, emin, F32.prec, F32.emax. lia. }
  rewrite Hf, Z.sub_0_r.
  destruct (Zpos (digits2_pos p) - 24) as [|d|d] eqn:Hk; [|lia|].
  - exists p, 0. rewrite binary_round_aux_exact by lia.
    split; [done|]. lia.
  - exists (Pos.iter xO p d), (Zpos d).
    rewrite binary_round_aux_exact.
    + split; [done|]. split; [lia|]. apply Zpos_iter_xO.
    + rewrite digits2_pos_iter, Pos2Z.inj_add. lia.
    + lia.
Qed.

Lemma F32_of_Z_exact n : 0 <= n <= 16777216 -> F32_exact (F32.of_Z n) n.
Proof.
  intros Hn. unfold F32_exact.
  destruct (Z.eq_dec n 16777216) as [->|Hne].
  { eexists. split; [vm_compute; reflexivity|]. vm_compute. reflexivity. }
  destruct n as [|p|p]; [|  |lia].
  { exists 0%Q. split; reflexivity. }
  destruct (F32_of_Z_pos p) as (m & k & -> & Hk & Hm).
  { apply digits2_pos_bound. change (2 ^ 24) with 16777216. lia. }
  eexists. split; [reflexivity|].
  destruct k as [|k|k]; [| |lia].
  - cbn [Z.opp Qpower]. rewrite Hm, Z.pow_0_r, Z.mul_1_r, Qmult_1_r. reflexivity.
  - cbn [Z.opp Qpower]. rewrite Hm, inject_Z_mult.
    assert (Hpow : (Qpower_positive 2 k == inject_Z (2 ^ Zpos k))%Q).
    { symmetry. apply (Zpower_Qpower 2 (Zpos k)). lia. }
    assert (Hnz : ~ (inject_Z (2 ^ Zpos k) == 0)%Q).
    { intros H0. unfold Qeq in H0. cbn in H0.
      pose proof (Z.pow_pos_nonneg 2 (Zpos k) ltac:(lia) ltac:(lia)). lia. }
    change (Qpower 2 (- Z.pos k)) with (/ Qpower_positive 2 k)%Q.
    setoid_rewrite Hpow.
    setoid_rewrite <- Qmult_assoc. setoid_rewrite (Qmult_inv_r _ Hnz).
    apply Qmult_1_r.
Qed.

Lemma F32_exact_inj f n n' : F32_exact f n -> F32_exact f n' -> n = n'.
Proof.
  intros (q & Hq & He) (q' & Hq' & He'). rewrite Hq in Hq'. injection Hq' as <-.
  rewrite He in He'. unfold Qeq in He'. cbn in He'. lia.
Qed.

Section CellIndex.

Variables resX resY resZ : Z.
Hypothesis HresX : 0 < resX.
Hypothesis HresY : 0 < resY.
Hypothesis HresZ : 0 < resZ.

Lemma flat_cell_index_bounds x y z :
  0 <= x < resX -> 0 <= y < resY -> 0 <= z < resZ ->
  0 <= flat_cell_index (resX, resY, resZ) x y z < resX * resY * resZ.
Proof using HresX HresY HresZ.
  unfold flat_cell_index; simpl. intros Hx Hy Hz. split; [nia|].
  assert (y + resY * x <= resY * resX - 1) by nia.
  nia.
Qed.

(** Decoding inverts the flattening wherever the C expressions do not
    overflow: the index is an [int] and so is [resolution[2] *
    resolution[1]].  The coordinates come out as floats. *)
Lemma cell_decode off x y z :
  0 <= x < resX -> 0 <= y < resY -> 0 <= z < resZ ->
  resZ * resY <= Int.INT_MAX ->
  flat_cell_index (resX, resY, resZ) x y z <= Int.INT_MAX ->
  lightprobe_cell_location_get (mkLightGrid off (resX, resY, resZ))
    (flat_cell_index (resX, resY, resZ) x y z)
  = (F32.of_Z x, F32.of_Z y, F32.of_Z z).
Proof using HresX HresY HresZ.
  intros Hx Hy Hz Hyz Hidx.
  pose proof (flat_cell_index_bounds x y z Hx Hy Hz) as [Hlo _].
  unfold lightprobe_cell_location_get, resolution_x, resolution_y, resolution_z.
  cbn [resolution fst snd].
  set (idx := flat_cell_index (resX, resY, resZ) x y z) in *.
  assert (Hmul : Int.mul resZ resY = resZ * resY).
  { apply Int_wrap_small. unfold Int.in_range, Int.INT_MIN. nia. }
  rewrite Hmul.
  rewrite !Int_div_nonneg by (try split; nia).
  assert (Hq : idx / resZ = y + resY * x).
  { unfold idx, flat_cell_index; simpl.
    rewrite Z.add_comm, Z.mul_comm, Z.div_add_l by lia.
    rewrite Z.div_small by lia. lia. }
  assert (Hr : idx mod resZ = z).
  { unfold idx, flat_cell_index; simpl.
    rewrite (Z.mul_comm resZ), Z.mod_add by lia.
    apply Z.mod_small; lia. }
  rewrite !Int_rem_nonneg by (try rewrite Hq; nia).
  rewrite Hq, Hr.
  assert (Hx' : idx / (resZ * resY) = x).
  { rewrite <- Z.div_div by lia. rewrite Hq.
    rewrite Z.add_comm, Z.mul_comm, Z.div_add_l by lia.
    rewrite Z.div_small by lia. lia. }
  assert (Hy' : (y + resY * x) mod resY = y).
  { rewrite (Z.mul_comm resY), Z.mod_add by lia. apply Z.mod_small; lia. }
  by rewrite Hx', Hy'.
Qed.

End CellIndex.

(** C4.  For a grid resolution with positive components whose cell count
    fits a C [int], decoding the flattened index
    [f(x,y,z) = z + resZ * (y + resY * x)] of a cell with
    [lightprobe_cell_location_get] gives the coordinates [x], [y], [z] as
    converted to [float].  Each converted coordinate is exactly the
    coordinate when it is at most [2^24], and two cells whose coordinates
    are all at most [2^24] never decode to the same triple.  The decoding
    is z-fastest, then y, then x: the next index is the next cell along z,
    or the first cell of the next row along y, or the first cell of the
    next slab along x. *)
Theorem cell_index_roundtrip (resX resY resZ off x y z : Z) :
  0 < resX -> 0 < resY -> 0 < resZ ->
  0 <= x < resX -> 0 <= y < resY -> 0 <= z < resZ ->
  resX * resY * resZ <= Int.INT_MAX ->
  let egrid := mkLightGrid off (resX, resY, resZ) in
  let idx := flat_cell_index (resX, resY, resZ) x y z in
  let c := lightprobe_cell_location_get egrid idx in
  c = (F32.of_Z x, F32.of_Z y, F32.of_Z z)
  /\ (x <= 16777216 -> F32_exact c.1.1 x)
  /\ (y <= 16777216 -> F32_exact c.1.2 y)
  /\ (z <= 16777216 -> F32_exact c.2 z)
  /\ (forall x' y' z',
        0 <= x' < resX -> 0 <= y' < resY -> 0 <= z' < resZ ->
        x <= 16777216 -> y <= 16777216 -> z <= 16777216 ->
        x' <= 16777216 -> y' <= 16777216 -> z' <= 16777216 ->
        lightprobe_cell_location_get egrid
          (flat_cell_index (resX, resY, resZ) x' y' z') = c ->
        (x', y', z') = (x, y, z))
  /\ (z + 1 < resZ ->
      lightprobe_cell_location_get egrid (idx + 1)
      = (F32.of_Z x, F32.of_Z y, F32.of_Z (z + 1)))
  /\ (z + 1 = resZ -> y + 1 < resY ->
      lightprobe_cell_location_get egrid (idx + 1)
      = (F32.of_Z x, F32.of_Z (y + 1), F32.of_Z 0))
  /\ (z + 1 = resZ -> y + 1 = resY -> x + 1 < resX ->
      lightprobe_cell_location_get egrid (idx + 1)
      = (F32.of_Z (x + 1), F32.of_Z 0, F32.of_Z 0)).
Proof.
  intros HX HY HZ Hx Hy Hz Hfit egrid idx c.
  assert (Hyz : resZ * resY <= Int.INT_MAX) by nia.
  assert (Hall : forall a b c, 0 <= a < resX -> 0 <= b < resY -> 0 <= c < resZ ->
            lightprobe_cell_location_get egrid
              (flat_cell_index (resX, resY, resZ) a b c)
            = (F32.of_Z a, F32.of_Z b, F32.of_Z c)).
  { intros a b c0 Ha Hb Hc. apply cell_decode; try assumption.
    pose proof (flat_cell_index_bounds resX resY resZ HX HY HZ a b c0 Ha Hb Hc). lia. }
  assert (Hc : c = (F32.of_Z x, F32.of_Z y, F32.of_Z z)) by (by apply Hall).
  split; [exact Hc|]. rewrite Hc. cbn [fst snd].
  split; [intros ?; apply F32_of_Z_exact; lia|].
  split; [intros ?; apply F32_of_Z_exact; lia|].
  split; [intros ?; apply F32_of_Z_exact; lia|].
  split.
  { intros x' y' z' Hx' Hy' Hz' ? ? ? ? ? ? Heq.
    rewrite Hall in Heq by done. injection Heq as Ex Ey Ez.
    assert (x' = x).
    { apply (F32_exact_inj (F32.of_Z x)); [rewrite <- Ex|]; apply F32_of_Z_exact; lia. }
    assert (y' = y).
    { apply (F32_exact_inj (F32.of_Z y)); [rewrite <- Ey|]; apply F32_of_Z_exact; lia. }
    assert (z' = z).
    { apply (F32_exact_inj (F32.of_Z z)); [rewrite <- Ez|]; apply F32_of_Z_exact; lia. }
    congruence. }
  split; [|split].
  - intros Hz1.
    replace (idx + 1) with (flat_cell_index (resX, resY, resZ) x y (z + 1))
      by (unfold idx, flat_cell_index; simpl; lia).
    apply Hall; lia.
  - intros Hz1 Hy1.
    replace (idx + 1) with (flat_cell_index (resX, resY, resZ) x (y + 1) 0)
      by (unfold idx, flat_cell_index; simpl; nia).
    apply Hall; lia.
  - intros Hz1 Hy1 Hx1.
    replace (idx + 1) with (flat_cell_index (resX, resY, resZ) (x + 1) 0 0)
      by (unfold idx, flat_cell_index; simpl; nia).
    apply Hall; lia.
Qed.

Lemma cell_index_roundtrip_witness :
  let egrid := mkLightGrid 1 (2, 3, 4) in
  let idx := flat_cell_index (2, 3, 4) 1 1 3 in
  let c := lightprobe_cell_location_get egrid idx in
  c = (F32.of_Z 1, F32.of_Z 1, F32.of_Z 3)
  /\ (1 <= 16777216 -> F32_exact c.1.1 1)
  /\ (1 <= 16777216 -> F32_exact c.1.2 1)
  /\ (3 <= 16777216 -> F32_exact c.2 3)
  /\ (forall x' y' z',
        0 <= x' < 2 -> 0 <= y' < 3 -> 0 <= z' < 4 ->
        1 <= 16777216 -> 1 <= 16777216 -> 3 <= 16777216 ->
        x' <= 16777216 -> y' <= 16777216 -> z' <= 16777216 ->
        lightprobe_cell_location_get egrid (flat_cell_index (2, 3, 4) x' y' z') = c ->
        (x', y', z') = (1, 1, 3))
  /\ (3 + 1 < 4 ->
      lightprobe_cell_location_get egrid (idx + 1)
      = (F32.of_Z 1, F32.of_Z 1, F32.of_Z (3 + 1)))
  /\ (3 + 1 = 4 -> 1 + 1 < 3 ->
      lightprobe_cell_location_get egrid (idx + 1)
      = (F32.of_Z 1, F32.of_Z (1 + 1), F32.of_Z 0))
  /\ (3 + 1 = 4 -> 1 + 1 = 3 -> 1 + 1 < 2 ->
      lightprobe_cell_location_get egrid (idx + 1)
      = (F32.of_Z (1 + 1), F32.of_Z 0, F32.of_Z 0)).
Proof.
  apply (cell_index_roundtrip 2 3 4 1 1 1 3); unfold Int.INT_MAX; lia.
Defined.

(** The round trip fails outside these bounds, for resolutions with positive
    components and cells in range.  With resolution (1, 65537, 65536) the
    product [resolution[2] * resolution[1]] wraps around to 65536 and cell
    (0, 2, 0) decodes to x = 2.  With resolution (16777218, 1, 1) nothing
    overflows, but the cells x = 16777216 and x = 16777217 decode to the
    same float, 16777216. *)
Lemma cell_index_roundtrip_fails :
  (let res := (1, 65537, 65536) in
   lightprobe_cell_location_get (mkLightGrid 1 res) (flat_cell_index res 0 2 0)
   = (F32.of_Z 2, F32.of_Z 2, F32.of_Z 0)
   /\ F32.of_Z 2 <> F32.of_Z 0)
  /\ (let res := (16777218, 1, 1) in
      let c := lightprobe_cell_location_get (mkLightGrid 1 res)
                 (flat_cell_index res 16777217 0 0) in
      16777218 * 1 * 1 <= Int.INT_MAX
      /\ c = lightprobe_cell_location_get (mkLightGrid 1 res)
               (flat_cell_index res 16777216 0 0)
      /\ F32_exact c.1.1 16777216
      /\ ~ F32_exact c.1.1 16777217).
Proof.
  split; cbv zeta.
  - split; [vm_compute; reflexivity|]. vm_compute. discriminate.
  - assert (He : F32_exact
                   (lightprobe_cell_location_get (mkLightGrid 1 (16777218, 1, 1))
                      (flat_cell_index (16777218, 1, 1) 16777217 0 0)).1.1 16777216).
    { eexists. split; vm_compute; reflexivity. }
    split; [vm_compute; discriminate|]. split; [vm_compute; reflexivity|].
    split; [exact He|]. intros H.
    pose proof (F32_exact_inj _ _ _ He H). discriminate.
Qed.

(** ** Glossy filter: roughness and sample count per mip level *)

Lemma glossy_levels_processed :
  maxlevel = 10 /\ maxlevel - min_lod_level = 7.
Proof. split; reflexivity. Qed.

Lemma glossy_filter_passes_levels probe_idx :
  map gp_level (glossy_filter_passes probe_idx) = [0; 1; 2; 3; 4; 5; 6].
Proof. reflexivity. Qed.

Lemma glossy_filter_passes_layer probe_idx p :
  In p (glossy_filter_passes probe_idx) -> gp_layer p = probe_idx.
Proof.
  unfold glossy_filter_passes.
  change (Z.to_nat (maxlevel - min_lod_level)) with 7%nat.
  cbn [glossy_levels].
  intros Hin. repeat (destruct Hin as [<-|Hin]; [reflexivity|]). destruct Hin.
Qed.

Ltac level_cases i H :=
  let Hc := fresh "Hc" in
  assert (Hc : i = 0 \/ i = 1 \/ i = 2 \/ i = 3 \/ i = 4 \/ i = 5 \/ i = 6)
    by (change (maxlevel - min_lod_level) with 7 in H; lia);
  destruct Hc as [->|[->|[->|[->|[->|[->| ->]]]]]].

Lemma glossy_roughness_monotone i j :
  0 <= i -> i <= j -> j < maxlevel - min_lod_level ->
  F32.leb (glossy_roughness i) (glossy_roughness j) = true.
Proof.
  intros Hi Hij Hj.
  assert (Hi' : i < maxlevel - min_lod_level) by lia.
  level_cases i Hi'; level_cases j Hj; try lia; vm_compute; reflexivity.
Qed.

Lemma glossy_roughness_close i :
  0 <= i -> i < maxlevel - min_lod_level ->
  F32_close (glossy_roughness i) (roughness_formula i) (1 # 4000000) = true.
Proof.
  intros Hi Hj. level_cases i Hj; vm_compute; reflexivity.
Qed.

(** C8.  [glossy_filter_probe] draws the levels 0 through
    [maxLevel - minLodLevel - 1], with [maxLevel = floor(log2(atlas size))].
    The roughness of the draw at level [i] is the binary32 evaluation of
    [clamp(((i / (maxLevel - 4))^2)^2, 1e-8, 0.99999)]; it agrees with the
    value of that formula over the rationals up to a relative error of
    [1/4000000].  At level 0 it is the lower clamp bound [1e-8f], and it is
    non-decreasing in the level over all the levels drawn. *)
Theorem glossy_roughness_curve (probe_idx : Z) :
  map gp_level (glossy_filter_passes probe_idx)
    = seqZ 0 (Z.log2 PROBE_OCTAHEDRON_SIZE - min_lod_level)
  /\ (forall p, In p (glossy_filter_passes probe_idx) ->
        let i := gp_level p in
        let q := F32.div (F32.of_Z i) (F32.of_Z (maxlevel - 4)) in
        gp_roughness p
          = CLAMP (F32.mul (F32.mul q q) (F32.mul q q)) lit_1e_8 lit_0_99999
        /\ F32_close (gp_roughness p) (roughness_formula i) (1 # 4000000) = true)
  /\ (forall p, In p (glossy_filter_passes probe_idx) ->
        gp_level p = 0 -> gp_roughness p = lit_1e_8)
  /\ (forall p1 p2,
        In p1 (glossy_filter_passes probe_idx) ->
        In p2 (glossy_filter_passes probe_idx) ->
        gp_level p1 <= gp_level p2 ->
        F32.leb (gp_roughness p1) (gp_roughness p2) = true).
Proof.
  assert (Hpass : forall p, In p (glossy_filter_passes probe_idx) ->
            0 <= gp_level p < maxlevel - min_lod_level
            /\ gp_roughness p = glossy_roughness (gp_level p)).
  { unfold glossy_filter_passes.
    change (Z.to_nat (maxlevel - min_lod_level)) with 7%nat.
    cbn [glossy_levels]. intros p Hin.
    repeat (destruct Hin as [<-|Hin]; [split; [by vm_compute|reflexivity]|]).
    destruct Hin. }
  split; [reflexivity|]. split; [|split].
  - intros p Hin i q. destruct (Hpass p Hin) as [Hr Hp]. split.
    + rewrite Hp. subst i q. destruct Hr as [Hlo Hhi].
      level_cases (gp_level p) Hhi; vm_compute; reflexivity.
    + rewrite Hp. apply glossy_roughness_close; lia.
  - intros p Hin H0. destruct (Hpass p Hin) as [_ Hp]. rewrite Hp, H0.
    vm_compute. reflexivity.
  - intros p1 p2 H1 H2 Hle.
    destruct (Hpass p1 H1) as [Hr1 ->]. destruct (Hpass p2 H2) as [Hr2 ->].
    apply glossy_roughness_monotone; lia.
Qed.

Lemma glossy_samples_ct_from_4 i : 4 <= i -> glossy_samples_ct i = F32.of_Z 128.
Proof.
  intros Hi. destruct i as [|p|p]; try lia.
  destruct p as [[p|p|]|[p|p|]|]; try lia; reflexivity.
Qed.

Lemma glossy_samples_ct_monotone i j :
  0 <= i -> i <= j ->
  F32.leb (glossy_samples_ct i) (glossy_samples_ct j) = true.
Proof.
  intros Hi Hij.
  assert (Hci : i = 0 \/ i = 1 \/ i = 2 \/ i = 3 \/ 4 <= i) by lia.
  assert (Hcj : j = 0 \/ j = 1 \/ j = 2 \/ j = 3 \/ 4 <= j) by lia.
  destruct Hci as [->|[->|[->|[->|Hi4]]]];
    destruct Hcj as [->|[->|[->|[->|Hj4]]]];
    try lia;
    rewrite ?(glossy_samples_ct_from_4 i), ?(glossy_samples_ct_from_4 j) by lia;
    vm_compute; reflexivity.
Qed.

(** C9, as the code has it.  The number of importance samples per mip
    level is 1, 16, 32, 64, 128 for the levels 0 through 4 and 128 for
    every later level; it is non-decreasing (not decreasing) in the
    level. *)
Theorem glossy_sample_counts (probe_idx : Z) :
  map gp_samples_ct (glossy_filter_passes probe_idx)
    = map F32.of_Z [1; 16; 32; 64; 128; 128; 128]
  /\ map glossy_samples_ct [0; 1; 2; 3; 4] = map F32.of_Z [1; 16; 32; 64; 128]
  /\ (forall i, 4 <= i -> glossy_samples_ct i = F32.of_Z 128)
  /\ (forall i j, 0 <= i -> i <= j ->
        F32.leb (glossy_samples_ct i) (glossy_samples_ct j) = true).
Proof.
  split; [reflexivity|]. split; [reflexivity|].
  split; [apply glossy_samples_ct_from_4 | apply glossy_samples_ct_monotone].
Qed.

(** C9 as stated fails: from level 0 to level 1 the sample count grows
    from 1 to 16, so the count is not decreasing in the level. *)
Lemma glossy_sample_counts_not_decreasing :
  F32.ltb (glossy_samples_ct 0) (glossy_samples_ct 1) = true
  /\ ~ (forall i j, 0 <= i -> i < j -> j < maxlevel - min_lod_level ->
          F32.leb (glossy_samples_ct j) (glossy_samples_ct i) = true).
Proof.
  split; [reflexivity|].
  intros H. specialize (H 0 1 ltac:(lia) ltac:(lia) ltac:(by vm_compute)).
  vm_compute in H. discriminate H.
Qed.

(** ** The object store and the reference tables *)

Lemma get_object_with_ped st ob f ob' :
  get_object (with_ped ob f st) ob'
  = if decide (ob = ob')
    then mkObject (get_object st ob).(data) (get_object st ob).(deg_update_flag)
           (f (get_object st ob).(ped))
    else get_object st ob'.
Proof.
  unfold get_object at 1, with_ped. cbn [objects].
  rewrite lookup_insert. by destruct (decide (ob = ob')).
Qed.

Lemma get_object_with_ped_eq st ob f :
  get_object (with_ped ob f st) ob
  = mkObject (get_object st ob).(data) (get_object st ob).(deg_update_flag)
      (f (get_object st ob).(ped)).
Proof. rewrite get_object_with_ped. by rewrite decide_True. Qed.

Lemma get_object_with_ped_ne st ob f ob' :
  ob <> ob' -> get_object (with_ped ob f st) ob' = get_object st ob'.
Proof. intros. rewrite get_object_with_ped. by rewrite decide_False. Qed.

Lemma get_object_data_with_ped st ob f ob' :
  (get_object (with_ped ob f st) ob').(data) = (get_object st ob').(data).
Proof.
  rewrite get_object_with_ped. destruct (decide (ob = ob')) as [->|]; reflexivity.
Qed.

(** A property of states kept by every step of a fold is kept by the
    fold. *)
Lemma fold_left_invariant {A} (P : state -> Prop) (f : state -> A -> state) l :
  (forall st a, P st -> P (f st a)) ->
  forall st, P st -> P (fold_left f l st).
Proof.
  intros Hf. induction l as [|a l IH]; intros st Hst; simpl; [done|].
  apply IH, Hf, Hst.
Qed.

Lemma frame_of_with_ped st ob f : frame_of (with_ped ob f st) = frame_of st.
Proof. reflexivity. Qed.

Lemma tag_grid_refresh_frame st slot :
  frame_of (tag_grid_refresh st slot) = frame_of st.
Proof. reflexivity. Qed.

Lemma tag_cube_refresh_frame st slot :
  frame_of (tag_cube_refresh st slot) = frame_of st.
Proof. reflexivity. Qed.

Lemma fold_tag_grid_refresh_frame l st :
  frame_of (fold_left tag_grid_refresh l st) = frame_of st.
Proof.
  apply (fold_left_invariant (fun s => frame_of s = frame_of st)); [|done].
  intros s a Hs. by rewrite tag_grid_refresh_frame.
Qed.

Lemma fold_tag_cube_refresh_frame l st :
  frame_of (fold_left tag_cube_refresh l st) = frame_of st.
Proof.
  apply (fold_left_invariant (fun s => frame_of s = frame_of st)); [|done].
  intros s a Hs. by rewrite tag_cube_refresh_frame.
Qed.

Lemma frame_of_probes st st' : frame_of st = frame_of st' -> st.(probes) = st'.(probes).
Proof. unfold frame_of. congruence. Qed.


Lemma ped_with_ped st ob f ob' :
  (get_object (with_ped ob f st) ob').(ped)
  = if decide (ob = ob') then f (get_object st ob).(ped)
    else (get_object st ob').(ped).
Proof.
  rewrite get_object_with_ped. by destruct (decide (ob = ob')).
Qed.

(** What tagging a grid does to the engine data of any object. *)
Lemma tag_grid_refresh_ped st slot ob :
  (get_object (tag_grid_refresh st slot) ob).(ped)
  = if decide (slot.2 = ob)
    then set_updated_cells 0 (set_need_update true (get_object st ob).(ped))
    else (get_object st ob).(ped).
Proof.
  unfold tag_grid_refresh. rewrite !ped_with_ped.
  repeat case_decide; subst; congruence.
Qed.

Lemma tag_cube_refresh_ped st slot ob :
  (get_object (tag_cube_refresh st slot) ob).(ped)
  = if decide (slot.2 = ob)
    then set_probe_id 0
           (set_ready_to_shade false (set_need_update true (get_object st ob).(ped)))
    else (get_object st ob).(ped).
Proof.
  unfold tag_cube_refresh. rewrite !ped_with_ped.
  repeat case_decide; subst; congruence.
Qed.

Lemma tag_grid_refresh_data st slot ob :
  (get_object (tag_grid_refresh st slot) ob).(data) = (get_object st ob).(data).
Proof. unfold tag_grid_refresh. by rewrite !get_object_data_with_ped. Qed.

Lemma fold_tag_grid_refresh_data l st ob :
  (get_object (fold_left tag_grid_refresh l st) ob).(data) = (get_object st ob).(data).
Proof.
  revert st. induction l as [|a l IH]; intros st; simpl; [done|].
  by rewrite IH, tag_grid_refresh_data.
Qed.

(** After the grids of a walk are tagged, each of them needs an update and
    has no cell done; the other objects keep their engine data. *)
Lemma fold_tag_grid_refresh_in l st ob :
  In ob (map snd l) ->
  let d := (get_object (fold_left tag_grid_refresh l st) ob).(ped) in
  d.(need_update) = true /\ d.(updated_cells) = 0.
Proof.
  revert st. induction l as [|a l IH]; intros st Hin; [destruct Hin|].
  simpl in Hin. simpl fold_left.
  destruct (in_dec Pos.eq_dec ob (map snd l)) as [Hl|Hl]; [by apply IH|].
  destruct Hin as [Ha|Hin]; [|done].
  clear IH. cbv zeta.
  assert (Hkeep : forall s, ~ In ob (map snd l) ->
            (get_object (fold_left tag_grid_refresh l s) ob).(ped)
            = (get_object s ob).(ped)).
  { clear. induction l as [|b l IH]; intros s Hn; simpl; [done|].
    rewrite IH by (simpl in Hn; tauto).
    rewrite tag_grid_refresh_ped, decide_False; [done|]. simpl in Hn. tauto. }
  rewrite Hkeep by done. rewrite tag_grid_refresh_ped, decide_True by done.
  split; reflexivity.
Qed.

Lemma fold_tag_grid_refresh_notin l st ob :
  ~ In ob (map snd l) ->
  (get_object (fold_left tag_grid_refresh l st) ob).(ped) = (get_object st ob).(ped).
Proof.
  revert st. induction l as [|b l IH]; intros s Hn; simpl; [done|].
  rewrite IH by (simpl in Hn; tauto).
  rewrite tag_grid_refresh_ped, decide_False; [done|]. simpl in Hn. tauto.
Qed.

(** Tagging never clears a [need_update] flag. *)
Lemma fold_tag_grid_refresh_need_update l st ob :
  (get_object st ob).(ped).(need_update) = true ->
  (get_object (fold_left tag_grid_refresh l st) ob).(ped).(need_update) = true.
Proof.
  intros H. destruct (in_dec Pos.eq_dec ob (map snd l)) as [Hl|Hl].
  - by apply fold_tag_grid_refresh_in.
  - by rewrite fold_tag_grid_refresh_notin.
Qed.

(** Tagging grids leaves [ready_to_shade] and [probe_id] alone. *)
Lemma fold_tag_grid_refresh_other_fields l st ob :
  let d := (get_object (fold_left tag_grid_refresh l st) ob).(ped) in
  d.(ready_to_shade) = (get_object st ob).(ped).(ready_to_shade)
  /\ d.(probe_id) = (get_object st ob).(ped).(probe_id)
  /\ d.(num_cell) = (get_object st ob).(ped).(num_cell).
Proof.
  revert st. induction l as [|b l IH]; intros s; simpl; [done|].
  destruct (IH (tag_grid_refresh s b)) as (H1 & H2 & H3).
  rewrite H1, H2, H3, tag_grid_refresh_ped.
  destruct (decide (b.2 = ob)); done.
Qed.

Lemma find_need_update_some st l i ob :
  find_need_update st l = Some (i, ob) ->
  In (i, ob) l /\ (get_object st ob).(ped).(need_update) = true.
Proof. intros H. by apply find_some in H. Qed.

Lemma find_need_update_none st l :
  find_need_update st l = None ->
  forall slot, In slot l -> (get_object st slot.2).(ped).(need_update) = false.
Proof. intros H slot Hin. by apply (find_none _ _ H). Qed.



(** ** Traces *)

Lemma captures_app t1 t2 : captures (t1 ++ t2) = captures t1 ++ captures t2.
Proof. unfold captures. apply flat_map_app. Qed.

Lemma captures_glossy_filter_probe i : captures (glossy_filter_probe i) = [].
Proof.
  unfold glossy_filter_probe. induction (glossy_filter_passes i); simpl; done.
Qed.

Lemma glossy_draws_app t1 t2 : glossy_draws (t1 ++ t2) = glossy_draws t1 ++ glossy_draws t2.
Proof. unfold glossy_draws. apply flat_map_app. Qed.

(** The glossy filter is seven draws, at the mip levels 0 to 6, all into the
    layer it is given. *)
Lemma glossy_draws_glossy_filter_probe i :
  glossy_draws (glossy_filter_probe i) = map (pair i) (seqZ 0 7).
Proof. vm_compute. reflexivity. Qed.


(** ** The world branch *)

Lemma refresh_world_spec K st :
  let r := refresh_world K st in
  r.2 = [EvRenderWorld] ++ glossy_filter_probe 0
        ++ [diffuse_filter_probe K st 0; EvSwapIrradiance;
            diffuse_filter_probe K (swap_irradiance st) 0; EvRequestRedraw]
  /\ r.1.(update_world) = false
  /\ r.1.(world_ready_to_shade) = true
  /\ r.1.(irradiance_pool) = st.(irradiance_rt)
  /\ r.1.(irradiance_rt) = st.(irradiance_pool)
  /\ r.1.(probe_pool) = st.(probe_pool)
  /\ r.1.(objects) = st.(objects)
  /\ r.1.(probes)
     = (if st.(world_ready_to_shade) then st.(probes)
        else set_num_render_grid 1 (set_num_render_cube 1 st.(probes))).
Proof.
  unfold refresh_world, swap_irradiance. cbv zeta.
  cbn [world_ready_to_shade set_update_world set_irradiance_rt set_irradiance_pool].
  destruct (world_ready_to_shade st) eqn:Hw; cbn;
    repeat split; try reflexivity; exact Hw.
Qed.

Lemma refresh_world_captures K st : captures (refresh_world K st).2 = [].
Proof.
  destruct (refresh_world_spec K st) as (-> & _).
  rewrite !captures_app, captures_glossy_filter_probe. reflexivity.
Qed.

(** ** One grid cell *)

Lemma refresh_grid_cell_spec K st i ob :
  let r := refresh_grid_cell K st i ob in
  let c := (get_object st ob).(ped).(updated_cells) in
  let egrid := default zero_grid (st.(probes).(grid_data) !! i) in
  let prb := (get_object st ob).(data) in
  r.2 = [EvSwapIrradiance;
         EvRenderScene (PosGridCell i c (lightprobe_cell_location_get egrid c))
           prb.(clipsta) prb.(clipend) 0
           (if st.(probes).(updated_bounce) =? 0 then 0
            else st.(probes).(num_render_grid))
           st.(irradiance_rt);
         EvDiffusePass st.(irradiance_pool) (Int.add egrid.(offset) c)
           (match diffuse_filter_probe K st (Int.add egrid.(offset) c) with
            | EvDiffusePass _ _ vp => vp
            | _ => (0, 0, 0, 0)
            end);
         EvSwapIrradiance; EvRequestRedraw]
  /\ frame_of r.1 = frame_of (with_probes (set_specular_toggle true) st)
  /\ (forall ob', (get_object r.1 ob').(data) = (get_object st ob').(data))
  /\ (forall ob', ob' <> ob -> get_object r.1 ob' = get_object st ob')
  /\ (get_object r.1 ob).(ped) = grid_cell_ped (get_object st ob).(ped).
Proof.
  unfold refresh_grid_cell, render_scene_to_probe. cbv zeta.
  match goal with
  | |- context [with_ped ob (fun d => set_updated_cells _ d) ?s] => set (sp := s)
  end.
  assert (Hobj : objects sp = objects st).
  { subst sp. unfold swap_irradiance. cbn.
    destruct (updated_bounce (probes st) =? 0); reflexivity. }
  assert (Hfr : frame_of sp = frame_of (with_probes (set_specular_toggle true) st)).
  { subst sp. unfold frame_of, swap_irradiance. cbn.
    destruct (updated_bounce (probes st) =? 0); reflexivity. }
  assert (Hget : forall ob', get_object sp ob' = get_object st ob').
  { intros ob'. unfold get_object. by rewrite Hobj. }
  set (st3 := with_ped ob _ sp).
  assert (Hped3 : forall ob', (get_object st3 ob').(ped)
            = if decide (ob = ob')
              then set_updated_cells (Int.incr (get_object st ob).(ped).(updated_cells))
                     (get_object st ob).(ped)
              else (get_object st ob').(ped)).
  { intros ob'. subst st3. rewrite ped_with_ped, !Hget. reflexivity. }
  assert (Hdata3 : forall ob', (get_object st3 ob').(data) = (get_object st ob').(data)).
  { intros ob'. subst st3. rewrite get_object_data_with_ped, Hget. reflexivity. }
  split; [|split; [|split; [|split]]].
  - cbn. unfold swap_irradiance. cbn.
    destruct (updated_bounce (probes st) =? 0); reflexivity.
  - cbn [fst]. destruct (_ <=? _); [rewrite frame_of_with_ped|]; exact Hfr.
  - intros ob'. cbn [fst].
    destruct (_ <=? _); [rewrite get_object_data_with_ped|]; apply Hdata3.
  - intros ob' Hne. cbn [fst].
    assert (get_object st3 ob' = get_object st ob') as H3'.
    { subst st3. rewrite get_object_with_ped_ne by done. apply Hget. }
    destruct (_ <=? _); [rewrite get_object_with_ped_ne by done|]; exact H3'.
  - cbn [fst]. unfold grid_cell_ped. cbv zeta.
    rewrite !Hped3, decide_True by done. cbn [num_cell updated_cells set_updated_cells].
    destruct (_ <=? _); [rewrite ped_with_ped, decide_True by done|];
      rewrite Hped3, decide_True by done; reflexivity.
Qed.

(** ** One cube *)

Lemma refresh_cube_spec st i ob :
  let r := refresh_cube st i ob in
  let prb := (get_object st ob).(data) in
  r.2 = [EvRenderScene (PosObject ob) prb.(clipsta) prb.(clipend)
           st.(probes).(num_render_cube) st.(probes).(num_render_grid)
           st.(irradiance_pool)]
        ++ glossy_filter_probe i ++ [EvRequestRedraw]
  /\ r.1.(probes)
     = (let p := set_specular_toggle true st.(probes) in
        if (get_object st ob).(ped).(ready_to_shade) then p
        else set_num_render_cube (Int.incr p.(num_render_cube)) p)
  /\ r.1.(update_world) = st.(update_world)
  /\ (forall ob', ob' <> ob -> get_object r.1 ob' = get_object st ob')
  /\ (get_object r.1 ob).(ped) = cube_ped i (get_object st ob).(ped).
Proof.
  unfold refresh_cube, render_scene_to_probe. cbv zeta.
  match goal with
  | |- context [with_ped ob (set_need_update false) ?s] => set (sp := s)
  end.
  assert (Hget : forall ob', get_object sp ob' = get_object st ob') by reflexivity.
  set (st2 := with_ped ob (set_probe_id i) (with_ped ob (set_need_update false) sp)).
  assert (Hped2 : (get_object st2 ob).(ped)
            = set_probe_id i (set_need_update false (get_object st ob).(ped))).
  { subst st2. rewrite !ped_with_ped, !decide_True by done. by rewrite Hget. }
  assert (Hne2 : forall ob', ob' <> ob -> get_object st2 ob' = get_object st ob').
  { intros ob' Hne. subst st2. rewrite !get_object_with_ped_ne by done. apply Hget. }
  rewrite Hped2. cbn [ready_to_shade set_probe_id set_need_update].
  destruct (ready_to_shade (ped (get_object st ob))) eqn:Hr; cbn [negb fst snd].
  - repeat split; try reflexivity; [exact Hne2|].
    rewrite Hped2. unfold cube_ped.
    destruct (ped (get_object st ob)); cbn in *; by subst.
  - repeat split; try reflexivity.
    + intros ob' Hne. rewrite get_object_with_ped_ne by done.
      unfold get_object. cbn [objects with_probes]. apply Hne2, Hne.
    + rewrite ped_with_ped, decide_True by done.
      change (get_object (with_probes _ st2) ob) with (get_object st2 ob).
      rewrite Hped2. reflexivity.
Qed.

Lemma refresh_cube_captures st i ob : captures (refresh_cube st i ob).2 = [PosObject ob].
Proof.
  destruct (refresh_cube_spec st i ob) as (-> & _).
  rewrite !captures_app, captures_glossy_filter_probe. reflexivity.
Qed.


(** ** The bounce loop *)

Lemma passes_left_0 st : passes_left st = O -> (st.(probes).(updated_bounce) <? max_bounce) = false.
Proof. unfold passes_left. intros H. apply Z.ltb_ge. lia. Qed.

(** A pass that does not return leaves at least one pass less to do. *)
Lemma passes_left_incr st st' n :
  st.(probes).(updated_bounce) < max_bounce ->
  st'.(probes).(updated_bounce) = Int.incr st.(probes).(updated_bounce) ->
  (passes_left st <= S n)%nat -> (passes_left st' <= n)%nat.
Proof.
  unfold passes_left, max_bounce. intros Hlt -> Hn.
  pose proof (Int_wrap_ge (updated_bounce (probes st) + 1)
                ltac:(unfold Int.INT_MAX; lia)) as Hge.
  unfold Int.incr. lia.
Qed.

Lemma refresh_grids_loop_fuel K n : forall m st,
  (passes_left st <= n)%nat -> (passes_left st <= m)%nat ->
  refresh_grids_loop K n st = refresh_grids_loop K m st.
Proof.
  induction n as [|n IH]; intros m st Hn Hm.
  - assert (H0 : passes_left st = O) by lia. apply passes_left_0 in H0.
    destruct m; simpl; [done|]. by rewrite H0.
  - destruct m as [|m].
    + assert (H0 : passes_left st = O) by lia. apply passes_left_0 in H0.
      simpl. by rewrite H0.
    + simpl. destruct (updated_bounce (probes st) <? max_bounce) eqn:Hb; [|done].
      apply Z.ltb_lt in Hb.
      destruct (find_need_update _ _) as [[i ob]|]; [done|].
      match goal with
      | |- context [if ?c then _ else _] => destruct c
      end.
      * rewrite (IH m); [done| |];
          (eapply passes_left_incr; [exact Hb| |eassumption]);
          unfold swap_irradiance; cbn;
          by rewrite (frame_of_probes _ _ (fold_tag_grid_refresh_frame _ _)).
      * apply IH; (eapply passes_left_incr; [exact Hb| |eassumption]); reflexivity.
Qed.

(** The loop equation: [refresh_grids] is the [while] loop of the source. *)
Lemma refresh_grids_while K st :
  refresh_grids K st
  = if st.(probes).(updated_bounce) <? max_bounce then
      let st := with_probes (fun p => set_num_render_grid p.(num_grid) p) st in
      let grids := for_each_ref st.(probes).(probes_grid_ref) K.(MAX_GRID) in
      match find_need_update st grids with
      | Some (i, ob) =>
          let '(st, tr) := refresh_grid_cell K st i ob in (st, tr, Returned)
      | None =>
          let st := with_probes
                      (fun p => set_updated_bounce (Int.incr p.(updated_bounce)) p) st in
          let st := with_probes (fun p => set_num_render_grid p.(num_grid) p) st in
          if st.(probes).(updated_bounce) <? max_bounce then
            let st := fold_left tag_grid_refresh grids st in
            let st := swap_irradiance st in
            let '(st, tr, exit) := refresh_grids K st in
            (st, EvSwapIrradiance :: tr, exit)
          else refresh_grids K st
      end
    else (st, [], Fallthrough).
Proof.
  unfold refresh_grids at 1.
  destruct (passes_left st) as [|n] eqn:Hn.
  - apply passes_left_0 in Hn. fold (passes_left st). 
    unfold passes_left in *. simpl. rewrite Hn.
    destruct (Z.to_nat _); simpl; [done|by rewrite Hn].
  - fold (passes_left st). rewrite Hn. simpl.
    destruct (updated_bounce (probes st) <? max_bounce) eqn:Hb; [|done].
    apply Z.ltb_lt in Hb.
    destruct (find_need_update _ _) as [[i ob]|]; [done|].
    match goal with
    | |- context [if ?c then _ else _] => destruct c
    end.
    + unfold refresh_grids.
      match goal with
      | |- context [refresh_grids_loop K n ?s] =>
          rewrite (refresh_grids_loop_fuel K n (passes_left s) s); [done| |done]
      end.
      eapply passes_left_incr; [exact Hb| |rewrite <- Hn; done].
      unfold swap_irradiance; cbn.
      by rewrite (frame_of_probes _ _ (fold_tag_grid_refresh_frame _ _)).
    + unfold refresh_grids.
      match goal with
      | |- context [refresh_grids_loop K n ?s] =>
          rewrite (refresh_grids_loop_fuel K n (passes_left s) s); [done| |done]
      end.
      eapply passes_left_incr; [exact Hb| |rewrite <- Hn; done]. reflexivity.
Qed.

Lemma fold_tag_grid_refresh_probes l st :
  (fold_left tag_grid_refresh l st).(probes) = st.(probes).
Proof. apply frame_of_probes, fold_tag_grid_refresh_frame. Qed.


Lemma refresh_grids_loop_S K n st :
  refresh_grids_loop K (S n) st
  = if st.(probes).(updated_bounce) <? max_bounce then
      let st := with_probes (fun p => set_num_render_grid p.(num_grid) p) st in
      let grids := for_each_ref st.(probes).(probes_grid_ref) K.(MAX_GRID) in
      match find_need_update st grids with
      | Some (i, ob) =>
          let '(st, tr) := refresh_grid_cell K st i ob in (st, tr, Returned)
      | None =>
          let st := with_probes
                      (fun p => set_updated_bounce (Int.incr p.(updated_bounce)) p) st in
          let st := with_probes (fun p => set_num_render_grid p.(num_grid) p) st in
          if st.(probes).(updated_bounce) <? max_bounce then
            let st := fold_left tag_grid_refresh grids st in
            let st := swap_irradiance st in
            let '(st, tr, exit) := refresh_grids_loop K n st in
            (st, EvSwapIrradiance :: tr, exit)
          else refresh_grids_loop K n st
      end
    else (st, [], Fallthrough).
Proof. reflexivity. Qed.

Lemma refresh_grids_loop_done K n st :
  (st.(probes).(updated_bounce) <? max_bounce) = false ->
  refresh_grids_loop K n st = (st, [], Fallthrough).
Proof.
  intros Hb. destruct n; [reflexivity|].
  rewrite refresh_grids_loop_S, Hb. reflexivity.
Qed.


(** A run that returns does so from the body of one grid step: a state
    [sa] inside the loop in which [(i, ob)] is the first listed grid that
    needs an update.  Before that step the run has only swapped buffers. *)
Lemma refresh_grids_loop_returned K n : forall st st' tr,
  refresh_grids_loop K n st = (st', tr, Returned) ->
  exists sa pre i ob tr',
    find_need_update sa (grid_slots K sa) = Some (i, ob)
    /\ sa.(probes).(updated_bounce) < max_bounce
    /\ refresh_grid_cell K sa i ob = (st', tr')
    /\ tr = pre ++ tr'
    /\ Forall (eq EvSwapIrradiance) pre.
Proof.
  induction n as [|n IH]; intros st st' tr H; [discriminate H|].
  rewrite refresh_grids_loop_S in H. cbv zeta in H.
  destruct (updated_bounce (probes st) <? max_bounce) eqn:Hb; [|discriminate H].
  apply Z.ltb_lt in Hb.
  destruct (find_need_update _ _) as [[i ob]|] eqn:Hfind.
  - destruct (refresh_grid_cell K _ i ob) as [s t] eqn:E.
    injection H as <- <-.
    exists (with_probes (fun p => set_num_render_grid (num_grid p) p) st), [], i, ob, t.
    split; [exact Hfind|]. split; [exact Hb|]. split; [exact E|]. done.
  - match type of H with
    | context [if ?c then _ else _] => destruct c
    end.
    + match type of H with
      | context [refresh_grids_loop K n ?s] =>
          destruct (refresh_grids_loop K n s) as [[s' t] e] eqn:E
      end.
      injection H as <- <- ->.
      apply IH in E as (sa & pre & i & ob & tr' & H1 & H2 & H3 & -> & H5).
      exists sa, (EvSwapIrradiance :: pre), i, ob, tr'.
      split_and!; try done. by constructor.
    + by apply IH in H.
Qed.

(** A run that falls through has only swapped buffers. *)
Lemma refresh_grids_loop_swaps K n : forall st st' tr,
  refresh_grids_loop K n st = (st', tr, Fallthrough) ->
  Forall (eq EvSwapIrradiance) tr.
Proof.
  induction n as [|n IH]; intros st st' tr H.
  - injection H as _ <-. constructor.
  - rewrite refresh_grids_loop_S in H. cbv zeta in H.
    destruct (updated_bounce (probes st) <? max_bounce);
      [|injection H as _ <-; constructor].
    destruct (find_need_update _ _) as [[i ob]|].
    { destruct (refresh_grid_cell K _ i ob). discriminate H. }
    match type of H with
    | context [if ?c then _ else _] => destruct c
    end.
    + match type of H with
      | context [refresh_grids_loop K n ?s] =>
          destruct (refresh_grids_loop K n s) as [[s' t] e] eqn:E
      end.
      injection H as _ <- ->. constructor; [done|]. by apply IH in E.
    + by apply IH in H.
Qed.

Lemma captures_swaps pre : Forall (eq EvSwapIrradiance) pre -> captures pre = [].
Proof. induction 1 as [|e l <- _ IH]; [done|exact IH]. Qed.


(** With enough passes, the loop falls through only once the bounce counter
    has reached the limit; and if the counter was below the limit at entry,
    the last pass found no listed grid in need of an update. *)
Lemma refresh_grids_loop_fallthrough K n : forall st st' tr,
  (passes_left st <= n)%nat ->
  refresh_grids_loop K n st = (st', tr, Fallthrough) ->
  max_bounce <= st'.(probes).(updated_bounce)
  /\ (st.(probes).(updated_bounce) < max_bounce ->
      forall slot, In slot (grid_slots K st') ->
        (get_object st' slot.2).(ped).(need_update) = false).
Proof.
  induction n as [|n IH]; intros st st' tr Hn H.
  - assert (H0 : passes_left st = O) by lia. apply passes_left_0, Z.ltb_ge in H0.
    simpl in H. injection H as <- <-. split; [done|lia].
  - rewrite refresh_grids_loop_S in H. cbv zeta in H.
    destruct (updated_bounce (probes st) <? max_bounce) eqn:Hb.
    2:{ injection H as <- <-. apply Z.ltb_ge in Hb. split; [done|lia]. }
    apply Z.ltb_lt in Hb.
    destruct (find_need_update _ _) as [[i ob]|] eqn:Hfind.
    { destruct (refresh_grid_cell K _ i ob). discriminate H. }
    match type of H with
    | context [if ?c then _ else _] => destruct c eqn:Hb'
    end.
    + match type of H with
      | context [refresh_grids_loop K n ?s] =>
          destruct (refresh_grids_loop K n s) as [[s' t] e] eqn:E
      end.
      injection H as <- <- ->.
      apply IH in E.
      * destruct E as [E1 E2]. split; [exact E1|]. intros _. apply E2.
        apply Z.ltb_lt in Hb'. unfold swap_irradiance. cbn.
        rewrite fold_tag_grid_refresh_probes. exact Hb'.
      * eapply passes_left_incr; [exact Hb| |exact Hn].
        unfold swap_irradiance. cbn. by rewrite fold_tag_grid_refresh_probes.
    + rewrite refresh_grids_loop_done in H by exact Hb'.
      injection H as <- <-.
      split; [by apply Z.ltb_ge in Hb'|]. intros _ slot Hin.
      apply (find_need_update_none _ _ Hfind slot Hin).
Qed.

Lemma refresh_grids_fallthrough K st st' tr :
  refresh_grids K st = (st', tr, Fallthrough) ->
  max_bounce <= st'.(probes).(updated_bounce)
  /\ (st.(probes).(updated_bounce) < max_bounce ->
      forall slot, In slot (grid_slots K st') ->
        (get_object st' slot.2).(ped).(need_update) = false).
Proof. apply refresh_grids_loop_fallthrough. done. Qed.


(** ** The scheduler, one invocation *)

Arguments glossy_filter_probe : simpl never.
Arguments glossy_filter_passes : simpl never.


Lemma in_glossy_filter_probe i e :
  In e (glossy_filter_probe i) ->
  exists p, e = EvGlossyPass p /\ In p (glossy_filter_passes i).
Proof.
  unfold glossy_filter_probe. rewrite in_map_iff.
  intros (p & <- & Hp). eauto.
Qed.



Lemma refresh_cubes_captures K st :
  (exists i ob, find_need_update st (cube_slots K st) = Some (i, ob)
                /\ refresh_cubes K st = refresh_cube st i ob
                /\ captures (refresh_cubes K st).2 = [PosObject ob])
  \/ (find_need_update st (cube_slots K st) = None
      /\ refresh_cubes K st = (st, [])).
Proof.
  unfold refresh_cubes. fold (cube_slots K st).
  destruct (find_need_update st (cube_slots K st)) as [[i ob]|]; [left|right; done].
  exists i, ob. split; [reflexivity|]. split; [reflexivity|].
  apply refresh_cube_captures.
Qed.

(** The scheduler is in one of four cases. *)
Lemma refresh_cases K ctx st :
  let r := EEVEE_lightprobes_refresh K ctx st in
  (st.(update_world) = true /\ r = refresh_world K st)
  \/ (st.(update_world) = false /\ bake_paused ctx = true /\ r = (st, []))
  \/ (st.(update_world) = false /\ bake_paused ctx = false /\
      exists tr, refresh_grids K st = (r.1, tr, Returned) /\ r.2 = tr)
  \/ (st.(update_world) = false /\ bake_paused ctx = false /\
      exists st1 tr1, refresh_grids K st = (st1, tr1, Fallthrough)
        /\ r.1 = (refresh_cubes K st1).1
        /\ r.2 = tr1 ++ (refresh_cubes K st1).2).
Proof.
  unfold EEVEE_lightprobes_refresh.
  destruct (update_world st); [by left|right].
  destruct (bake_paused ctx); [by left|right].
  destruct (refresh_grids K st) as [[st1 tr1] [|]] eqn:E; [left|right].
  - repeat split. by exists tr1.
  - repeat split. exists st1, tr1. destruct (refresh_cubes K st1). done.
Qed.








Lemma refresh_grid_cell_probes K st i ob :
  (refresh_grid_cell K st i ob).1.(probes) = set_specular_toggle true st.(probes).
Proof.
  destruct (refresh_grid_cell_spec K st i ob) as (_ & Hfr & _).
  apply frame_of_probes in Hfr. exact Hfr.
Qed.




(** ** Grid cells, frame after frame *)

Lemma refresh_grid_step K ctx st i ob :
  st.(update_world) = false ->
  bake_paused ctx = false ->
  st.(probes).(updated_bounce) < max_bounce ->
  find_need_update st (grid_slots K st) = Some (i, ob) ->
  EEVEE_lightprobes_refresh K ctx st
  = refresh_grid_cell K
      (with_probes (fun p => set_num_render_grid p.(num_grid) p) st) i ob.
Proof.
  intros Hw Hp Hb Hfind. unfold EEVEE_lightprobes_refresh.
  rewrite Hw, Hp, refresh_grids_while.
  apply Z.ltb_lt in Hb. rewrite Hb. cbv zeta.
  change (find_need_update (with_probes _ st) (for_each_ref _ _))
    with (find_need_update st (grid_slots K st)).
  rewrite Hfind. by destruct (refresh_grid_cell K _ i ob).
Qed.



(** The fields of a grid after one of its cells is baked. *)
Lemma grid_cell_ped_step d :
  d.(need_update) = true ->
  (grid_cell_ped d).(updated_cells) = Int.incr d.(updated_cells)
  /\ (grid_cell_ped d).(num_cell) = d.(num_cell)
  /\ (grid_cell_ped d).(probe_id) = d.(probe_id)
  /\ (grid_cell_ped d).(ready_to_shade) = d.(ready_to_shade)
  /\ (grid_cell_ped d).(need_update)
     = negb (d.(num_cell) <=? Int.incr d.(updated_cells)).
Proof.
  intros Hn. unfold grid_cell_ped. cbv zeta.
  cbn [num_cell updated_cells set_updated_cells].
  destruct (num_cell d <=? Int.incr (updated_cells d)); cbn; by rewrite ?Hn.
Qed.



(** ** The registry *)

Lemma get_object_with_probes f st ob :
  get_object (with_probes f st) ob = get_object st ob.
Proof. reflexivity. Qed.

Lemma walk_refs_bound refs n : forall i j ob,
  In (j, ob) (walk_refs refs n i) ->
  i <= j < i + Z.of_nat n /\ refs !! j = Some ob.
Proof.
  induction n as [|n IH]; intros i j ob Hin; [destruct Hin|].
  cbn [walk_refs] in Hin. destruct (refs !! i) as [o|] eqn:Hi; [|destruct Hin].
  destruct Hin as [[= <- <-]|Hin]; [split; [lia|done]|].
  apply IH in Hin as [Hj Hl]. split; [lia|done].
Qed.

(** A walk only visits the slots from 1 up to the bound of its loop. *)
Lemma for_each_ref_bound refs max j ob :
  In (j, ob) (for_each_ref refs max) -> 1 <= j < max /\ refs !! j = Some ob.
Proof.
  unfold for_each_ref. intros Hin. apply walk_refs_bound in Hin as [Hj Hl].
  split; [lia|done].
Qed.

Lemma cache_add_rejected K st ob :
  too_much_probes K st.(probes) (get_object st ob).(data) = true ->
  EEVEE_lightprobes_cache_add K st ob
  = (st, [EvPrintf "Too much probes in the scene !!!"%string]).
Proof. intros H. unfold EEVEE_lightprobes_cache_add. by rewrite H. Qed.

Lemma tag_object_update_ped st ob ob' :
  (get_object (tag_object_update ob st) ob').(ped)
  = if decide (ob = ob')
    then set_probe_id 0 (set_updated_cells 0 (set_need_update true (get_object st ob).(ped)))
    else (get_object st ob').(ped).
Proof.
  unfold tag_object_update. rewrite get_object_with_probes, !ped_with_ped.
  repeat case_decide; subst; congruence.
Qed.

(** What [EEVEE_lightprobes_cache_add] does to an object it does not
    reject. *)
Lemma cache_add_accepted K st ob :
  too_much_probes K st.(probes) (get_object st ob).(data) = false ->
  let r := EEVEE_lightprobes_cache_add K st ob in
  let p := st.(probes) in
  r.2 = []
  /\ (get_object r.1 ob).(ped) = cache_add_ped K st ob
  /\ (forall ob', ob' <> ob -> (get_object r.1 ob').(ped) = (get_object st ob').(ped))
  /\ r.1.(probes).(updated_bounce)
     = (if tagged_for_update K st ob then 0 else p.(updated_bounce))
  /\ r.1.(update_world) = st.(update_world)
  /\ (r.1.(probes).(probes_cube_ref), r.1.(probes).(num_cube),
      r.1.(probes).(probes_grid_ref), r.1.(probes).(num_grid))
     = match (get_object st ob).(data).(type) with
       | LIGHTPROBE_TYPE_CUBE =>
           (<[p.(num_cube) := ob]> p.(probes_cube_ref), Int.incr p.(num_cube),
            p.(probes_grid_ref), p.(num_grid))
       | LIGHTPROBE_TYPE_GRID =>
           (p.(probes_cube_ref), p.(num_cube),
            <[p.(num_grid) := ob]> p.(probes_grid_ref), Int.incr p.(num_grid))
       end.
Proof.
  intros Hacc r p. subst r p. unfold EEVEE_lightprobes_cache_add.
  rewrite Hacc. cbv zeta.
  set (st1 := with_ped ob (set_num_cell _) st).
  assert (Hflag : (get_object st1 ob).(deg_update_flag) = (get_object st ob).(deg_update_flag)).
  { subst st1. by rewrite get_object_with_ped_eq. }
  assert (Hped1 : forall ob', (get_object st1 ob').(ped)
            = if decide (ob = ob')
              then set_num_cell
                     (Int.mul (Int.mul (get_object st ob).(data).(grid_resolution_x)
                                 (get_object st ob).(data).(grid_resolution_y))
                        (get_object st ob).(data).(grid_resolution_z))
                     (get_object st ob).(ped)
              else (get_object st ob').(ped)).
  { intros ob'. subst st1. by rewrite ped_with_ped. }
  rewrite Hflag. unfold cache_add_ped, tagged_for_update. cbv zeta.
  destruct (negb (Z.land _ _ =? 0)) eqn:Hdeg;
    [change (update_world (tag_object_update ob st1)) with (update_world st)
    |change (update_world st1) with (update_world st)];
    destruct (update_world st) eqn:Hw;
    destruct (type (data (get_object st ob))) eqn:Hty;
    cbn [orb LightProbeType_eqb fst snd];
    (split; [reflexivity|]);
    (split; [rewrite ?get_object_with_probes, ?tag_object_update_ped, ?Hped1,
               ?decide_True by done; reflexivity|]);
    (split; [intros ob' Hne;
             rewrite ?get_object_with_probes, ?tag_object_update_ped, ?Hped1,
               ?decide_False by done; reflexivity|]);
    (split; [reflexivity|]);
    (split; [first [reflexivity | exact Hw]|reflexivity]).
Qed.

(** ** The cell counter stays in step *)


Lemma tagged_in_step d :
  counter_in_step d -> counter_in_step (set_updated_cells 0 (set_need_update true d)).
Proof. intros (Hn & Hc & Hlt). unfold counter_in_step. cbn. lia. Qed.











(** C6, as the code has it.  When [EEVEE_lightprobes_cache_add] accepts
    an object (it does not reject it for capacity) whose update flag has the
    runtime-data bit, or while the world-changed flag is set, it marks the
    object's bake state dirty, resets its cell progress and probe id to
    zero, and resets the scene-wide bounce counter to zero, every time.
    Otherwise it leaves these four alone. *)
Theorem cache_add_tags_object K st ob :
  too_much_probes K st.(probes) (get_object st ob).(data) = false ->
  let r := EEVEE_lightprobes_cache_add K st ob in
  let d0 := (get_object st ob).(ped) in
  let d := (get_object r.1 ob).(ped) in
  (tagged_for_update K st ob = true ->
     d.(need_update) = true /\ d.(updated_cells) = 0 /\ d.(probe_id) = 0
     /\ r.1.(probes).(updated_bounce) = 0)
  /\ (tagged_for_update K st ob = false ->
      d.(need_update) = d0.(need_update)
      /\ d.(updated_cells) = d0.(updated_cells)
      /\ d.(probe_id) = d0.(probe_id)
      /\ r.1.(probes).(updated_bounce) = st.(probes).(updated_bounce)).
Proof.
  intros Hacc r d0 d.
  destruct (cache_add_accepted K st ob Hacc) as (_ & Hped & _ & Hb & _).
  fold r in Hped, Hb. subst d. rewrite Hped, Hb. unfold cache_add_ped. cbv zeta.
  split; intros ->; repeat split.
Qed.

Lemma cache_add_tags_object_witness :
  let r := EEVEE_lightprobes_cache_add sample_constants sample_moving_cube 2 in
  (get_object r.1 2).(ped).(need_update) = true
  /\ (get_object r.1 2).(ped).(updated_cells) = 0
  /\ (get_object r.1 2).(ped).(probe_id) = 0
  /\ r.1.(probes).(updated_bounce) = 0.
Proof.
  destruct (cache_add_tags_object sample_constants sample_moving_cube 2
              ltac:(vm_compute; reflexivity)) as [H _].
  apply H. vm_compute. reflexivity.
Defined.

(** C6 as stated fails.  The atlas of the sample is created in the first
    frame and never resized.  The cube is tagged in the second frame, which
    resets the bounce counter; the scheduler then runs the counter to the
    limit.  When the cube is tagged again in the third frame, with the same
    atlas, the counter is reset once more. *)
Lemma cache_add_resets_bounce_again :
  sample_moving_frame_1.1.(probe_pool) = Some O
  /\ sample_moving_cube.(probe_pool) = Some O
  /\ sample_moving_cube.(next_texture) = sample_moving_frame_1.1.(next_texture)
  /\ (EEVEE_lightprobes_cache_add sample_constants
        (EEVEE_lightprobes_cache_init (Some 0) sample_moving_frame_1.1) 2)
       .1.(probes).(updated_bounce) = 0
  /\ sample_moving_cube.(probes).(updated_bounce) = max_bounce
  /\ tagged_for_update sample_constants sample_moving_cube 2 = true
  /\ (EEVEE_lightprobes_cache_add sample_constants sample_moving_cube 2)
       .1.(probes).(updated_bounce) = 0.
Proof. split_and!; vm_compute; reflexivity. Qed.

(** C7: the code against the claim.  A grid is rejected when the grid
    count has reached the capacity of the cube table, not that of the grid
    table.  With as many grids as the grid table holds, but fewer than the
    cube table holds, one more grid is accepted without a diagnostic: it is
    stored in slot [num_grid], which no walk of the grid table bounded by
    [MAX_GRID] ever visits, and the count goes up by one. *)
Theorem cache_add_grid_over_capacity K st ob :
  (get_object st ob).(data).(type) = LIGHTPROBE_TYPE_GRID ->
  K.(MAX_GRID) <= st.(probes).(num_grid) < K.(MAX_PROBE) ->
  let r := EEVEE_lightprobes_cache_add K st ob in
  r.2 = []
  /\ r.1.(probes).(probes_grid_ref) !! st.(probes).(num_grid) = Some ob
  /\ r.1.(probes).(num_grid) = Int.incr st.(probes).(num_grid)
  /\ (forall j o, In (j, o) (grid_slots K r.1) -> j <> st.(probes).(num_grid)).
Proof.
  intros Hty Hn r.
  assert (Hacc : too_much_probes K st.(probes) (get_object st ob).(data) = false).
  { unfold too_much_probes. rewrite Hty. cbn. apply Z.leb_gt. lia. }
  destruct (cache_add_accepted K st ob Hacc) as (Htr & _ & _ & _ & _ & Hreg).
  fold r in Htr, Hreg. rewrite Hty in Hreg. injection Hreg as _ _ Hg Hng.
  split; [exact Htr|]. split; [by rewrite Hg, lookup_insert_eq|].
  split; [exact Hng|].
  intros j o Hin. apply for_each_ref_bound in Hin as [Hj _]. lia.
Qed.

Lemma cache_add_grid_over_capacity_witness :
  let r := EEVEE_lightprobes_cache_add sample_constants sample_full_grids 1 in
  r.2 = []
  /\ r.1.(probes).(probes_grid_ref) !! 64 = Some 1%positive
  /\ r.1.(probes).(num_grid) = 65.
Proof.
  destruct (cache_add_grid_over_capacity sample_constants sample_full_grids 1
              ltac:(vm_compute; reflexivity)
              ltac:(vm_compute; split; [discriminate|reflexivity]))
    as (H1 & H2 & H3 & _).
  split; [exact H1|]. split; [exact H2|]. exact H3.
Defined.

(** ** Atlas allocation *)

Lemma fold_tag_cube_refresh_notin l st ob :
  ~ In ob (map snd l) ->
  (get_object (fold_left tag_cube_refresh l st) ob).(ped) = (get_object st ob).(ped).
Proof.
  revert st. induction l as [|b l IH]; intros s Hn; simpl; [done|].
  rewrite IH by (simpl in Hn; tauto).
  rewrite tag_cube_refresh_ped, decide_False; [done|]. simpl in Hn. tauto.
Qed.

(** Tagging is idempotent, so a cube listed twice is tagged like a cube
    listed once. *)
Lemma fold_tag_cube_refresh_in l : forall st ob,
  In ob (map snd l) ->
  (get_object (fold_left tag_cube_refresh l st) ob).(ped)
  = cube_refresh_ped (get_object st ob).(ped).
Proof.
  induction l as [|b l IH]; intros st ob Hin; [destruct Hin|].
  simpl fold_left. simpl in Hin.
  destruct (in_dec Pos.eq_dec ob (map snd l)) as [Hl|Hl].
  - rewrite IH by done. rewrite tag_cube_refresh_ped.
    case_decide; [|done]. reflexivity.
  - destruct Hin as [Hb|Hin]; [|done].
    rewrite fold_tag_cube_refresh_notin by done.
    by rewrite tag_cube_refresh_ped, decide_True.
Qed.

Lemma fold_tag_cube_refresh_updated_cells l : forall st ob,
  (get_object (fold_left tag_cube_refresh l st) ob).(ped).(updated_cells)
  = (get_object st ob).(ped).(updated_cells).
Proof.
  induction l as [|b l IH]; intros st ob; simpl; [done|].
  rewrite IH, tag_cube_refresh_ped. by case_decide.
Qed.

(** The reflection atlas is created anew when the number of cubes differs
    from the cached one (or when there is no atlas yet). *)
Lemma probe_pool_ensure_create K st :
  st.(probes).(num_cube) <> st.(probes).(cache_num_cube) \/ st.(probe_pool) = None ->
  let s := probe_pool_ensure K st in
  s.(probe_pool) = Some st.(next_texture)
  /\ s.(update_world) = true
  /\ s.(world_ready_to_shade) = false
  /\ s.(irradiance_pool) = st.(irradiance_pool)
  /\ s.(irradiance_rt) = st.(irradiance_rt)
  /\ s.(probes)
     = set_cache_num_cube st.(probes).(num_cube)
         (set_update_flag (Z.lor st.(probes).(update_flag) K.(PROBE_UPDATE_CUBE))
            (set_num_render_cube 0 st.(probes)))
  /\ (forall ob, In ob (map snd (cube_slots K st)) ->
        (get_object s ob).(ped) = cube_refresh_ped (get_object st ob).(ped))
  /\ (forall ob, ~ In ob (map snd (cube_slots K st)) ->
        (get_object s ob).(ped) = (get_object st ob).(ped))
  /\ (forall ob, (get_object s ob).(ped).(updated_cells)
                 = (get_object st ob).(ped).(updated_cells)).
Proof.
  intros Hc s.
  assert (Hs : s = probe_pool_create K (set_probe_pool None st)).
  { subst s. unfold probe_pool_ensure. cbv zeta.
    destruct (num_cube (probes st) =? cache_num_cube (probes st)) eqn:He; cbn [negb].
    - apply Z.eqb_eq in He. destruct Hc as [Hc|Hc]; [done|].
      rewrite Hc. destruct st; cbn in *. by subst.
    - reflexivity. }
  rewrite Hs. unfold probe_pool_create, texture_create. cbv zeta.
  match goal with
  | |- context [fold_left tag_cube_refresh ?l ?s0] =>
      change l with (cube_slots K st);
      pose proof (fold_tag_cube_refresh_frame (cube_slots K st) s0) as Hfr;
      set (sf := fold_left tag_cube_refresh (cube_slots K st) s0) in *;
      assert (Hget0 : forall ob, get_object s0 ob = get_object st ob) by reflexivity
  end.
  unfold frame_of in Hfr. cbn in Hfr.
  injection Hfr as Hu Hw Hpp Hip Hir _ Hpr.
  split; [by rewrite Hpp|]. split; [done|]. split; [done|].
  split; [done|]. split; [done|]. split; [done|].
  split; [|split].
  - intros ob Hin. subst sf. rewrite fold_tag_cube_refresh_in by done. by rewrite Hget0.
  - intros ob Hin. subst sf. rewrite fold_tag_cube_refresh_notin by done. by rewrite Hget0.
  - intros ob. subst sf. rewrite fold_tag_cube_refresh_updated_cells. by rewrite Hget0.
Qed.

Lemma probe_pool_ensure_keep K st t :
  st.(probes).(num_cube) = st.(probes).(cache_num_cube) ->
  st.(probe_pool) = Some t ->
  probe_pool_ensure K st = st.
Proof.
  intros He Hp. unfold probe_pool_ensure. cbv zeta.
  apply Z.eqb_eq in He. rewrite He. cbn [negb]. by rewrite Hp.
Qed.

Lemma keeps_cubes_refl s : keeps_cubes s s.
Proof. unfold keeps_cubes. repeat split; done. Qed.

Lemma keeps_cubes_trans s1 s2 s3 :
  keeps_cubes s1 s2 -> keeps_cubes s2 s3 -> keeps_cubes s1 s3.
Proof.
  unfold keeps_cubes.
  intros (A1 & A2 & A3 & A4 & A5 & A6) (B1 & B2 & B3 & B4 & B5 & B6).
  split_and!; try congruence.
  intros ob. destruct (A6 ob) as (C1 & C2 & C3), (B6 ob) as (D1 & D2 & D3).
  split_and!; [auto|congruence|congruence].
Qed.

Lemma irradiance_reset_keeps K st : keeps_cubes st (irradiance_reset K st).
Proof.
  unfold irradiance_reset. cbv zeta.
  match goal with
  | |- keeps_cubes _ (fold_left tag_grid_refresh ?l ?s0) =>
      pose proof (fold_tag_grid_refresh_frame l s0) as Hfr;
      pose proof (fun ob => fold_tag_grid_refresh_other_fields l s0 ob) as Hof;
      pose proof (fun ob => fold_tag_grid_refresh_need_update l s0 ob) as Hnu;
      set (sf := fold_left tag_grid_refresh l s0) in *
  end.
  unfold frame_of in Hfr. cbn in Hfr. injection Hfr as Hu Hw Hpp Hip Hir _ Hpr.
  unfold keeps_cubes. rewrite Hpr. split_and!; try done.
  intros ob. destruct (Hof ob) as (H1 & H2 & _). split_and!; [apply Hnu|done|done].
Qed.

Lemma irradiance_pool_ensure_keeps K st : keeps_cubes st (irradiance_pool_ensure K st).
Proof.
  unfold irradiance_pool_ensure. destruct (irradiance_pool st); [apply keeps_cubes_refl|].
  unfold texture_create.
  eapply keeps_cubes_trans; [|apply irradiance_reset_keeps].
  unfold keeps_cubes. repeat split; done.
Qed.

Lemma irradiance_rt_ensure_keeps K st : keeps_cubes st (irradiance_rt_ensure K st).
Proof.
  unfold irradiance_rt_ensure. destruct (irradiance_rt st); [apply keeps_cubes_refl|].
  unfold texture_create.
  eapply keeps_cubes_trans; [|apply irradiance_reset_keeps].
  unfold keeps_cubes. repeat split; done.
Qed.

(** [EEVEE_lightprobes_updates] only writes the grid parameter table. *)
Lemma updates_only_grid_data K st :
  let s := EEVEE_lightprobes_updates K st in
  s.(objects) = st.(objects)
  /\ s.(update_world) = st.(update_world)
  /\ s.(world_ready_to_shade) = st.(world_ready_to_shade)
  /\ s.(probe_pool) = st.(probe_pool)
  /\ set_grid_data ∅ s.(probes) = set_grid_data ∅ st.(probes).
Proof.
  unfold EEVEE_lightprobes_updates.
  generalize (for_each_ref (probes_grid_ref (probes st)) (MAX_GRID K)).
  generalize 1. intros off l. revert st off.
  induction l as [|[i ob] l IH]; intros st off; [done|].
  cbn [fold_left update_grid]. cbv zeta.
  match goal with
  | |- context [fold_left update_grid l (?s1, ?o1)] =>
      destruct (IH s1 o1) as (H1 & H2 & H3 & H4 & H5)
  end.
  cbv zeta in H1, H2, H3, H4, H5. rewrite H1, H2, H3, H4, H5. done.
Qed.

Lemma updates_keeps K st : keeps_cubes st (EEVEE_lightprobes_updates K st).
Proof.
  destruct (updates_only_grid_data K st) as (Ho & Hu & Hw & Hp & Hpr).
  assert (Hget : forall ob, get_object (EEVEE_lightprobes_updates K st) ob = get_object st ob).
  { intros ob. unfold get_object. by rewrite Ho. }
  unfold keeps_cubes. split_and!; try done.
  - by apply (f_equal num_render_cube) in Hpr.
  - by apply (f_equal cache_num_cube) in Hpr.
  - intros ob. by rewrite Hget.
Qed.

Lemma cache_finish_keeps K st :
  keeps_cubes (probe_pool_ensure K st) (EEVEE_lightprobes_cache_finish K st).
Proof.
  unfold EEVEE_lightprobes_cache_finish. cbv zeta.
  eapply keeps_cubes_trans; [apply irradiance_pool_ensure_keeps|].
  eapply keeps_cubes_trans; [apply irradiance_rt_ensure_keeps|].
  apply updates_keeps.
Qed.

(** With both irradiance buffers in place, nothing after the reflection
    atlas touches an object or the bounce counter. *)
Lemma cache_finish_irradiance_kept K st :
  st.(irradiance_pool) <> None -> st.(irradiance_rt) <> None ->
  let s := probe_pool_ensure K st in
  s.(irradiance_pool) = st.(irradiance_pool) ->
  s.(irradiance_rt) = st.(irradiance_rt) ->
  (EEVEE_lightprobes_cache_finish K st).(objects) = s.(objects)
  /\ (EEVEE_lightprobes_cache_finish K st).(probes).(updated_bounce)
     = s.(probes).(updated_bounce).
Proof.
  intros Hp Hr s Hsp Hsr. unfold EEVEE_lightprobes_cache_finish. cbv zeta. fold s.
  assert (H1 : irradiance_pool_ensure K s = s).
  { unfold irradiance_pool_ensure. rewrite Hsp. by destruct (irradiance_pool st). }
  rewrite H1.
  assert (H2 : irradiance_rt_ensure K s = s).
  { unfold irradiance_rt_ensure. rewrite Hsr. by destruct (irradiance_rt st). }
  rewrite H2.
  destruct (updates_only_grid_data K s) as (Ho & _ & _ & _ & Hpr).
  split; [exact Ho|]. by apply (f_equal updated_bounce) in Hpr.
Qed.

(** C5, as the code has it.  When the number of cubes differs from the
    cached one, [EEVEE_lightprobes_cache_finish] recreates the reflection
    atlas and invalidates the cube side of the bake state: the world is
    marked dirty and not ready, the rendered-cube count is zero, the cached
    count is the new count, and every listed cube needs an update with its
    ready flag cleared and its probe id zero.  The grids are not part of
    this: while both irradiance buffers exist, the bounce counter and every
    [updated_cells] counter are as before, and so is all the engine data of
    the objects that are not listed cubes.  When the number of cubes is the
    cached one and the atlas exists, the atlas and the cube side of the bake
    state are left as they are. *)
Theorem cache_finish_invalidates_cubes K st :
  let s := EEVEE_lightprobes_cache_finish K st in
  (st.(probes).(num_cube) <> st.(probes).(cache_num_cube) ->
     s.(probe_pool) = Some st.(next_texture)
     /\ s.(update_world) = true
     /\ s.(world_ready_to_shade) = false
     /\ s.(probes).(num_render_cube) = 0
     /\ s.(probes).(cache_num_cube) = st.(probes).(num_cube)
     /\ (forall slot, In slot (cube_slots K st) ->
           let d := (get_object s slot.2).(ped) in
           d.(need_update) = true /\ d.(ready_to_shade) = false /\ d.(probe_id) = 0)
     /\ (st.(irradiance_pool) <> None -> st.(irradiance_rt) <> None ->
         s.(probes).(updated_bounce) = st.(probes).(updated_bounce)
         /\ (forall ob, (get_object s ob).(ped).(updated_cells)
                        = (get_object st ob).(ped).(updated_cells))
         /\ (forall ob, ~ In ob (map snd (cube_slots K st)) ->
               (get_object s ob).(ped) = (get_object st ob).(ped))))
  /\ (st.(probes).(num_cube) = st.(probes).(cache_num_cube) ->
      forall t, st.(probe_pool) = Some t ->
        s.(probe_pool) = Some t
        /\ s.(update_world) = st.(update_world)
        /\ s.(world_ready_to_shade) = st.(world_ready_to_shade)
        /\ s.(probes).(num_render_cube) = st.(probes).(num_render_cube)
        /\ (st.(irradiance_pool) <> None -> st.(irradiance_rt) <> None ->
            s.(objects) = st.(objects))).
Proof.
  intros s. pose proof (cache_finish_keeps K st) as Hk. fold s in Hk.
  destruct Hk as (K1 & K2 & K3 & K4 & K5 & K6).
  split.
  - intros Hne.
    destruct (probe_pool_ensure_create K st (or_introl Hne))
      as (P1 & P2 & P3 & P4 & P5 & P6 & P7 & P8 & P9).
    cbv zeta in P1, P2, P3, P4, P5, P6, P7, P8, P9.
    rewrite K1, K2, K3, K4, K5, P1, P2, P3, P6.
    split_and!; try reflexivity.
    + intros [i ob] Hin d. subst d. cbn [snd].
      assert (Hin' : In ob (map snd (cube_slots K st))).
      { apply in_map_iff. by exists (i, ob). }
      destruct (K6 ob) as (N1 & N2 & N3). rewrite N2, N3, (P7 ob Hin').
      split; [|done]. apply N1. by rewrite (P7 ob Hin').
    + intros Hp Hr.
      destruct (cache_finish_irradiance_kept K st Hp Hr P4 P5) as [Ho Hb].
      fold s in Ho, Hb.
      assert (Hget : forall ob, get_object s ob = get_object (probe_pool_ensure K st) ob).
      { intros ob. unfold get_object. by rewrite Ho. }
      rewrite Hb, P6. split; [reflexivity|]. split.
      * intros ob. by rewrite Hget, P9.
      * intros ob Hn. by rewrite Hget, P8.
  - intros He t Hp. rewrite (probe_pool_ensure_keep K st t He Hp) in K1, K2, K3, K4.
    rewrite K1, K2, K3, K4. split_and!; try done.
    intros Hip Hir.
    pose proof (cache_finish_irradiance_kept K st Hip Hir) as H.
    cbv zeta in H. rewrite (probe_pool_ensure_keep K st t He Hp) in H.
    by destruct (H eq_refl eq_refl).
Qed.

(** C5 as stated fails.  In the sample a third cube shows up while the
    grid has three of its eight cells done.  The reflection atlas is
    recreated, yet the progress of the grid is not reset: its counter stays
    at three. *)
Lemma cache_finish_keeps_grid_progress :
  sample_cube_added.(probes).(num_cube) = 3
  /\ sample_cube_added.(probes).(cache_num_cube) = 2
  /\ sample_cube_added.(probe_pool) = Some O
  /\ (EEVEE_lightprobes_cache_finish sample_constants sample_cube_added).(probe_pool)
     = Some 3%nat
  /\ grid_slots sample_constants sample_cube_added = [(1, 1%positive)]
  /\ (get_object sample_cube_added 1).(ped).(updated_cells) = 3
  /\ (get_object (EEVEE_lightprobes_cache_finish sample_constants sample_cube_added) 1)
       .(ped).(updated_cells) = 3.
Proof. split_and!; vm_compute; reflexivity. Qed.

(** ** A whole bake

    The scene with one grid of 2 x 2 x 2 cells and no cube probe: the first
    frame bakes the world, the next 24 frames bake the eight cells once per
    bounce, in index order, and the frame after that captures nothing and
    asks for no redraw. *)
Example sample_grid_only_bake :
  let cells := map (fun c => [PosGridCell 1 c
                                (lightprobe_cell_location_get (mkLightGrid 1 (2, 2, 2)) c)])
                 (seqZ 0 8) in
  (sample_grid_only_frames 24).2 = [[]] ++ cells ++ cells ++ cells
  /\ (sample_grid_only_frames 24).1.(probes).(updated_bounce) = 2
  /\ EEVEE_lightprobes_refresh sample_constants ctx_idle
       (EEVEE_lightprobes_cache_finish sample_constants
          (cache_populate sample_constants
             (EEVEE_lightprobes_cache_init (Some 0) (sample_grid_only_frames 24).1)
             [1%positive])) 
     = (with_probes (set_updated_bounce 3)
          (EEVEE_lightprobes_cache_finish sample_constants
             (cache_populate sample_constants
                (EEVEE_lightprobes_cache_init (Some 0) (sample_grid_only_frames 24).1)
                [1%positive])), []).
Proof. split_and!; vm_compute; reflexivity. Qed.

(** * Further properties *)

(** ** [radical_inverse] *)

Lemma UInt_shl_testbit a k n :
  0 <= k ->
  Z.testbit (UInt.shl a k) n
  = if (0 <=? n) && (n <? 32) then Z.testbit a (n - k) else false.
Proof.
  intros Hk. unfold UInt.shl, UInt.wrap. change 4294967296 with (2 ^ 32).
  destruct (Z.leb_spec 0 n) as [Hn|Hn]; cbn [andb].
  - destruct (Z.ltb_spec n 32) as [Hlt|Hge].
    + rewrite Z.mod_pow2_bits_low by lia. apply Z.shiftl_spec. lia.
    + apply Z.mod_pow2_bits_high. lia.
  - apply Z.testbit_neg_r. lia.
Qed.

Lemma UInt_shr_testbit a k n :
  Z.testbit (UInt.shr a k) n = if 0 <=? n then Z.testbit a (n + k) else false.
Proof.
  unfold UInt.shr. destruct (Z.leb_spec 0 n) as [Hn|Hn].
  - apply Z.shiftr_spec. lia.
  - apply Z.testbit_neg_r. lia.
Qed.

Ltac bit_cases n H :=
  let Hc := fresh "Hc" in
  assert (Hc : In n (seqZ 0 32)) by (apply list_elem_of_In, elem_of_seqZ; lia);
  vm_compute in Hc;
  repeat (destruct Hc as [Hc|Hc]; [subst n|]); [..|destruct Hc].

(** A bit above the 32 low ones is clear in a 32-bit value. *)
Lemma testbit_above_32 b n : 0 <= b < 4294967296 -> 32 <= n -> Z.testbit b n = false.
Proof.
  intros Hb Hn. destruct (Z.eq_dec b 0) as [->|Hnz]; [apply Z.testbit_0_l|].
  apply Z.bits_above_log2; [lia|].
  assert (Z.log2 b < 32); [|lia].
  apply Z.log2_lt_pow2; [lia|]. change (2 ^ 32) with 4294967296. lia.
Qed.

Lemma below_pow2_32 a :
  0 <= a -> (forall n, 32 <= n -> Z.testbit a n = false) -> a < 4294967296.
Proof.
  intros Ha Hhigh. change 4294967296 with (2 ^ 32).
  assert (Heq : a mod 2 ^ 32 = a).
  { apply Z.bits_inj'. intros n Hn. destruct (Z_lt_ge_dec n 32) as [Hlt|Hge].
    - apply Z.mod_pow2_bits_low. lia.
    - rewrite Z.mod_pow2_bits_high by lia. symmetry. apply Hhigh. lia. }
  rewrite <- Heq. apply Z.mod_pos_bound. lia.
Qed.

Lemma reverse_bits_range b : 0 <= reverse_bits b < 4294967296.
Proof.
  unfold reverse_bits. cbv zeta.
  match goal with
  | |- 0 <= Z.lor (UInt.shl ?x 8) (UInt.shr (Z.land ?y ?m) 8) < _ =>
      generalize x as u; generalize y as v; intros v u
  end.
  assert (Hnn : 0 <= Z.lor (UInt.shl u 8) (UInt.shr (Z.land v 4278255360) 8)).
  { apply Z.lor_nonneg. split.
    - unfold UInt.shl, UInt.wrap. apply Z.mod_pos_bound. lia.
    - unfold UInt.shr. apply Z.shiftr_nonneg, Z.land_nonneg. right. lia. }
  split; [exact Hnn|]. apply below_pow2_32; [exact Hnn|].
  intros n Hn. rewrite Z.lor_spec, UInt_shl_testbit, UInt_shr_testbit by lia.
  replace (n <? 32) with false by (symmetry; apply Z.ltb_ge; lia).
  rewrite andb_false_r. cbn [orb].
  destruct (0 <=? n); [|done].
  rewrite Z.land_spec, (testbit_above_32 4278255360) by lia. apply andb_false_r.
Qed.

Ltac exchange_tac n Hn :=
  bit_cases n Hn;
    rewrite Z.lor_spec, UInt_shl_testbit, UInt_shr_testbit, !Z.land_spec by lia;
    match goal with
    | |- context [Z.testbit ?x _] =>
        is_var x; generalize (Z.testbit x); intros f; vm_compute;
        repeat match goal with
        | |- context [f ?i] => destruct (f i)
        end; reflexivity
    end.

Lemma exchange_halves b n :
  0 <= b < 4294967296 -> 0 <= n < 32 ->
  Z.testbit (Z.lor (UInt.shl b 16) (UInt.shr b 16)) n = Z.testbit b (Z.lxor n 16).
Proof.
  intros Hb Hn. rewrite Z.lor_spec, UInt_shl_testbit, UInt_shr_testbit by lia.
  replace (0 <=? n) with true by (symmetry; apply Z.leb_le; lia).
  replace (n <? 32) with true by (symmetry; apply Z.ltb_lt; lia). cbn [andb].
  destruct (Z_lt_ge_dec n 16) as [Hlt|Hge].
  - rewrite (Z.testbit_neg_r b (n - 16)) by lia. cbn [orb].
    f_equal. bit_cases n Hn; try lia; reflexivity.
  - rewrite (testbit_above_32 b (n + 16)) by lia. rewrite orb_false_r.
    f_equal. bit_cases n Hn; try lia; reflexivity.
Qed.

Lemma exchange_bits x n :
  0 <= n < 32 ->
  Z.testbit (Z.lor (UInt.shl (Z.land x 0x55555555) 1)
                   (UInt.shr (Z.land x 0xAAAAAAAA) 1)) n
  = Z.testbit x (Z.lxor n 1).
Proof. intros Hn. exchange_tac n Hn. Qed.

Lemma exchange_pairs x n :
  0 <= n < 32 ->
  Z.testbit (Z.lor (UInt.shl (Z.land x 0x33333333) 2)
                   (UInt.shr (Z.land x 0xCCCCCCCC) 2)) n
  = Z.testbit x (Z.lxor n 2).
Proof. intros Hn. exchange_tac n Hn. Qed.

Lemma exchange_nibbles x n :
  0 <= n < 32 ->
  Z.testbit (Z.lor (UInt.shl (Z.land x 0x0F0F0F0F) 4)
                   (UInt.shr (Z.land x 0xF0F0F0F0) 4)) n
  = Z.testbit x (Z.lxor n 4).
Proof. intros Hn. exchange_tac n Hn. Qed.

Lemma exchange_bytes x n :
  0 <= n < 32 ->
  Z.testbit (Z.lor (UInt.shl (Z.land x 0x00FF00FF) 8)
                   (UInt.shr (Z.land x 0xFF00FF00) 8)) n
  = Z.testbit x (Z.lxor n 8).
Proof. intros Hn. exchange_tac n Hn. Qed.

Ltac closed_range := vm_compute; split; [discriminate | reflexivity].

Lemma reverse_bits_bit b n :
  0 <= b < 4294967296 -> 0 <= n < 32 ->
  Z.testbit (reverse_bits b) n = Z.testbit b (31 - n).
Proof.
  intros Hb Hn. unfold reverse_bits. cbv zeta.
  bit_cases n Hn;
    rewrite exchange_bytes by closed_range;
    rewrite exchange_nibbles by closed_range;
    rewrite exchange_pairs by closed_range;
    rewrite exchange_bits by closed_range;
    rewrite exchange_halves by (first [exact Hb | closed_range]);
    reflexivity.
Qed.

Lemma reverse_bits_twice c :
  0 <= c < 4294967296 -> reverse_bits (reverse_bits c) = c.
Proof.
  intros Hc. apply Z.bits_inj'. intros n Hn.
  destruct (Z_lt_ge_dec n 32) as [Hlt|Hge].
  - rewrite reverse_bits_bit by (try apply reverse_bits_range; lia).
    rewrite reverse_bits_bit by lia. f_equal. lia.
  - rewrite !testbit_above_32; try done; try lia. apply reverse_bits_range.
Qed.

(** X1.  The integer part of [radical_inverse] reverses the 32 bits of its
    argument: bit [n] of the reversed word is bit [31 - n] of the word, and
    the reversed word is again a 32-bit value. *)
Theorem reverse_bits_testbit b n :
  0 <= b < 4294967296 -> 0 <= n < 32 ->
  Z.testbit (reverse_bits b) n = Z.testbit b (31 - n)
  /\ 0 <= reverse_bits b < 4294967296.
Proof.
  intros Hb Hn. split; [by apply reverse_bits_bit | apply reverse_bits_range].
Qed.

Lemma reverse_bits_testbit_witness :
  Z.testbit (reverse_bits 1) 31 = Z.testbit 1 (31 - 31)
  /\ 0 <= reverse_bits 1 < 4294967296.
Proof. apply (reverse_bits_testbit 1 31); lia. Defined.

(** X2.  Reversing the bits twice gives the word back, so the reversal is
    one-to-one on the 32-bit words: two different sample indices never get
    the same reversed word. *)
Theorem reverse_bits_involutive b :
  0 <= b < 4294967296 ->
  reverse_bits (reverse_bits b) = b
  /\ (forall b', 0 <= b' < 4294967296 -> reverse_bits b' = reverse_bits b -> b' = b).
Proof.
  intros Hb. split; [by apply reverse_bits_twice|].
  intros b' Hb' Heq.
  rewrite <- (reverse_bits_twice b'), Heq by done. by apply reverse_bits_twice.
Qed.

Lemma reverse_bits_involutive_witness :
  reverse_bits (reverse_bits 6) = 6
  /\ (forall b', 0 <= b' < 4294967296 -> reverse_bits b' = reverse_bits 6 -> b' = 6).
Proof. apply (reverse_bits_involutive 6); lia. Defined.

Lemma radical_inverse_check :
  forallb (fun i =>
    match F32.to_Q (radical_inverse i) with
    | Some q =>
        Qeq_bool q (reverse_bits i # 4294967296)
        && Qeq_bool q (reverse_bits i / 4194304 # 1024)
        && (0 <=? reverse_bits i / 4194304) && (reverse_bits i / 4194304 <? 1024)
    | None => false
    end) (seqZ 0 1024) = true.
Proof. vm_compute. reflexivity. Qed.

(** X3.  For each of the 1024 sample indices that
    [create_hammersley_sample_texture] is called for, [radical_inverse]
    returns a finite float whose value is exactly the reversed word divided
    by [2^32] (neither the conversion to [float] nor the product rounds);
    this value is a multiple of [1/1024] in [[0, 1)], and different indices
    get different values: the 1024 samples are the 1024 multiples of
    [1/1024] below 1, each taken once. *)
Theorem radical_inverse_samples (i : Z) :
  0 <= i < 1024 ->
  exists (q : Q) (j : Z),
    F32.to_Q (radical_inverse i) = Some q
    /\ (q == reverse_bits i # 4294967296)%Q
    /\ (q == j # 1024)%Q
    /\ 0 <= j < 1024
    /\ (forall i', 0 <= i' < 1024 -> radical_inverse i' = radical_inverse i -> i' = i).
Proof.
  intros Hi.
  pose proof radical_inverse_check as Hall. rewrite forallb_forall in Hall.
  assert (Hq : forall k, 0 <= k < 1024 ->
            exists q, F32.to_Q (radical_inverse k) = Some q
                      /\ (q == reverse_bits k # 4294967296)%Q
                      /\ (q == reverse_bits k / 4194304 # 1024)%Q
                      /\ 0 <= reverse_bits k / 4194304 < 1024).
  { intros k Hk. specialize (Hall k). 
    assert (Hin : In k (seqZ 0 1024)).
    { apply list_elem_of_In, elem_of_seqZ. lia. }
    specialize (Hall Hin).
    destruct (F32.to_Q (radical_inverse k)) as [q|]; [|discriminate].
    apply andb_prop in Hall as [Hall H4]. apply andb_prop in Hall as [Hall H3].
    apply andb_prop in Hall as [H1 H2].
    exists q. split; [done|]. split; [by apply Qeq_bool_iff|].
    split; [by apply Qeq_bool_iff|]. lia. }
  destruct (Hq i Hi) as (q & Hv & He & Hm & Hr).
  exists q, (reverse_bits i / 4194304). split_and!; try done; try lia.
  intros i' Hi' Heq.
  destruct (Hq i' Hi') as (q' & Hv' & He' & _ & _).
  rewrite Heq, Hv in Hv'. injection Hv' as <-.
  assert (Hrev : reverse_bits i' = reverse_bits i).
  { rewrite He in He'. unfold Qeq in He'. cbn in He'. lia. }
  rewrite <- (reverse_bits_twice i'), Hrev by lia. apply reverse_bits_twice. lia.
Qed.

Lemma radical_inverse_samples_witness :
  exists (q : Q) (j : Z),
    F32.to_Q (radical_inverse 3) = Some q
    /\ (q == reverse_bits 3 # 4294967296)%Q
    /\ (q == j # 1024)%Q
    /\ 0 <= j < 1024
    /\ (forall i', 0 <= i' < 1024 -> radical_inverse i' = radical_inverse 3 -> i' = 3).
Proof. apply (radical_inverse_samples 3). lia. Defined.

(** ** Cell decoding, the other way round *)

Lemma cell_decode_values resX resY resZ off idx :
  0 < resY -> 0 < resZ -> resY * resZ <= Int.INT_MAX ->
  0 <= idx <= Int.INT_MAX ->
  lightprobe_cell_location_get (mkLightGrid off (resX, resY, resZ)) idx
  = (F32.of_Z (idx / (resZ * resY)), F32.of_Z ((idx / resZ) mod resY),
     F32.of_Z (idx mod resZ)).
Proof.
  intros HY HZ Hyz Hidx.
  unfold lightprobe_cell_location_get, resolution_x, resolution_y, resolution_z.
  cbn [resolution fst snd].
  assert (Hmul : Int.mul resZ resY = resZ * resY).
  { apply Int_wrap_small. unfold Int.in_range, Int.INT_MIN. unfold Int.INT_MAX in *. nia. }
  rewrite Hmul.
  assert (0 <= idx / resZ <= idx).
  { split; [apply Z.div_pos; lia|]. apply Z.div_le_upper_bound; nia. }
  rewrite !Int_div_nonneg by (try split; nia).
  rewrite !Int_rem_nonneg by lia.
  reflexivity.
Qed.

(** X4.  For every index [idx >= 0] of a grid with positive resolution whose
    cell count fits a C [int], the triple that
    [lightprobe_cell_location_get] computes is the conversion to [float] of
    integer coordinates [(x, y, z)] with [0 <= y < resY], [0 <= z < resZ]
    and [0 <= x] whose flattened index is [idx] again; [x] is below [resX]
    exactly when the index is below the cell count, so an index at or past
    the cell count decodes to a cell past the last layer along x.  For an
    index of at most [2^24] the three floats are exactly these
    coordinates. *)
Theorem cell_decode_in_grid (resX resY resZ off idx : Z) :
  0 < resX -> 0 < resY -> 0 < resZ ->
  resX * resY * resZ <= Int.INT_MAX ->
  0 <= idx <= Int.INT_MAX ->
  let c := lightprobe_cell_location_get (mkLightGrid off (resX, resY, resZ)) idx in
  exists x y z,
    c = (F32.of_Z x, F32.of_Z y, F32.of_Z z)
    /\ flat_cell_index (resX, resY, resZ) x y z = idx
    /\ 0 <= y < resY /\ 0 <= z < resZ /\ 0 <= x
    /\ (x < resX <-> idx < resX * resY * resZ)
    /\ (idx <= 16777216 ->
        F32_exact c.1.1 x /\ F32_exact c.1.2 y /\ F32_exact c.2 z).
Proof.
  intros HX HY HZ Hn Hidx c. subst c.
  rewrite cell_decode_values by (try lia; nia).
  exists (idx / (resZ * resY)), ((idx / resZ) mod resY), (idx mod resZ).
  split; [reflexivity|].
  cbn [fst snd]. unfold flat_cell_index. cbn [fst snd].
  pose proof (Z.mod_pos_bound idx resZ HZ).
  pose proof (Z.mod_pos_bound (idx / resZ) resY HY).
  pose proof (Z.div_mod idx resZ ltac:(lia)) as E1.
  pose proof (Z.div_mod (idx / resZ) resY ltac:(lia)) as E2.
  assert (E3 : idx / (resZ * resY) = idx / resZ / resY)
    by (symmetry; apply Z.div_div; lia).
  rewrite E3.
  assert (0 <= idx / resZ) by (apply Z.div_pos; lia).
  assert (0 <= idx / resZ / resY) by (apply Z.div_pos; lia).
  set (q := idx / resZ) in *. set (x := q / resY) in *.
  split_and!; try lia; try nia.
  - split; intros Hlt.
    + assert (q <= resY * resX - 1) by nia.
      assert (idx <= resZ * (resY * resX - 1) + (resZ - 1)) by nia. nia.
    + destruct (Z_lt_ge_dec x resX) as [|Hge]; [done|exfalso].
      assert (resY * resX <= q) by nia.
      assert (resZ * (resY * resX) <= idx) by nia. nia.
  - intros Hsmall.
    assert (q <= idx) by nia. assert (x <= q) by nia.
    split_and!; apply F32_of_Z_exact; lia.
Qed.

Lemma cell_decode_in_grid_witness :
  let c := lightprobe_cell_location_get (mkLightGrid 1 (2, 3, 4)) 23 in
  exists x y z,
    c = (F32.of_Z x, F32.of_Z y, F32.of_Z z)
    /\ flat_cell_index (2, 3, 4) x y z = 23
    /\ 0 <= y < 3 /\ 0 <= z < 4 /\ 0 <= x
    /\ (x < 2 <-> 23 < 2 * 3 * 4)
    /\ (23 <= 16777216 ->
        F32_exact c.1.1 x /\ F32_exact c.1.2 y /\ F32_exact c.2 z).
Proof. apply (cell_decode_in_grid 2 3 4 1 23); unfold Int.INT_MAX; lia. Defined.

(** ** The footprint of a cell in the irradiance atlas *)

Lemma irradiance_cell_size_cases K :
  irradiance_cell_size K = (3, 3) \/ irradiance_cell_size K = (8, 8)
  \/ irradiance_cell_size K = (3, 2).
Proof. unfold irradiance_cell_size. destruct (IRRADIANCE K); auto. Qed.

Lemma diffuse_filter_probe_viewport K st offset :
  0 <= offset <= Int.INT_MAX ->
  let size := irradiance_cell_size K in
  let cell_per_row := IRRADIANCE_POOL_SIZE / size.1 in
  diffuse_filter_probe K st offset
  = EvDiffusePass st.(irradiance_rt) offset
      (size.1 * (offset mod cell_per_row), size.2 * (offset / cell_per_row),
       size.1, size.2).
Proof.
  intros Ho size cpr. unfold diffuse_filter_probe. fold size.
  assert (Hcpr : Int.div IRRADIANCE_POOL_SIZE size.1 = cpr /\ 128 <= cpr <= 341
                 /\ 2 <= size.1 <= 8 /\ 2 <= size.2 <= 8).
  { subst cpr size.
    destruct (irradiance_cell_size_cases K) as [->|[->| ->]]; vm_compute;
      split_and!; try reflexivity; discriminate. }
  destruct Hcpr as (-> & Hc & Hw & Hh).
  rewrite Int_rem_nonneg, Int_div_nonneg by lia.
  pose proof (Z.mod_pos_bound offset cpr ltac:(lia)).
  assert (0 <= offset / cpr <= offset / 128).
  { split; [apply Z.div_pos; lia|].
    apply Z.div_le_lower_bound; [lia|].
    pose proof (Z.mul_div_le offset cpr ltac:(lia)).
    assert (0 <= offset / cpr) by (apply Z.div_pos; lia). nia. }
  assert (offset / 128 < 16777216).
  { apply Z.div_lt_upper_bound; unfold Int.INT_MAX in *; lia. }
  assert (0 <= size.1 * (offset mod cpr) <= 8 * 341).
  { split; [nia|]. apply Z.mul_le_mono_nonneg; lia. }
  assert (0 <= size.2 * (offset / cpr) <= 8 * 16777215).
  { split; [nia|]. apply Z.mul_le_mono_nonneg; lia. }
  unfold Int.mul. rewrite !Int_wrap_small; [done|..];
    unfold Int.in_range, Int.INT_MIN, Int.INT_MAX; lia.
Qed.

(** X5.  [diffuse_filter_probe] draws into a rectangle of the cell size
    that starts inside the 1024 x 1024 atlas and never crosses its right
    edge; it stays above the bottom edge exactly while the cell offset is
    below the capacity of the atlas, (1024 / width) * (1024 / height) cells
    (nothing in the function checks this).  The rectangles of two different
    offsets do not overlap. *)
Theorem diffuse_viewport_in_atlas K st (offset : Z) :
  0 <= offset <= Int.INT_MAX ->
  let size := irradiance_cell_size K in
  exists x y,
    diffuse_filter_probe K st offset
    = EvDiffusePass st.(irradiance_rt) offset (x, y, size.1, size.2)
    /\ 0 <= x /\ x + size.1 <= IRRADIANCE_POOL_SIZE
    /\ 0 <= y
    /\ (y + size.2 <= IRRADIANCE_POOL_SIZE
        <-> offset < (IRRADIANCE_POOL_SIZE / size.1) * (IRRADIANCE_POOL_SIZE / size.2))
    /\ (forall offset' x' y',
          0 <= offset' <= Int.INT_MAX -> offset' <> offset ->
          diffuse_filter_probe K st offset'
          = EvDiffusePass st.(irradiance_rt) offset' (x', y', size.1, size.2) ->
          x' + size.1 <= x \/ x + size.1 <= x'
          \/ y' + size.2 <= y \/ y + size.2 <= y').
Proof.
  intros Ho size.
  pose proof (diffuse_filter_probe_viewport K st offset Ho) as Hv.
  cbv zeta in Hv. fold size in Hv.
  set (cpr := IRRADIANCE_POOL_SIZE / size.1) in *.
  exists (size.1 * (offset mod cpr)), (size.2 * (offset / cpr)).
  split; [exact Hv|].
  assert (Hs : (size.1 = 3 /\ size.2 = 3 /\ cpr = 341)
               \/ (size.1 = 8 /\ size.2 = 8 /\ cpr = 128)
               \/ (size.1 = 3 /\ size.2 = 2 /\ cpr = 341)).
  { subst cpr size.
    destruct (irradiance_cell_size_cases K) as [->|[->| ->]]; vm_compute; auto. }
  assert (Hcpr : 0 < cpr) by lia.
  pose proof (Z.mod_pos_bound offset cpr Hcpr) as Hm.
  pose proof (Z.div_mod offset cpr ltac:(lia)) as Hd.
  assert (Hq : 0 <= offset / cpr) by (apply Z.div_pos; lia).
  split_and!.
  - nia.
  - change IRRADIANCE_POOL_SIZE with 1024.
    destruct Hs as [(-> & _ & Hc)|[(-> & _ & Hc)|(-> & _ & Hc)]]; lia.
  - nia.
  - fold cpr. clearbody cpr. change IRRADIANCE_POOL_SIZE with 1024.
    destruct Hs as [(Hw & -> & ->)|[(Hw & -> & ->)|(Hw & -> & ->)]].
    + change (1024 / 3) with 341. lia.
    + change (1024 / 8) with 128. lia.
    + change (1024 / 2) with 512. lia.
  - intros offset' x' y' Ho' Hne Hv'.
    rewrite diffuse_filter_probe_viewport in Hv' by done.
    cbv zeta in Hv'. fold size in Hv'. fold cpr in Hv'.
    injection Hv' as <- <-.
    pose proof (Z.mod_pos_bound offset' cpr Hcpr) as Hm'.
    pose proof (Z.div_mod offset' cpr ltac:(lia)) as Hd'.
    assert (0 < size.1 /\ 0 < size.2) as [Hw Hh] by lia.
    destruct (Z.lt_trichotomy (offset' mod cpr) (offset mod cpr)) as [Hlt|[Heq|Hgt]].
    + left. nia.
    + destruct (Z.lt_trichotomy (offset' / cpr) (offset / cpr)) as [Hlt|[Heq'|Hgt]].
      * right; right; left. nia.
      * exfalso. apply Hne. rewrite Hd, Hd'. congruence.
      * right; right; right. nia.
    + right; left. nia.
Qed.

Lemma diffuse_viewport_in_atlas_witness :
  let size := irradiance_cell_size sample_constants in
  exists x y,
    diffuse_filter_probe sample_constants sample_first_frame 342
    = EvDiffusePass sample_first_frame.(irradiance_rt) 342 (x, y, size.1, size.2)
    /\ 0 <= x /\ x + size.1 <= IRRADIANCE_POOL_SIZE
    /\ 0 <= y
    /\ (y + size.2 <= IRRADIANCE_POOL_SIZE
        <-> 342 < (IRRADIANCE_POOL_SIZE / size.1) * (IRRADIANCE_POOL_SIZE / size.2))
    /\ (forall offset' x' y',
          0 <= offset' <= Int.INT_MAX -> offset' <> 342 ->
          diffuse_filter_probe sample_constants sample_first_frame offset'
          = EvDiffusePass sample_first_frame.(irradiance_rt) offset' (x', y', size.1, size.2) ->
          x' + size.1 <= x \/ x + size.1 <= x'
          \/ y' + size.2 <= y \/ y + size.2 <= y').
Proof.
  apply (diffuse_viewport_in_atlas sample_constants sample_first_frame 342).
  unfold Int.INT_MAX. lia.
Defined.

(** ** The geometry of the glossy filter draws *)

(** X6.  Whatever the layer, [glossy_filter_probe] makes seven draws, all
    into that layer.  The viewport side halves from 1024 down to 16, so the
    lower clamp of the mip size to 1 never applies; the texel size and the
    inverse sample count are the exact reciprocals of the viewport side and
    of the sample count.  The padding is 2^(6-i) with the corrections of
    the source: at level 0 both the [+5] and the [+4] apply (64 becomes
    73), then 36, 18, 9, 4, 2, 1.  Every draw has [lodmax] 7. *)
Theorem glossy_pass_geometry (probe_idx : Z) :
  let passes := glossy_filter_passes probe_idx in
  map gp_layer passes = repeat probe_idx 7
  /\ map gp_mipsize passes = map F32.of_Z [1024; 512; 256; 128; 64; 32; 16]
  /\ map gp_padding_size passes = map F32.of_Z [73; 36; 18; 9; 4; 2; 1]
  /\ map gp_lodmax passes = repeat (F32.of_Z 7) 7
  /\ Forall (fun p =>
       exists t m n s : Q,
         F32.to_Q (gp_texel_size p) = Some t /\ F32.to_Q (gp_mipsize p) = Some m
         /\ F32.to_Q (gp_invsamples_ct p) = Some n
         /\ F32.to_Q (gp_samples_ct p) = Some s
         /\ (t * m == 1)%Q /\ (n * s == 1)%Q) passes.
Proof.
  intros passes. subst passes. split_and!; try (vm_compute; reflexivity).
  assert (Hb : forallb (fun p =>
             match F32.to_Q (gp_texel_size p), F32.to_Q (gp_mipsize p),
                   F32.to_Q (gp_invsamples_ct p), F32.to_Q (gp_samples_ct p) with
             | Some t, Some m, Some n, Some s =>
                 Qeq_bool (t * m) 1 && Qeq_bool (n * s) 1
             | _, _, _, _ => false
             end) (glossy_filter_passes probe_idx) = true)
    by (vm_compute; reflexivity).
  rewrite forallb_forall in Hb. apply List.Forall_forall. intros p Hp.
  specialize (Hb p Hp).
  destruct (F32.to_Q (gp_texel_size p)) as [t|]; [|discriminate].
  destruct (F32.to_Q (gp_mipsize p)) as [m|]; [|discriminate].
  destruct (F32.to_Q (gp_invsamples_ct p)) as [n|]; [|discriminate].
  destruct (F32.to_Q (gp_samples_ct p)) as [s|]; [|discriminate].
  apply andb_prop in Hb as [H1 H2].
  exists t, m, n, s. split_and!; try done; by apply Qeq_bool_iff.
Qed.

(** ** The tables a scan of the scene builds *)

Lemma tag_object_update_data st ob ob' :
  (get_object (tag_object_update ob st) ob').(data) = (get_object st ob').(data).
Proof.
  unfold tag_object_update. cbv zeta.
  by rewrite get_object_with_probes, !get_object_data_with_ped.
Qed.

Lemma cache_add_data K st ob ob' :
  (get_object (EEVEE_lightprobes_cache_add K st ob).1 ob').(data)
  = (get_object st ob').(data).
Proof.
  unfold EEVEE_lightprobes_cache_add. cbv zeta.
  destruct (too_much_probes _ _ _); [done|].
  repeat match goal with
  | |- context [if ?b then _ else _] => destruct b
  end; cbn [fst];
  rewrite ?get_object_with_probes, ?tag_object_update_data, ?get_object_data_with_ped;
  reflexivity.
Qed.

Lemma is_cube_grid st ob : is_grid st ob = negb (is_cube st ob).
Proof. unfold is_grid, is_cube. by destruct (type _). Qed.

Lemma table_holds_empty : table_holds ∅ [].
Proof. intros j. rewrite lookup_empty. by case_bool_decide. Qed.

Lemma table_holds_insert refs l ob :
  table_holds refs l ->
  table_holds (<[1 + Z.of_nat (length l) := ob]> refs) (l ++ [ob]).
Proof.
  intros H j. destruct (decide (j = 1 + Z.of_nat (length l))) as [->|Hne].
  - rewrite lookup_insert_eq. rewrite bool_decide_eq_true_2 by lia.
    replace (Z.to_nat (1 + Z.of_nat (length l) - 1)) with (length l) by lia.
    by rewrite lookup_app_r, Nat.sub_diag by lia.
  - rewrite lookup_insert_ne by done. rewrite H.
    case_bool_decide; [|done].
    destruct (decide (Z.to_nat (j - 1) < length l)%nat).
    + by rewrite lookup_app_l.
    + rewrite !lookup_ge_None_2; [done|..]; rewrite ?length_app; cbn; lia.
Qed.

Lemma walk_refs_table refs n : forall i l,
  (forall k : nat, refs !! (i + Z.of_nat k) = l !! k) ->
  walk_refs refs n i = zip (seqZ i (Z.of_nat (length (take n l)))) (take n l).
Proof.
  induction n as [|n IH]; intros i l H; [done|].
  cbn [walk_refs]. specialize (H O) as H0. rewrite Z.add_0_r in H0. rewrite H0.
  destruct l as [|x l]; [done|]. cbn [lookup list_lookup take length].
  rewrite Nat2Z.inj_succ, seqZ_cons by lia. cbn [zip zip_with]. f_equal.
  replace (Z.pred (Z.succ (Z.of_nat (length (take n l)))))
    with (Z.of_nat (length (take n l))) by lia.
  replace (Z.succ i) with (i + 1) by lia.
  apply IH. intros k. specialize (H (S k)).
  change ((x :: l) !! S k) with (l !! k) in H.
  rewrite <- H. f_equal. lia.
Qed.

Lemma for_each_ref_table refs max l :
  table_holds refs l ->
  let visited := take (Z.to_nat (max - 1)) l in
  for_each_ref refs max = zip (seqZ 1 (Z.of_nat (length visited))) visited.
Proof.
  intros H visited. unfold for_each_ref. apply walk_refs_table.
  intros k. rewrite H, bool_decide_eq_true_2 by lia. f_equal. lia.
Qed.

(** The registry after a scan, in terms of the two lists of stored
    objects. *)
Lemma cache_populate_state K s0 obs : forall st cubes grids,
  K.(MAX_PROBE) <= Int.INT_MAX ->
  (forall ob, (get_object st ob).(data) = (get_object s0 ob).(data)) ->
  let N := Z.to_nat (K.(MAX_PROBE) - 1) in
  (length cubes <= N)%nat -> (length grids <= N)%nat ->
  st.(probes).(num_cube) = 1 + Z.of_nat (length cubes) ->
  st.(probes).(num_grid) = 1 + Z.of_nat (length grids) ->
  table_holds st.(probes).(probes_cube_ref) cubes ->
  table_holds st.(probes).(probes_grid_ref) grids ->
  let s := cache_populate K st obs in
  let cubes' := take N (cubes ++ List.filter (is_cube s0) obs) in
  let grids' := take N (grids ++ List.filter (is_grid s0) obs) in
  s.(probes).(num_cube) = 1 + Z.of_nat (length cubes')
  /\ s.(probes).(num_grid) = 1 + Z.of_nat (length grids')
  /\ table_holds s.(probes).(probes_cube_ref) cubes'
  /\ table_holds s.(probes).(probes_grid_ref) grids'.
Proof.
  induction obs as [|ob obs IH]; intros st cubes grids HK Hdata N Hlc Hlg Hnc Hng Hc Hg.
  - cbn. rewrite !app_nil_r, !take_ge by done. done.
  - cbn [cache_populate fold_left List.filter].
    change (fold_left _ obs ?s) with (cache_populate K s obs).
    assert (Hdata' : forall ob', (get_object (EEVEE_lightprobes_cache_add K st ob).1 ob').(data)
                                 = (get_object s0 ob').(data)).
    { intros ob'. by rewrite cache_add_data. }
    assert (Hkind : is_cube s0 ob = is_cube st ob).
    { unfold is_cube. by rewrite Hdata. }
    rewrite is_cube_grid. rewrite Hkind.
    destruct (too_much_probes K st.(probes) (get_object st ob).(data)) eqn:Hcap.
    + rewrite cache_add_rejected by done. cbn [fst].
      unfold too_much_probes in Hcap. fold (is_cube st ob) (is_grid st ob) in Hcap.
      rewrite is_cube_grid in Hcap.
      destruct (is_cube st ob) eqn:Hty; cbn [negb andb orb] in Hcap |- *.
      * rewrite orb_false_r in Hcap. apply Z.leb_le in Hcap.
        specialize (IH st cubes grids HK Hdata Hlc Hlg Hnc Hng Hc Hg).
        cbv zeta in IH. fold N in IH.
        replace (take N (cubes ++ ob :: List.filter (is_cube s0) obs))
          with (take N (cubes ++ List.filter (is_cube s0) obs)); [exact IH|].
        rewrite !take_app_le by lia. done.
      * apply Z.leb_le in Hcap.
        specialize (IH st cubes grids HK Hdata Hlc Hlg Hnc Hng Hc Hg).
        cbv zeta in IH. fold N in IH.
        replace (take N (grids ++ ob :: List.filter (is_grid s0) obs))
          with (take N (grids ++ List.filter (is_grid s0) obs));
          [exact IH|].
        rewrite !take_app_le by lia. done.
    + pose proof (cache_add_accepted K st ob Hcap) as Hadd. cbv zeta in Hadd.
      destruct Hadd as (_ & _ & _ & _ & _ & Htab).
      unfold too_much_probes in Hcap. fold (is_cube st ob) (is_grid st ob) in Hcap.
      rewrite is_cube_grid in Hcap.
      assert (Hty : (get_object st ob).(data).(type)
                    = if is_cube st ob then LIGHTPROBE_TYPE_CUBE else LIGHTPROBE_TYPE_GRID).
      { unfold is_cube. by destruct (type _). }
      rewrite Hty in Htab.
      destruct (is_cube st ob); cbn [negb andb orb] in Hcap |- *.
      * rewrite orb_false_r in Hcap. apply Z.leb_gt in Hcap.
        injection Htab as Hr Hn Hr' Hn'.
        rewrite Hnc in Hr, Hn.
        rewrite Int_incr_small in Hn by (unfold Int.INT_MIN; lia).
        specialize (IH (EEVEE_lightprobes_cache_add K st ob).1 (cubes ++ [ob]) grids
                      HK Hdata').
        cbv zeta in IH. fold N in IH.
        rewrite <- app_assoc in IH. apply IH.
        -- rewrite length_app. cbn. lia.
        -- done.
        -- rewrite Hn, length_app. cbn. lia.
        -- by rewrite Hn'.
        -- rewrite Hr. by apply table_holds_insert.
        -- by rewrite Hr'.
      * apply Z.leb_gt in Hcap.
        injection Htab as Hr Hn Hr' Hn'.
        rewrite Hng in Hr', Hn'.
        rewrite Int_incr_small in Hn' by (unfold Int.INT_MIN; lia).
        specialize (IH (EEVEE_lightprobes_cache_add K st ob).1 cubes (grids ++ [ob])
                      HK Hdata').
        cbv zeta in IH. fold N in IH.
        rewrite <- app_assoc in IH. apply IH.
        -- done.
        -- rewrite length_app. cbn. lia.
        -- by rewrite Hn.
        -- rewrite Hn', length_app. cbn. lia.
        -- by rewrite Hr.
        -- rewrite Hr'. by apply table_holds_insert.
Qed.

Lemma cache_init_object wo st ob :
  get_object (EEVEE_lightprobes_cache_init wo st) ob = get_object st ob.
Proof. unfold EEVEE_lightprobes_cache_init. cbv zeta. by destruct wo. Qed.

Lemma cache_init_probes wo st :
  (EEVEE_lightprobes_cache_init wo st).(probes)
  = set_probes_grid_ref ∅
      (set_probes_cube_ref ∅ (set_num_grid 1 (set_num_cube 1 st.(probes)))).
Proof. unfold EEVEE_lightprobes_cache_init. cbv zeta. by destruct wo. Qed.

Lemma cache_populate_from_init K wo st obs :
  K.(MAX_PROBE) <= Int.INT_MAX ->
  let s := cache_populate K (EEVEE_lightprobes_cache_init wo st) obs in
  s.(probes).(num_cube) = 1 + Z.of_nat (length (stored K (is_cube st) obs))
  /\ s.(probes).(num_grid) = 1 + Z.of_nat (length (stored K (is_grid st) obs))
  /\ table_holds s.(probes).(probes_cube_ref) (stored K (is_cube st) obs)
  /\ table_holds s.(probes).(probes_grid_ref) (stored K (is_grid st) obs).
Proof.
  intros HK s. subst s.
  pose proof (cache_populate_state K st obs (EEVEE_lightprobes_cache_init wo st)
                [] [] HK) as H.
  cbv zeta in H. cbn [app length] in H. unfold stored.
  apply H; try (cbn; lia).
  - intros ob. by rewrite cache_init_object.
  - by rewrite cache_init_probes.
  - by rewrite cache_init_probes.
  - rewrite cache_init_probes. apply table_holds_empty.
  - rewrite cache_init_probes. apply table_holds_empty.
Qed.

(** X7.  After [EEVEE_lightprobes_cache_init] and one call of
    [EEVEE_lightprobes_cache_add] per object of a scan, each reference
    table holds, in slots 1, 2, ... and in the order of the scan, the first
    [MAX_PROBE - 1] objects of its kind; every other slot, slot 0
    included, is empty, and the count is the number of stored objects plus
    one (for the world).  Objects past the capacity leave no trace in the
    tables.  ([MAX_PROBE] fits a C [int].) *)
Theorem cache_populate_tables K wo st (obs : list positive) :
  K.(MAX_PROBE) <= Int.INT_MAX ->
  let s := cache_populate K (EEVEE_lightprobes_cache_init wo st) obs in
  let cubes := stored K (is_cube st) obs in
  let grids := stored K (is_grid st) obs in
  (forall j, s.(probes).(probes_cube_ref) !! j
             = if bool_decide (1 <= j) then cubes !! Z.to_nat (j - 1) else None)
  /\ (forall j, s.(probes).(probes_grid_ref) !! j
                = if bool_decide (1 <= j) then grids !! Z.to_nat (j - 1) else None)
  /\ s.(probes).(num_cube) = 1 + Z.of_nat (length cubes)
  /\ s.(probes).(num_grid) = 1 + Z.of_nat (length grids)
  /\ 1 <= s.(probes).(num_cube) <= Z.max 1 K.(MAX_PROBE)
  /\ 1 <= s.(probes).(num_grid) <= Z.max 1 K.(MAX_PROBE)
  /\ s.(probes).(probes_cube_ref) !! s.(probes).(num_cube) = None
  /\ s.(probes).(probes_grid_ref) !! s.(probes).(num_grid) = None.
Proof.
  intros HK s cubes grids.
  destruct (cache_populate_from_init K wo st obs HK) as (Hnc & Hng & Hc & Hg).
  fold s cubes grids in Hnc, Hng, Hc, Hg.
  assert (Hlc : (length cubes <= Z.to_nat (K.(MAX_PROBE) - 1))%nat).
  { subst cubes. unfold stored. rewrite length_take. lia. }
  assert (Hlg : (length grids <= Z.to_nat (K.(MAX_PROBE) - 1))%nat).
  { subst grids. unfold stored. rewrite length_take. lia. }
  split_and!; try done; try lia.
  - rewrite Hc, Hnc, bool_decide_eq_true_2 by lia. apply lookup_ge_None_2. lia.
  - rewrite Hg, Hng, bool_decide_eq_true_2 by lia. apply lookup_ge_None_2. lia.
Qed.

Lemma cache_populate_tables_witness :
  let K := sample_constants in
  let st := EEVEE_lightprobes_init sample_scene in
  let obs := [1%positive; 2%positive; 3%positive] in
  let s := cache_populate K (EEVEE_lightprobes_cache_init (Some 0) st) obs in
  let cubes := stored K (is_cube st) obs in
  let grids := stored K (is_grid st) obs in
  (forall j, s.(probes).(probes_cube_ref) !! j
             = if bool_decide (1 <= j) then cubes !! Z.to_nat (j - 1) else None)
  /\ (forall j, s.(probes).(probes_grid_ref) !! j
                = if bool_decide (1 <= j) then grids !! Z.to_nat (j - 1) else None)
  /\ s.(probes).(num_cube) = 1 + Z.of_nat (length cubes)
  /\ s.(probes).(num_grid) = 1 + Z.of_nat (length grids)
  /\ 1 <= s.(probes).(num_cube) <= Z.max 1 K.(MAX_PROBE)
  /\ 1 <= s.(probes).(num_grid) <= Z.max 1 K.(MAX_PROBE)
  /\ s.(probes).(probes_cube_ref) !! s.(probes).(num_cube) = None
  /\ s.(probes).(probes_grid_ref) !! s.(probes).(num_grid) = None.
Proof.
  apply (cache_populate_tables sample_constants (Some 0)
           (EEVEE_lightprobes_init sample_scene) [1%positive; 2%positive; 3%positive]).
  vm_compute. discriminate.
Defined.

(** X8.  After such a scan the cube walk (bounded by [MAX_PROBE]) visits
    every stored cube, slot [k] holding the [k]-th cube of the scan.  The
    grid walk of [EEVEE_lightprobes_updates] and of the scheduler (bounded
    by [MAX_GRID]) visits the first [MAX_GRID - 1] stored grids only: the
    stored grids past that are never visited, while the walk that retags
    the grids in [EEVEE_lightprobes_cache_finish] (bounded by [MAX_PROBE])
    visits them all. *)
Theorem cache_populate_walks K wo st (obs : list positive) :
  K.(MAX_PROBE) <= Int.INT_MAX ->
  let s := cache_populate K (EEVEE_lightprobes_cache_init wo st) obs in
  let cubes := stored K (is_cube st) obs in
  let grids := stored K (is_grid st) obs in
  let walked := take (Z.to_nat (K.(MAX_GRID) - 1)) grids in
  cube_slots K s = zip (seqZ 1 (Z.of_nat (length cubes))) cubes
  /\ grid_slots K s = zip (seqZ 1 (Z.of_nat (length walked))) walked
  /\ for_each_ref s.(probes).(probes_grid_ref) K.(MAX_PROBE)
     = zip (seqZ 1 (Z.of_nat (length grids))) grids
  /\ (K.(MAX_PROBE) <= K.(MAX_GRID) -> walked = grids).
Proof.
  intros HK s cubes grids walked.
  destruct (cache_populate_from_init K wo st obs HK) as (Hnc & Hng & Hc & Hg).
  fold s cubes grids in Hnc, Hng, Hc, Hg.
  assert (Hlc : (length cubes <= Z.to_nat (K.(MAX_PROBE) - 1))%nat).
  { subst cubes. unfold stored. rewrite length_take. lia. }
  assert (Hlg : (length grids <= Z.to_nat (K.(MAX_PROBE) - 1))%nat).
  { subst grids. unfold stored. rewrite length_take. lia. }
  split_and!.
  - unfold cube_slots. rewrite (for_each_ref_table _ _ cubes) by done.
    cbv zeta. by rewrite take_ge.
  - unfold grid_slots. by rewrite (for_each_ref_table _ _ grids).
  - rewrite (for_each_ref_table _ _ grids) by done. cbv zeta. by rewrite take_ge.
  - intros Hle. subst walked. apply take_ge. lia.
Qed.

Lemma cache_populate_walks_witness :
  let K := sample_constants in
  let st := EEVEE_lightprobes_init sample_scene in
  let obs := [1%positive; 2%positive; 3%positive] in
  let s := cache_populate K (EEVEE_lightprobes_cache_init (Some 0) st) obs in
  let cubes := stored K (is_cube st) obs in
  let grids := stored K (is_grid st) obs in
  let walked := take (Z.to_nat (K.(MAX_GRID) - 1)) grids in
  cube_slots K s = zip (seqZ 1 (Z.of_nat (length cubes))) cubes
  /\ grid_slots K s = zip (seqZ 1 (Z.of_nat (length walked))) walked
  /\ for_each_ref s.(probes).(probes_grid_ref) K.(MAX_PROBE)
     = zip (seqZ 1 (Z.of_nat (length grids))) grids
  /\ (K.(MAX_PROBE) <= K.(MAX_GRID) -> walked = grids).
Proof.
  apply (cache_populate_walks sample_constants (Some 0)
           (EEVEE_lightprobes_init sample_scene) [1%positive; 2%positive; 3%positive]).
  vm_compute. discriminate.
Defined.

(** ** Atlas offsets of the grids *)

Lemma Int_wrap_add_l a b : Int.wrap (Int.wrap a + b) = Int.wrap (a + b).
Proof.
  unfold Int.wrap. f_equal.
  replace ((a + 2147483648) mod 4294967296 - 2147483648 + b + 2147483648)
    with ((a + 2147483648) mod 4294967296 + b) by lia.
  rewrite Zplus_mod_idemp_l. f_equal. lia.
Qed.

Lemma walk_refs_fst refs n : forall i,
  map fst (walk_refs refs n i) = seqZ i (Z.of_nat (length (walk_refs refs n i))).
Proof.
  induction n as [|n IH]; intros i; [done|].
  cbn [walk_refs]. destruct (refs !! i); [|done].
  cbn [map length fst]. rewrite Nat2Z.inj_succ, seqZ_cons by lia.
  f_equal. rewrite IH. f_equal; lia.
Qed.

Lemma for_each_ref_NoDup refs max : NoDup (map fst (for_each_ref refs max)).
Proof. unfold for_each_ref. rewrite walk_refs_fst. apply NoDup_seqZ. Qed.

Lemma cells_of_objects st st' slots :
  st'.(objects) = st.(objects) -> cells_of st' slots = cells_of st slots.
Proof.
  intros H. unfold cells_of, get_object. by rewrite H.
Qed.

Lemma fold_update_grid slots : forall st off,
  NoDup (map fst slots) ->
  Int.in_range off ->
  let r := fold_left update_grid slots (st, off) in
  r.1.(objects) = st.(objects)
  /\ r.2 = Int.wrap (off + cells_of st slots)
  /\ (forall i, ~ In i (map fst slots) ->
        r.1.(probes).(grid_data) !! i = st.(probes).(grid_data) !! i)
  /\ (forall k i ob, slots !! k = Some (i, ob) ->
        r.1.(probes).(grid_data) !! i
        = Some (mkLightGrid (Int.wrap (off + cells_of st (take k slots)))
                  (probe_resolution st ob))).
Proof.
  induction slots as [|[i0 ob0] slots IH]; intros st off Hnd Hoff r.
  - subst r. cbn. rewrite Z.add_0_r, Int_wrap_small by done. done.
  - subst r. cbn [fold_left]. 
    set (st1 := with_probes
                  (set_grid_data (<[i0 := mkLightGrid off (probe_resolution st ob0)]>
                                    st.(probes).(grid_data))) st).
    change (update_grid (st, off) (i0, ob0))
      with (st1, Int.add off (get_object st ob0).(ped).(num_cell)).
    apply NoDup_cons in Hnd as [Hnotin Hnd].
    destruct (IH st1 (Int.add off (get_object st ob0).(ped).(num_cell)) Hnd
                (Int_wrap_range _)) as (Ho & Hoff' & Hother & Hk).
    assert (Hobj : st1.(objects) = st.(objects)) by done.
    assert (Hcells : forall l, cells_of st1 l = cells_of st l)
      by (intros l; by apply cells_of_objects).
    split_and!.
    + by rewrite Ho.
    + rewrite Hoff'. unfold Int.add. rewrite Int_wrap_add_l, Hcells.
      cbn [cells_of foldr snd]. f_equal. unfold cells_of. lia.
    + intros i Hi. cbn [map fst In] in Hi.
      rewrite Hother by tauto. subst st1. cbn.
      rewrite lookup_insert_ne by tauto. done.
    + intros k i ob Hlk. destruct k as [|k].
      * injection Hlk as -> ->. rewrite Hother by (by rewrite <- list_elem_of_In).
        subst st1. cbn. rewrite lookup_insert_eq, Z.add_0_r, Int_wrap_small by done.
        done.
      * change ((i0, ob0) :: slots) with ([(i0, ob0)] ++ slots) in Hlk.
        cbn in Hlk. rewrite (Hk k i ob Hlk).
        unfold Int.add. rewrite Int_wrap_add_l, Hcells.
        cbn [take cells_of foldr snd]. 
        change (probe_resolution st1 ob) with (probe_resolution st ob).
        do 2 f_equal. f_equal. unfold cells_of. lia.
Qed.

Lemma cells_of_app st l1 l2 : cells_of st (l1 ++ l2) = cells_of st l1 + cells_of st l2.
Proof.
  unfold cells_of. induction l1 as [|x l1 IH]; cbn [app foldr]; [done|].
  rewrite IH. lia.
Qed.

Lemma cells_of_nonneg st l :
  (forall slot, In slot l -> 0 <= (get_object st slot.2).(ped).(num_cell)) ->
  0 <= cells_of st l.
Proof.
  unfold cells_of. induction l as [|x l IH]; intros H; cbn [foldr]; [done|].
  specialize (H x (or_introl eq_refl)) as Hx.
  assert (0 <= foldr (fun slot n => num_cell (ped (get_object st slot.2)) + n) 0 l).
  { apply IH. intros slot Hs. apply H. by right. }
  lia.
Qed.

Lemma cells_of_take st l k slot :
  (forall slot, In slot l -> 0 <= (get_object st slot.2).(ped).(num_cell)) ->
  l !! k = Some slot ->
  0 <= cells_of st (take k l)
  /\ cells_of st (take (S k) l)
     = cells_of st (take k l) + (get_object st slot.2).(ped).(num_cell)
  /\ cells_of st (take (S k) l) <= cells_of st l.
Proof.
  intros Hnn Hk.
  assert (Hsub : forall n s, In s (take n l) -> In s l).
  { intros n s Hs. apply list_elem_of_In. apply list_elem_of_In in Hs.
    by eapply subseteq_take. }
  assert (Hsubd : forall n s, In s (drop n l) -> In s l).
  { intros n s Hs. apply list_elem_of_In. apply list_elem_of_In in Hs.
    by eapply subseteq_drop. }
  split_and!.
  - apply cells_of_nonneg. intros s Hs. apply Hnn. by eapply Hsub.
  - rewrite (take_S_r _ _ _ Hk), cells_of_app. cbn. lia.
  - rewrite <- (take_drop (S k) l) at 2. rewrite cells_of_app.
    assert (0 <= cells_of st (drop (S k) l)); [|lia].
    apply cells_of_nonneg. intros s Hs. apply Hnn. by eapply Hsubd.
Qed.

Lemma cells_of_take_le st l k k' :
  (forall slot, In slot l -> 0 <= (get_object st slot.2).(ped).(num_cell)) ->
  (k <= k')%nat ->
  cells_of st (take k l) <= cells_of st (take k' l).
Proof.
  intros Hnn Hle.
  replace (take k l) with (take k (take k' l)) by (rewrite take_take; f_equal; lia).
  rewrite <- (take_drop k (take k' l)) at 2. rewrite cells_of_app.
  assert (0 <= cells_of st (drop k (take k' l))); [|lia].
  apply cells_of_nonneg. intros s Hs. apply Hnn.
  apply list_elem_of_In. apply list_elem_of_In in Hs.
  eapply subseteq_take. by eapply subseteq_drop.
Qed.

Lemma updates_grid_data K st :
  let slots := grid_slots K st in
  let s := EEVEE_lightprobes_updates K st in
  (forall k i ob, slots !! k = Some (i, ob) ->
     s.(probes).(grid_data) !! i
     = Some (mkLightGrid (Int.wrap (1 + cells_of st (take k slots)))
               (probe_resolution st ob)))
  /\ (forall i, ~ In i (map fst slots) ->
        s.(probes).(grid_data) !! i = st.(probes).(grid_data) !! i).
Proof.
  intros slots s. subst slots s. unfold EEVEE_lightprobes_updates, grid_slots.
  destruct (fold_update_grid (for_each_ref st.(probes).(probes_grid_ref) K.(MAX_GRID))
              st 1 (for_each_ref_NoDup _ _)) as (_ & _ & Ho & Hk).
  { unfold Int.in_range, Int.INT_MIN, Int.INT_MAX. lia. }
  split; [exact Hk | exact Ho].
Qed.

(** X9.  [EEVEE_lightprobes_updates] gives the grid of the [k]-th visited
    slot the atlas offset 1 (cell 0 is the world's) plus the cell counts of
    the grids visited before it, reduced to a C [int], and copies the
    resolution of its probe; the visited slots are 1, 2, ... without a gap,
    the first grid gets offset 1, and the entries of the slots that the
    walk does not visit are left as they were. *)
Theorem updates_offsets K st :
  let slots := grid_slots K st in
  let s := EEVEE_lightprobes_updates K st in
  (forall (k : nat) i ob, slots !! k = Some (i, ob) ->
     i = 1 + Z.of_nat k
     /\ s.(probes).(grid_data) !! i
        = Some (mkLightGrid (Int.wrap (1 + cells_of st (take k slots)))
                  (probe_resolution st ob)))
  /\ (forall i ob g, slots !! O = Some (i, ob) ->
        s.(probes).(grid_data) !! i = Some g -> g.(offset) = 1)
  /\ (forall i, ~ In i (map fst slots) ->
        s.(probes).(grid_data) !! i = st.(probes).(grid_data) !! i).
Proof.
  intros slots s.
  destruct (updates_grid_data K st) as [Hk Ho]. fold slots s in Hk, Ho.
  split_and!.
  - intros k i ob Hlk. split; [|by apply Hk].
    assert (Hf : map fst slots !! k = Some i) by (by rewrite list_lookup_fmap, Hlk).
    subst slots. unfold grid_slots, for_each_ref in Hf.
    rewrite walk_refs_fst in Hf. apply lookup_seqZ in Hf. lia.
  - intros i ob g Hlk Hg. rewrite (Hk O i ob Hlk) in Hg. by injection Hg as <-.
  - exact Ho.
Qed.

(** X10.  When no visited grid has a negative cell count and 1 plus their
    total fits a C [int], the offsets that [EEVEE_lightprobes_updates]
    assigns make the cell ranges [offset, offset + num_cell) of the visited
    grids follow each other in slot order, starting at 1: no two grids
    share an atlas cell, and no grid uses cell 0. *)
Theorem updates_cell_ranges K st :
  let slots := grid_slots K st in
  let s := EEVEE_lightprobes_updates K st in
  (forall slot, In slot slots -> 0 <= (get_object st slot.2).(ped).(num_cell)) ->
  1 + cells_of st slots <= Int.INT_MAX ->
  forall (k k' : nat) i ob i' ob',
    (k < k')%nat -> slots !! k = Some (i, ob) -> slots !! k' = Some (i', ob') ->
    exists g g',
      s.(probes).(grid_data) !! i = Some g
      /\ s.(probes).(grid_data) !! i' = Some g'
      /\ 1 <= g.(offset)
      /\ g.(offset) + (get_object st ob).(ped).(num_cell) <= g'.(offset)
      /\ g'.(offset) + (get_object st ob').(ped).(num_cell) <= 1 + cells_of st slots.
Proof.
  intros slots s Hnn Htot k k' i ob i' ob' Hlt Hk Hk'.
  destruct (updates_grid_data K st) as [Hd _]. fold slots s in Hd.
  destruct (cells_of_take st slots k (i, ob) Hnn Hk) as (H0 & HS & Hle).
  destruct (cells_of_take st slots k' (i', ob') Hnn Hk') as (H0' & HS' & Hle').
  pose proof (cells_of_take_le st slots (S k) k' Hnn ltac:(lia)) as Hmono.
  pose proof (Hnn (i, ob) ltac:(apply list_elem_of_In; by eapply list_elem_of_lookup_2)) as Hn.
  pose proof (Hnn (i', ob') ltac:(apply list_elem_of_In; by eapply list_elem_of_lookup_2)) as Hn'.
  cbn [snd] in HS, HS', Hn, Hn'.
  eexists _, _. split; [by apply Hd|]. split; [by apply Hd|]. cbn [offset].
  rewrite !Int_wrap_small
    by (unfold Int.in_range, Int.INT_MIN, Int.INT_MAX in *; lia).
  lia.
Qed.

Lemma updates_cell_ranges_witness :
  let st := cache_populate sample_constants
              (EEVEE_lightprobes_cache_init (Some 0)
                 (EEVEE_lightprobes_init
                    (<[4%positive := sample_grid 0 3 3 3]> sample_scene)))
              [1%positive; 4%positive] in
  let slots := grid_slots sample_constants st in
  let s := EEVEE_lightprobes_updates sample_constants st in
  exists g g',
    s.(probes).(grid_data) !! 1 = Some g
    /\ s.(probes).(grid_data) !! 2 = Some g'
    /\ 1 <= g.(offset)
    /\ g.(offset) + (get_object st 1).(ped).(num_cell) <= g'.(offset)
    /\ g'.(offset) + (get_object st 4).(ped).(num_cell) <= 1 + cells_of st slots.
Proof.
  intros st slots s.
  apply (updates_cell_ranges sample_constants st) with (k := O) (k' := 1%nat).
  - intros slot Hin. vm_compute in Hin.
    destruct Hin as [<-|[<-|[]]]; vm_compute; discriminate.
  - vm_compute. discriminate.
  - lia.
  - vm_compute. reflexivity.
  - vm_compute. reflexivity.
Defined.

(** ** Textures *)

Lemma frame_of_fields st a b c d e f g :
  frame_of st = (a, b, c, d, e, f, g) ->
  st.(update_world) = a /\ st.(world_ready_to_shade) = b /\ st.(probe_pool) = c
  /\ st.(irradiance_pool) = d /\ st.(irradiance_rt) = e /\ st.(next_texture) = f
  /\ st.(probes) = g.
Proof. unfold frame_of. intros H. injection H as -> -> -> -> -> -> ->. done. Qed.

Lemma probe_pool_create_frame K st :
  frame_of (probe_pool_create K st)
  = (true, false, Some st.(next_texture), st.(irradiance_pool), st.(irradiance_rt),
     S st.(next_texture),
     set_cache_num_cube st.(probes).(num_cube)
       (set_update_flag (Z.lor st.(probes).(update_flag) K.(PROBE_UPDATE_CUBE))
          (set_num_render_cube 0 st.(probes)))).
Proof.
  unfold probe_pool_create, texture_create. cbv zeta.
  rewrite fold_tag_cube_refresh_frame. reflexivity.
Qed.

Lemma irradiance_reset_frame K st :
  frame_of (irradiance_reset K st)
  = (st.(update_world), st.(world_ready_to_shade), st.(probe_pool),
     st.(irradiance_pool), st.(irradiance_rt), st.(next_texture),
     set_updated_bounce 0 (set_num_render_grid 0 st.(probes))).
Proof.
  unfold irradiance_reset. cbv zeta.
  rewrite fold_tag_grid_refresh_frame. reflexivity.
Qed.

Lemma fold_update_grid_frame l : forall st off,
  let s := (fold_left update_grid l (st, off)).1 in
  s.(update_world) = st.(update_world)
  /\ s.(world_ready_to_shade) = st.(world_ready_to_shade)
  /\ s.(probe_pool) = st.(probe_pool)
  /\ s.(irradiance_pool) = st.(irradiance_pool)
  /\ s.(irradiance_rt) = st.(irradiance_rt)
  /\ s.(next_texture) = st.(next_texture)
  /\ s.(objects) = st.(objects)
  /\ set_grid_data ∅ s.(probes) = set_grid_data ∅ st.(probes).
Proof.
  induction l as [|[i ob] l IH]; intros st off; [done|].
  cbn [fold_left].
  set (st1 := with_probes
                (set_grid_data (<[i := mkLightGrid off (probe_resolution st ob)]>
                                  st.(probes).(grid_data))) st).
  change (update_grid (st, off) (i, ob))
    with (st1, Int.add off (get_object st ob).(ped).(num_cell)).
  destruct (IH st1 (Int.add off (get_object st ob).(ped).(num_cell)))
    as (-> & -> & -> & -> & -> & -> & -> & ->).
  done.
Qed.

Lemma updates_frame K st :
  let s := EEVEE_lightprobes_updates K st in
  s.(update_world) = st.(update_world)
  /\ s.(world_ready_to_shade) = st.(world_ready_to_shade)
  /\ s.(probe_pool) = st.(probe_pool)
  /\ s.(irradiance_pool) = st.(irradiance_pool)
  /\ s.(irradiance_rt) = st.(irradiance_rt)
  /\ s.(next_texture) = st.(next_texture)
  /\ s.(objects) = st.(objects)
  /\ set_grid_data ∅ s.(probes) = set_grid_data ∅ st.(probes).
Proof. apply fold_update_grid_frame. Qed.

Lemma probe_pool_ensure_textures K st :
  let s := probe_pool_ensure K st in
  s.(irradiance_pool) = st.(irradiance_pool)
  /\ s.(irradiance_rt) = st.(irradiance_rt)
  /\ ((s = st /\ st.(probe_pool) <> None
       /\ st.(probes).(num_cube) = st.(probes).(cache_num_cube))
      \/ (s.(probe_pool) = Some st.(next_texture)
          /\ s.(next_texture) = S st.(next_texture)
          /\ (st.(probe_pool) = None
              \/ st.(probes).(num_cube) <> st.(probes).(cache_num_cube)))).
Proof.
  intros s. subst s. unfold probe_pool_ensure.
  destruct (Z.eqb_spec st.(probes).(num_cube) st.(probes).(cache_num_cube)) as [He|Hne];
    cbn [negb].
  - destruct (probe_pool st) eqn:Hp.
    + split_and!; try done. left. done.
    + destruct (frame_of_fields _ _ _ _ _ _ _ _ (probe_pool_create_frame K st))
        as (_ & _ & H3 & H4 & H5 & H6 & _).
      split_and!; try done. right. auto.
  - cbn [probe_pool set_probe_pool].
    destruct (frame_of_fields _ _ _ _ _ _ _ _
                (probe_pool_create_frame K (set_probe_pool None st)))
      as (_ & _ & H3 & H4 & H5 & H6 & _).
    split_and!; try done. right. auto.
Qed.

Lemma irradiance_pool_ensure_textures K st :
  let s := irradiance_pool_ensure K st in
  s.(probe_pool) = st.(probe_pool)
  /\ s.(irradiance_rt) = st.(irradiance_rt)
  /\ ((s = st /\ st.(irradiance_pool) <> None)
      \/ (s.(irradiance_pool) = Some st.(next_texture)
          /\ s.(next_texture) = S st.(next_texture)
          /\ st.(irradiance_pool) = None)).
Proof.
  intros s. subst s. unfold irradiance_pool_ensure.
  destruct (irradiance_pool st) eqn:Hp.
  - split_and!; try done. left. done.
  - unfold texture_create. cbv zeta.
    match goal with |- context [irradiance_reset K ?s0] =>
      destruct (frame_of_fields _ _ _ _ _ _ _ _ (irradiance_reset_frame K s0))
        as (_ & _ & H3 & H4 & H5 & H6 & _) end.
    split_and!; try done. right. auto.
Qed.

Lemma irradiance_rt_ensure_textures K st :
  let s := irradiance_rt_ensure K st in
  s.(probe_pool) = st.(probe_pool)
  /\ s.(irradiance_pool) = st.(irradiance_pool)
  /\ ((s = st /\ st.(irradiance_rt) <> None)
      \/ (s.(irradiance_rt) = Some st.(next_texture)
          /\ s.(next_texture) = S st.(next_texture)
          /\ st.(irradiance_rt) = None)).
Proof.
  intros s. subst s. unfold irradiance_rt_ensure.
  destruct (irradiance_rt st) eqn:Hp.
  - split_and!; try done. left. done.
  - unfold texture_create. cbv zeta.
    match goal with |- context [irradiance_reset K ?s0] =>
      destruct (frame_of_fields _ _ _ _ _ _ _ _ (irradiance_reset_frame K s0))
        as (_ & _ & H3 & H4 & H5 & H6 & _) end.
    split_and!; try done. right. auto.
Qed.

Lemma textures_ok_alt st :
  textures_ok st <->
  (forall t, st.(probe_pool) = Some t -> (t < st.(next_texture))%nat)
  /\ (forall t, st.(irradiance_pool) = Some t -> (t < st.(next_texture))%nat)
  /\ (forall t, st.(irradiance_rt) = Some t -> (t < st.(next_texture))%nat)
  /\ (forall t, st.(probe_pool) = Some t -> st.(irradiance_pool) <> Some t)
  /\ (forall t, st.(probe_pool) = Some t -> st.(irradiance_rt) <> Some t)
  /\ (forall t, st.(irradiance_pool) = Some t -> st.(irradiance_rt) <> Some t).
Proof.
  unfold textures_ok, textures.
  destruct (probe_pool st) as [a|], (irradiance_pool st) as [b|],
    (irradiance_rt st) as [c|]; cbn;
    (split;
     [intros [Hnd Hall];
      repeat match goal with
      | H : NoDup (_ :: _) |- _ => apply NoDup_cons in H as [? H]
      | H : Forall _ (_ :: _) |- _ => apply Forall_cons_1 in H as [? H]
      | H : _ ∉ _ :: _ |- _ => apply not_elem_of_cons in H as [? H]
      end;
      split_and!; intros t Ht; simplify_eq; try done; congruence
     |intros (H1 & H2 & H3 & H4 & H5 & H6);
      try specialize (H1 _ eq_refl); try specialize (H2 _ eq_refl);
      try specialize (H3 _ eq_refl); try specialize (H4 _ eq_refl);
      try specialize (H5 _ eq_refl); try specialize (H6 _ eq_refl);
      split;
      [repeat (apply NoDup_cons; split); try apply NoDup_nil;
       rewrite ?not_elem_of_cons; split_and?; try apply not_elem_of_nil;
       try done; congruence
      |repeat constructor; done]]).
Qed.

Lemma cache_finish_texture_fields K st :
  let s1 := probe_pool_ensure K st in
  let s2 := irradiance_pool_ensure K s1 in
  let s3 := irradiance_rt_ensure K s2 in
  let s := EEVEE_lightprobes_cache_finish K st in
  s.(probe_pool) = s3.(probe_pool) /\ s.(irradiance_pool) = s3.(irradiance_pool)
  /\ s.(irradiance_rt) = s3.(irradiance_rt) /\ s.(next_texture) = s3.(next_texture).
Proof.
  intros s1 s2 s3 s. subst s. unfold EEVEE_lightprobes_cache_finish. cbv zeta.
  fold s1. fold s2. fold s3.
  destruct (updates_frame K s3) as (_ & _ & -> & -> & -> & -> & _). done.
Qed.

Lemma textures_ok_fresh st s :
  textures_ok st ->
  s.(next_texture) = S st.(next_texture) ->
  (s.(probe_pool) = st.(probe_pool) \/ s.(probe_pool) = Some st.(next_texture)) ->
  (s.(irradiance_pool) = st.(irradiance_pool)
   \/ s.(irradiance_pool) = Some st.(next_texture)) ->
  (s.(irradiance_rt) = st.(irradiance_rt)
   \/ s.(irradiance_rt) = Some st.(next_texture)) ->
  (s.(probe_pool) = st.(probe_pool) /\ s.(irradiance_pool) = st.(irradiance_pool)
   \/ s.(probe_pool) = st.(probe_pool) /\ s.(irradiance_rt) = st.(irradiance_rt)
   \/ s.(irradiance_pool) = st.(irradiance_pool)
      /\ s.(irradiance_rt) = st.(irradiance_rt)) ->
  textures_ok s.
Proof.
  rewrite !textures_ok_alt. intros (O1 & O2 & O3 & O4 & O5 & O6) Hn Hp Hi Hr Htwo.
  rewrite Hn.
  assert (Hlt : forall o, (forall t, o = Some t -> (t < st.(next_texture))%nat) ->
                          o <> Some st.(next_texture)).
  { intros o Ho Heq. specialize (Ho _ Heq). lia. }
  pose proof (Hlt _ O1) as F1. pose proof (Hlt _ O2) as F2. pose proof (Hlt _ O3) as F3.
  destruct Htwo as [[E1 E2]|[[E1 E2]|[E1 E2]]];
    destruct Hp as [Hp|Hp]; destruct Hi as [Hi|Hi]; destruct Hr as [Hr|Hr];
    rewrite ?E1, ?E2 in *; rewrite ?Hp, ?Hi, ?Hr in *; try done;
    split_and!; intros t Ht; simplify_eq;
    try (first [specialize (O1 _ Ht) | specialize (O2 _ Ht) | specialize (O3 _ Ht)]; lia);
    try lia; eauto; try congruence.
Qed.

Lemma probe_pool_ensure_ok K st :
  textures_ok st ->
  let s := probe_pool_ensure K st in
  textures_ok s /\ s.(probe_pool) <> None.
Proof.
  intros Hok s.
  destruct (probe_pool_ensure_textures K st) as (A1 & A2 & [(E & P1 & P2)|(P1 & P2 & P3)]);
    fold s in A1, A2, P1, P2.
  - fold s in E. rewrite E. done.
  - split; [|by rewrite P1].
    apply (textures_ok_fresh st s); auto.
Qed.

Lemma irradiance_pool_ensure_ok K st :
  textures_ok st ->
  let s := irradiance_pool_ensure K st in
  textures_ok s /\ s.(irradiance_pool) <> None.
Proof.
  intros Hok s.
  destruct (irradiance_pool_ensure_textures K st)
    as (A1 & A2 & [(E & P1)|(P1 & P2 & P3)]); fold s in A1, A2, P1.
  - fold s in E. rewrite E. done.
  - fold s in P2. split; [|by rewrite P1].
    apply (textures_ok_fresh st s); auto.
Qed.

Lemma irradiance_rt_ensure_ok K st :
  textures_ok st ->
  let s := irradiance_rt_ensure K st in
  textures_ok s /\ s.(irradiance_rt) <> None.
Proof.
  intros Hok s.
  destruct (irradiance_rt_ensure_textures K st)
    as (A1 & A2 & [(E & P1)|(P1 & P2 & P3)]); fold s in A1, A2, P1.
  - fold s in E. rewrite E. done.
  - fold s in P2. split; [|by rewrite P1].
    apply (textures_ok_fresh st s); auto.
Qed.

Lemma textures_ok_ext st s :
  s.(probe_pool) = st.(probe_pool) -> s.(irradiance_pool) = st.(irradiance_pool) ->
  s.(irradiance_rt) = st.(irradiance_rt) -> s.(next_texture) = st.(next_texture) ->
  textures_ok st -> textures_ok s.
Proof. unfold textures_ok, textures. by intros -> -> -> ->. Qed.

(** X11.  Taking a texture creation to succeed and to return a texture
    that no handle names yet (the creation itself belongs to the GPU
    resource layer), [EEVEE_lightprobes_cache_finish] leaves the three
    textures allocated and pairwise different, provided the handles held at
    entry are pairwise different handles of earlier creations.  An irradiance
    buffer that exists is never replaced; the reflection atlas is kept
    exactly when it exists and the cube count equals the cached count, and
    is otherwise a newly created texture.  At most three textures are
    created, and none when the atlas is kept and both irradiance buffers
    exist. *)
Theorem cache_finish_textures K st :
  textures_ok st ->
  let s := EEVEE_lightprobes_cache_finish K st in
  textures_ok s
  /\ (exists a b c,
        s.(probe_pool) = Some a /\ s.(irradiance_pool) = Some b
        /\ s.(irradiance_rt) = Some c /\ a <> b /\ a <> c /\ b <> c)
  /\ (forall t, st.(irradiance_pool) = Some t -> s.(irradiance_pool) = Some t)
  /\ (forall t, st.(irradiance_rt) = Some t -> s.(irradiance_rt) = Some t)
  /\ (forall t, st.(probe_pool) = Some t ->
        st.(probes).(num_cube) = st.(probes).(cache_num_cube) ->
        s.(probe_pool) = Some t)
  /\ (st.(probe_pool) = None
      \/ st.(probes).(num_cube) <> st.(probes).(cache_num_cube) ->
      s.(probe_pool) = Some st.(next_texture))
  /\ (st.(next_texture) <= s.(next_texture) <= st.(next_texture) + 3)%nat
  /\ (st.(probe_pool) <> None ->
      st.(probes).(num_cube) = st.(probes).(cache_num_cube) ->
      st.(irradiance_pool) <> None -> st.(irradiance_rt) <> None ->
      s.(next_texture) = st.(next_texture)).
Proof.
  intros Hok s.
  destruct (cache_finish_texture_fields K st) as (Ep & Ei & Er & En).
  cbv zeta in Ep, Ei, Er, En. fold s in Ep, Ei, Er, En.
  set (s1 := probe_pool_ensure K st) in *.
  set (s2 := irradiance_pool_ensure K s1) in *.
  set (s3 := irradiance_rt_ensure K s2) in *.
  destruct (probe_pool_ensure_ok K st Hok) as [Hok1 N1]. fold s1 in Hok1, N1.
  destruct (irradiance_pool_ensure_ok K s1 Hok1) as [Hok2 N2]. fold s2 in Hok2, N2.
  destruct (irradiance_rt_ensure_ok K s2 Hok2) as [Hok3 N3]. fold s3 in Hok3, N3.
  destruct (probe_pool_ensure_textures K st) as (A1 & A2 & A3). fold s1 in A1, A2, A3.
  destruct (irradiance_pool_ensure_textures K s1) as (B1 & B2 & B3).
  fold s2 in B1, B2, B3.
  destruct (irradiance_rt_ensure_textures K s2) as (C1 & C2 & C3).
  fold s3 in C1, C2, C3.
  assert (Hoks : textures_ok s) by (by apply (textures_ok_ext s3)).
  assert (Hpp : s.(probe_pool) = s1.(probe_pool)) by congruence.
  assert (Hip : s.(irradiance_pool) = s2.(irradiance_pool)) by congruence.
  split; [exact Hoks|].
  split.
  { apply textures_ok_alt in Hoks as (_ & _ & _ & O4 & O5 & O6).
    destruct (probe_pool s) as [a|] eqn:Ha; [|congruence].
    destruct (irradiance_pool s) as [b|] eqn:Hb; [|congruence].
    destruct (irradiance_rt s) as [c|] eqn:Hc; [|congruence].
    specialize (O4 _ eq_refl). specialize (O5 _ eq_refl). specialize (O6 _ eq_refl).
    exists a, b, c. split_and!; congruence. }
  split.
  { intros t Ht. rewrite Hip. rewrite <- A1 in Ht.
    destruct B3 as [(E & _)|(_ & _ & E)]; [by rewrite E | congruence]. }
  split.
  { intros t Ht. rewrite Er. rewrite <- A2, <- B2 in Ht.
    destruct C3 as [(E & _)|(_ & _ & E)]; [by rewrite E | congruence]. }
  split.
  { intros t Ht Hnum. rewrite Hpp.
    destruct A3 as [(E & _)|(_ & _ & [E|E])]; [by rewrite E | congruence..]. }
  split.
  { intros Hnew. rewrite Hpp.
    destruct A3 as [(_ & E1 & E2)|(E & _)]; [|done].
    destruct Hnew; done. }
  assert (Hn1 : (st.(next_texture) <= s1.(next_texture) <= S st.(next_texture))%nat).
  { destruct A3 as [(-> & _)|(_ & -> & _)]; lia. }
  assert (Hn2 : (s1.(next_texture) <= s2.(next_texture) <= S s1.(next_texture))%nat).
  { destruct B3 as [(-> & _)|(_ & -> & _)]; lia. }
  assert (Hn3 : (s2.(next_texture) <= s3.(next_texture) <= S s2.(next_texture))%nat).
  { destruct C3 as [(-> & _)|(_ & -> & _)]; lia. }
  split; [lia|].
  intros Hp Hnum Hi Hr. rewrite En.
  destruct A3 as [(E1 & _)|(_ & _ & [E|E])]; [|done..].
  rewrite E1 in *.
  destruct B3 as [(E2 & _)|(_ & _ & E)]; [|done].
  rewrite E2 in *.
  destruct C3 as [(E3 & _)|(_ & _ & E)]; [|done].
  by rewrite E3.
Qed.

Lemma cache_finish_textures_witness :
  let st := sample_cube_added in
  let s := EEVEE_lightprobes_cache_finish sample_constants st in
  let st' := cache_populate sample_constants
               (EEVEE_lightprobes_cache_init (Some 0)
                  (clear_deg_update_flags sample_frame_1.1))
               [1%positive; 2%positive; 3%positive] in
  let s' := EEVEE_lightprobes_cache_finish sample_constants st' in
  (textures st = [0; 2; 1]%nat /\ st.(next_texture) = 3%nat
   /\ st.(probes).(num_cube) = 3 /\ st.(probes).(cache_num_cube) = 2
   /\ textures_ok s
   /\ s.(probe_pool) = Some 3%nat
   /\ s.(irradiance_pool) = Some 2%nat /\ s.(irradiance_rt) = Some 1%nat
   /\ (3 <= s.(next_texture) <= 6)%nat)
  /\ (textures st' = [0; 2; 1]%nat /\ st'.(next_texture) = 3%nat
      /\ st'.(probes).(num_cube) = 3 /\ st'.(probes).(cache_num_cube) = 3
      /\ textures_ok s'
      /\ s'.(probe_pool) = Some 0%nat
      /\ s'.(irradiance_pool) = Some 2%nat /\ s'.(irradiance_rt) = Some 1%nat
      /\ s'.(next_texture) = 3%nat).
Proof.
  intros st s st' s'.
  assert (Hst : textures st = [0; 2; 1]%nat /\ st.(next_texture) = 3%nat
                /\ st.(probes).(num_cube) = 3 /\ st.(probes).(cache_num_cube) = 2
                /\ st.(probe_pool) = Some 0%nat
                /\ st.(irradiance_pool) = Some 2%nat
                /\ st.(irradiance_rt) = Some 1%nat)
    by (vm_compute; repeat split).
  assert (Hst' : textures st' = [0; 2; 1]%nat /\ st'.(next_texture) = 3%nat
                 /\ st'.(probes).(num_cube) = 3 /\ st'.(probes).(cache_num_cube) = 3
                 /\ st'.(probe_pool) = Some 0%nat
                 /\ st'.(irradiance_pool) = Some 2%nat
                 /\ st'.(irradiance_rt) = Some 1%nat)
    by (vm_compute; repeat split).
  destruct Hst as (Ht & Hn & Hc & Hcc & Hp & Hi & Hr).
  destruct Hst' as (Ht' & Hn' & Hc' & Hcc' & Hp' & Hi' & Hr').
  assert (Hok : textures_ok st).
  { unfold textures_ok. rewrite Ht, Hn. split.
    - apply (bool_decide_unpack _). vm_compute. exact I.
    - repeat constructor. }
  assert (Hok' : textures_ok st').
  { unfold textures_ok. rewrite Ht', Hn'. split.
    - apply (bool_decide_unpack _). vm_compute. exact I.
    - repeat constructor. }
  split.
  - destruct (cache_finish_textures sample_constants st Hok)
      as (Ho & _ & Ki & Kr & _ & Kn & Kc & _).
    fold s in Ho, Ki, Kr, Kn, Kc.
    rewrite Hn in Kc.
    split; [exact Ht|]. split; [exact Hn|]. split; [exact Hc|].
    split; [exact Hcc|]. split; [exact Ho|].
    split; [rewrite <- Hn; apply Kn; right; rewrite Hc, Hcc; discriminate|].
    split; [exact (Ki _ Hi)|]. split; [exact (Kr _ Hr)|].
    clear -Kc. lia.
  - destruct (cache_finish_textures sample_constants st' Hok')
      as (Ho & _ & Ki & Kr & Kp & _ & _ & Ks).
    fold s' in Ho, Ki, Kr, Kp, Ks.
    split; [exact Ht'|]. split; [exact Hn'|]. split; [exact Hc'|].
    split; [exact Hcc'|]. split; [exact Ho|].
    split; [apply (Kp _ Hp'); rewrite Hc', Hcc'; reflexivity|].
    split; [exact (Ki _ Hi')|]. split; [exact (Kr _ Hr')|].
    rewrite <- Hn'.
    apply Ks; [rewrite Hp'|rewrite Hc', Hcc'|rewrite Hi'|rewrite Hr'];
      first [reflexivity | exact (Some_ne_None _)].
Defined.

(** ** What the scheduler leaves alone *)

Lemma keeps_registry_refl s : keeps_registry s s.
Proof. unfold keeps_registry. split_and!; auto. Qed.

Lemma keeps_registry_trans s1 s2 s3 :
  keeps_registry s1 s2 -> keeps_registry s2 s3 -> keeps_registry s1 s3.
Proof.
  intros (R1 & P1 & T1 & O1) (R2 & P2 & T2 & O2). unfold keeps_registry.
  split_and!.
  - congruence.
  - destruct P1 as [[A B]|[A B]], P2 as [[C D]|[C D]];
      [left|right|right|left]; split; congruence.
  - auto.
  - intros ob. destruct (O1 ob) as (a & b & c), (O2 ob) as (d & e & f).
    split_and!; congruence.
Qed.

Lemma keeps_with_probes f st :
  (let p := st.(probes) in
   (num_cube (f p), cache_num_cube (f p), num_grid (f p), update_flag (f p),
    probes_cube_ref (f p), probes_grid_ref (f p), grid_data (f p))
   = (num_cube p, cache_num_cube p, num_grid p, update_flag p,
      probes_cube_ref p, probes_grid_ref p, grid_data p)) ->
  (specular_toggle st.(probes) = true -> specular_toggle (f st.(probes)) = true) ->
  keeps_registry st (with_probes f st).
Proof.
  cbv zeta. intros Hf Ht. injection Hf as H1 H2 H3 H4 H5 H6 H7.
  unfold keeps_registry, registry_of. cbn [with_probes probes probe_pool next_texture
    irradiance_pool irradiance_rt].
  rewrite H1, H2, H3, H4, H5, H6, H7. split_and!; auto.
Qed.

Lemma keeps_with_ped ob f st :
  (forall d, num_cell (f d) = num_cell d) ->
  keeps_registry st (with_ped ob f st).
Proof.
  intros Hf. unfold keeps_registry. split_and!; auto.
  intros ob'. rewrite get_object_with_ped. case_decide; subst; cbn; auto.
Qed.

Lemma keeps_swap st : keeps_registry st (swap_irradiance st).
Proof. unfold keeps_registry. split_and!; auto. Qed.

Lemma keeps_set_update_world b st : keeps_registry st (set_update_world b st).
Proof. unfold keeps_registry. split_and!; auto. Qed.

Lemma keeps_set_world_ready_to_shade b st :
  keeps_registry st (set_world_ready_to_shade b st).
Proof. unfold keeps_registry. split_and!; auto. Qed.

Lemma keeps_tag_grid_refresh st slot : keeps_registry st (tag_grid_refresh st slot).
Proof.
  unfold tag_grid_refresh. cbv zeta.
  eapply keeps_registry_trans; apply keeps_with_ped; done.
Qed.

Lemma keeps_fold_tag_grid_refresh l : forall st,
  keeps_registry st (fold_left tag_grid_refresh l st).
Proof.
  induction l as [|slot l IH]; intros st; [apply keeps_registry_refl|].
  cbn [fold_left]. eapply keeps_registry_trans; [apply keeps_tag_grid_refresh|apply IH].
Qed.

Ltac keeps_step :=
  first [ apply keeps_swap
        | apply keeps_set_update_world
        | apply keeps_set_world_ready_to_shade
        | apply keeps_fold_tag_grid_refresh
        | apply keeps_with_ped; done
        | apply keeps_with_probes; [reflexivity | cbn; auto; done] ].

Ltac keeps_chain :=
  repeat (first [ apply keeps_registry_refl
                | eapply keeps_registry_trans; [|keeps_step] ]).

Lemma refresh_world_keeps K st : keeps_registry st (refresh_world K st).1.
Proof.
  unfold refresh_world. cbv zeta. cbn [fst].
  destruct (negb _); keeps_chain.
Qed.

Lemma refresh_grid_cell_keeps K st i ob : keeps_registry st (refresh_grid_cell K st i ob).1.
Proof.
  unfold refresh_grid_cell, render_scene_to_probe. cbv zeta.
  match goal with
  | |- context [with_ped ob (fun d => set_updated_cells _ d) ?s] => set (sp := s)
  end.
  assert (Hsp : keeps_registry st sp).
  { subst sp. unfold keeps_registry, registry_of, swap_irradiance. cbn.
    destruct (updated_bounce (probes st) =? 0); split_and!; auto. }
  cbn [fst]. destruct (_ <=? _).
  - eapply keeps_registry_trans; [exact Hsp|].
    eapply keeps_registry_trans; apply keeps_with_ped; done.
  - eapply keeps_registry_trans; [exact Hsp|]. apply keeps_with_ped; done.
Qed.

Lemma refresh_cube_keeps st i ob : keeps_registry st (refresh_cube st i ob).1.
Proof.
  unfold refresh_cube, render_scene_to_probe. cbv zeta.
  match goal with
  | |- context [with_ped ob (set_need_update false) ?s] => set (sp := s)
  end.
  assert (Hsp : keeps_registry st sp).
  { subst sp. unfold keeps_registry, registry_of. cbn. split_and!; auto. }
  set (st2 := with_ped ob (set_probe_id i) (with_ped ob (set_need_update false) sp)).
  assert (H2 : keeps_registry st st2).
  { eapply keeps_registry_trans; [exact Hsp|].
    eapply keeps_registry_trans; apply keeps_with_ped; done. }
  destruct (negb _); cbn [fst]; [|exact H2].
  eapply keeps_registry_trans; [exact H2|].
  eapply keeps_registry_trans; [|apply keeps_with_ped; done].
  apply keeps_with_probes; [reflexivity | cbn; auto].
Qed.

Lemma refresh_grids_loop_keeps K n : forall st,
  keeps_registry st (refresh_grids_loop K n st).1.1.
Proof.
  induction n as [|n IH]; intros st; [apply keeps_registry_refl|].
  rewrite refresh_grids_loop_S. cbv zeta.
  destruct (_ <? _); [|apply keeps_registry_refl].
  set (s1 := with_probes (fun p => set_num_render_grid (num_grid p) p) st).
  assert (H1 : keeps_registry st s1).
  { apply keeps_with_probes; [reflexivity | cbn; auto]. }
  destruct (find_need_update s1 _) as [[i ob]|].
  - pose proof (refresh_grid_cell_keeps K s1 i ob) as Hc.
    destruct (refresh_grid_cell K s1 i ob) as [s' tr]. cbn [fst] in *.
    exact (keeps_registry_trans _ _ _ H1 Hc).
  - set (s2 := with_probes (fun p => set_num_render_grid (num_grid p) p)
                 (with_probes (fun p => set_updated_bounce (Int.incr (updated_bounce p)) p)
                    s1)).
    assert (H2 : keeps_registry st s2).
    { eapply keeps_registry_trans; [exact H1|].
      eapply keeps_registry_trans;
        apply keeps_with_probes; first [reflexivity | cbn; auto]. }
    destruct (_ <? _).
    + match goal with |- context [refresh_grids_loop K n ?s] =>
        pose proof (IH s) as Hn; set (s3 := s) in *;
        destruct (refresh_grids_loop K n s3) as [[s' tr] ex] end.
      cbn [fst] in *. change (keeps_registry st s').
      eapply keeps_registry_trans; [|exact Hn].
      eapply keeps_registry_trans; [exact H2|]. subst s3.
      eapply keeps_registry_trans; [apply keeps_fold_tag_grid_refresh|apply keeps_swap].
    + eapply keeps_registry_trans; [exact H2|apply IH].
Qed.

Lemma refresh_keeps K ctx st :
  keeps_registry st (EEVEE_lightprobes_refresh K ctx st).1.
Proof.
  unfold EEVEE_lightprobes_refresh.
  destruct (update_world st); [apply refresh_world_keeps|].
  destruct (bake_paused ctx); [apply keeps_registry_refl|].
  unfold refresh_grids.
  pose proof (refresh_grids_loop_keeps K (Z.to_nat (max_bounce - updated_bounce (probes st)))
                st) as Hl.
  destruct (refresh_grids_loop K _ st) as [[s1 tr] [|]]; cbn [fst] in *; [exact Hl|].
  unfold refresh_cubes.
  destruct (find_need_update s1 _) as [[i ob]|]; [|exact Hl].
  pose proof (refresh_cube_keeps s1 i ob) as Hc.
  destruct (refresh_cube s1 i ob) as [s2 tr2]. cbn [fst] in *.
  exact (keeps_registry_trans _ _ _ Hl Hc).
Qed.

(** X12.  An invocation of [EEVEE_lightprobes_refresh] never touches what
    the scan and [EEVEE_lightprobes_cache_finish] set up: the two counts,
    the cached cube count, the update flag, both reference tables, the grid
    parameters, the reflection atlas and the handle counter are as at
    entry; the two irradiance buffers are the same two textures, in the
    same or in the other order; no object changes its probe data, its
    update flag or its cell count; specular lighting, switched off for
    every capture, is on again at exit; and texture handles that are
    pairwise different stay so. *)
Theorem refresh_keeps_registry K ctx st :
  let s := (EEVEE_lightprobes_refresh K ctx st).1 in
  registry_of s = registry_of st
  /\ ((s.(irradiance_pool) = st.(irradiance_pool)
       /\ s.(irradiance_rt) = st.(irradiance_rt))
      \/ (s.(irradiance_pool) = st.(irradiance_rt)
          /\ s.(irradiance_rt) = st.(irradiance_pool)))
  /\ (st.(probes).(specular_toggle) = true -> s.(probes).(specular_toggle) = true)
  /\ (forall ob,
        (get_object s ob).(data) = (get_object st ob).(data)
        /\ (get_object s ob).(deg_update_flag) = (get_object st ob).(deg_update_flag)
        /\ (get_object s ob).(ped).(num_cell) = (get_object st ob).(ped).(num_cell))
  /\ (textures_ok st -> textures_ok s).
Proof.
  intros s.
  destruct (refresh_keeps K ctx st) as (Hr & Hp & Ht & Ho). fold s in Hr, Hp, Ht, Ho.
  split_and!; try done.
  unfold registry_of in Hr. injection Hr as _ _ _ _ _ _ _ Hpp Hn.
  rewrite !textures_ok_alt. rewrite Hpp, Hn.
  intros (O1 & O2 & O3 & O4 & O5 & O6).
  destruct Hp as [[-> ->]|[-> ->]]; split_and!; eauto.
  intros t Hi Hr. by eapply O6.
Qed.

(** ** The shape of a trace *)

Lemma not_in_glossy_filter_probe i e :
  (forall p, e <> EvGlossyPass p) -> ~ In e (glossy_filter_probe i).
Proof.
  intros Hne Hin. apply in_glossy_filter_probe in Hin as (p & -> & _). by eapply Hne.
Qed.

Lemma diffuse_filter_probe_event K st o :
  exists vp, diffuse_filter_probe K st o = EvDiffusePass st.(irradiance_rt) o vp.
Proof. unfold diffuse_filter_probe. cbv zeta. eauto. Qed.

Lemma captures_no_scene tr :
  (forall e, In e tr -> match e with EvRenderScene _ _ _ _ _ _ => False | _ => True end) ->
  captures tr = [].
Proof.
  induction tr as [|e tr IH]; intros H; [done|].
  unfold captures in *. cbn [flat_map].
  pose proof (H e (or_introl eq_refl)) as He.
  rewrite IH by (intros e' He'; apply H; by right).
  by destruct e.
Qed.

(** A trace of the scheduler: buffer swaps, then nothing, or the events of
    a world capture or of one bake unit, ending in the redraw request. *)
Lemma refresh_trace_shape K ctx st :
  exists pre body,
    (EEVEE_lightprobes_refresh K ctx st).2 = pre ++ body
    /\ Forall (eq EvSwapIrradiance) pre
    /\ (body = []
        \/ exists b0,
             body = b0 ++ [EvRequestRedraw]
             /\ ~ In EvRequestRedraw b0
             /\ ((In EvRenderWorld b0 /\ captures b0 = [])
                 \/ (~ In EvRenderWorld b0 /\ exists pos, captures b0 = [pos]))).
Proof.
  destruct (refresh_cases K ctx st) as [[Hw Hr]|[(Hw & Hp & Hr)|[(Hw & Hp & Hr)|(Hw & Hp & Hr)]]].
  - exists [], (refresh_world K st).2. cbv zeta in Hr. rewrite Hr.
    split; [done|]. split; [constructor|]. right.
    destruct (refresh_world_spec K st) as (-> & _).
    destruct (diffuse_filter_probe_event K st 0) as [vp ->].
    destruct (diffuse_filter_probe_event K (swap_irradiance st) 0) as [vp' ->].
    eexists ([EvRenderWorld] ++ glossy_filter_probe 0
             ++ [EvDiffusePass _ 0 vp; EvSwapIrradiance; EvDiffusePass _ 0 vp']).
    split; [by rewrite <- !app_assoc|]. split.
    + intros Hin. apply in_app_or in Hin as [Hin|Hin]; [by destruct Hin as [|[]]|].
      apply in_app_or in Hin as [Hin|Hin].
      * by eapply not_in_glossy_filter_probe in Hin.
      * destruct Hin as [H|[H|[H|[]]]]; discriminate H.
    + left. split; [by left|].
      rewrite !captures_app, captures_glossy_filter_probe. reflexivity.
  - exists [], []. cbv zeta in Hr. rewrite Hr. split; [done|]. split; [constructor|by left].
  - destruct Hr as (tr & Hg & Htr). rewrite Htr.
    unfold refresh_grids in Hg.
    apply refresh_grids_loop_returned in Hg as (sa & pre & i & ob & tr' & _ & _ & Hc & -> & Hpre).
    exists pre, tr'. split; [done|]. split; [done|]. right.
    destruct (refresh_grid_cell_spec K sa i ob) as (Htr' & _).
    rewrite Hc in Htr'. cbn [snd] in Htr'. rewrite Htr'.
    eexists [_; _; _; _]. split; [reflexivity|]. split.
    + intros [H|[H|[H|[H|[]]]]]; discriminate H.
    + right. split; [intros [H|[H|[H|[H|[]]]]]; discriminate H|]. eexists. reflexivity.
  - destruct Hr as (st1 & tr1 & Hg & _ & Htr). rewrite Htr.
    unfold refresh_grids in Hg. apply refresh_grids_loop_swaps in Hg.
    exists tr1, (refresh_cubes K st1).2. split; [done|]. split; [done|].
    destruct (refresh_cubes_captures K st1) as [(i & ob & _ & -> & _)|[_ ->]]; [|by left].
    right. destruct (refresh_cube_spec st1 i ob) as (-> & _).
    eexists ([_] ++ glossy_filter_probe i). split; [by rewrite <- !app_assoc|].
    split; [|right; split].
    + intros Hin. apply in_app_or in Hin as [Hin|Hin]; [by destruct Hin as [|[]]|].
      by eapply not_in_glossy_filter_probe in Hin.
    + intros Hin. apply in_app_or in Hin as [Hin|Hin]; [by destruct Hin as [|[]]|].
      by eapply not_in_glossy_filter_probe in Hin.
    + eexists. rewrite captures_app, captures_glossy_filter_probe. reflexivity.
Qed.

Lemma in_swaps e pre : Forall (eq EvSwapIrradiance) pre -> In e pre -> e = EvSwapIrradiance.
Proof. rewrite List.Forall_forall. intros H Hin. symmetry. by apply H. Qed.

(** X13.  An invocation of [EEVEE_lightprobes_refresh] requests a redraw
    exactly when it rendered something: the world, or the one bake unit.
    The request is then its last event and the only request.  An
    invocation that requests no redraw has done nothing but swap the
    irradiance buffers. *)
Theorem refresh_redraw K ctx st :
  let tr := (EEVEE_lightprobes_refresh K ctx st).2 in
  (In EvRequestRedraw tr <-> In EvRenderWorld tr \/ bake_units tr = 1%nat)
  /\ (In EvRequestRedraw tr ->
      exists tr0, tr = tr0 ++ [EvRequestRedraw] /\ ~ In EvRequestRedraw tr0)
  /\ (~ In EvRequestRedraw tr -> Forall (eq EvSwapIrradiance) tr)
  /\ ~ (In EvRenderWorld tr /\ bake_units tr = 1%nat).
Proof.
  intros tr. subst tr.
  destruct (refresh_trace_shape K ctx st) as (pre & body & -> & Hpre & Hbody).
  assert (Hcap : captures pre = []) by (by apply captures_swaps).
  assert (Hnr : ~ In EvRequestRedraw pre).
  { intros Hin. by apply (in_swaps _ _ Hpre) in Hin. }
  assert (Hnw : ~ In EvRenderWorld pre).
  { intros Hin. by apply (in_swaps _ _ Hpre) in Hin. }
  unfold bake_units. rewrite captures_app, Hcap. cbn [app].
  destruct Hbody as [->|(b0 & -> & Hn0 & Hkind)].
  - rewrite app_nil_r. cbn [length]. split_and!.
    + split; [tauto|]. intros [|]; [tauto|discriminate].
    + tauto.
    + done.
    + intros [_ ?]. discriminate.
  - assert (Hc1 : captures (b0 ++ [EvRequestRedraw]) = captures b0).
    { rewrite captures_app. cbn. by rewrite app_nil_r. }
    rewrite Hc1.
    assert (Hin : In EvRequestRedraw (pre ++ b0 ++ [EvRequestRedraw])).
    { apply in_or_app. right. apply in_or_app. right. by left. }
    assert (Hw : In EvRenderWorld (pre ++ b0 ++ [EvRequestRedraw]) <-> In EvRenderWorld b0).
    { rewrite !in_app_iff. cbn. split; [|tauto].
      intros [?|[?|[H|[]]]]; [tauto|done|discriminate H]. }
    split_and!.
    + split; [intros _|done]. rewrite Hw.
      destruct Hkind as [[? _]|[_ [pos ->]]]; auto.
    + intros _. exists (pre ++ b0). split; [by rewrite app_assoc|].
      rewrite in_app_iff. tauto.
    + tauto.
    + rewrite Hw. destruct Hkind as [[_ ->]|[? _]]; [cbn; lia|tauto].
Qed.

(** ** When the scheduler is idle *)

Lemma Int_incr_ne c : Int.incr c <> c.
Proof.
  unfold Int.incr, Int.wrap. intros H.
  assert (Hx : (c + 1 + 2147483648) mod 4294967296 = c + 2147483648) by lia.
  pose proof (Z.mod_pos_bound (c + 1 + 2147483648) 4294967296 ltac:(lia)) as Hb.
  destruct (Z.eq_dec (c + 1 + 2147483648) 4294967296) as [He|Hne].
  - rewrite He, Z_mod_same_full in Hx. lia.
  - rewrite Z.mod_small in Hx by lia. lia.
Qed.

Lemma Int_incr_gt b : b < Int.INT_MAX -> b < Int.incr b.
Proof.
  intros Hb. unfold Int.incr. pose proof (Int_wrap_ge (b + 1) ltac:(lia)). lia.
Qed.

Lemma refresh_grids_loop_progress K n : forall st st' tr ex,
  refresh_grids_loop K n st = (st', tr, ex) ->
  st.(probes).(updated_bounce) <= st'.(probes).(updated_bounce)
  /\ (st'.(probes).(updated_bounce) = st.(probes).(updated_bounce) ->
      match ex with
      | Returned =>
          exists ob,
            (get_object st' ob).(ped).(updated_cells)
            = Int.incr (get_object st ob).(ped).(updated_cells)
      | Fallthrough => st' = st /\ tr = []
      end).
Proof.
  induction n as [|n IH]; intros st st' tr ex H.
  - cbn in H. injection H as <- <- <-. split; [lia|done].
  - rewrite refresh_grids_loop_S in H. cbv zeta in H.
    destruct (updated_bounce (probes st) <? max_bounce) eqn:Hb;
      [|injection H as <- <- <-; split; [lia|done]].
    apply Z.ltb_lt in Hb. unfold max_bounce in Hb.
    set (s1 := with_probes (fun p => set_num_render_grid (num_grid p) p) st) in *.
    destruct (find_need_update s1 _) as [[i ob]|] eqn:Hfind.
    + pose proof (refresh_grid_cell_probes K s1 i ob) as Hp.
      destruct (refresh_grid_cell_spec K s1 i ob) as (_ & _ & _ & _ & Hped).
      destruct (refresh_grid_cell K s1 i ob) as [s' tr']. injection H as <- <- <-.
      cbn [fst] in *. rewrite Hp. split; [cbn; lia|]. intros _.
      exists ob. rewrite Hped.
      apply find_need_update_some in Hfind as [_ Hneed].
      destruct (grid_cell_ped_step _ Hneed) as (-> & _).
      reflexivity.
    + clear Hfind.
      assert (Hgt : updated_bounce (probes st) < Int.incr (updated_bounce (probes st))).
      { apply Int_incr_gt. unfold Int.INT_MAX. lia. }
      match type of H with
      | (if ?c then _ else _) = _ => destruct c
      end.
      * match type of H with
        | context [refresh_grids_loop K n ?s] =>
            set (s3 := s) in *; specialize (IH s3);
            destruct (refresh_grids_loop K n s3) as [[s' tr'] ex'] eqn:Hloop
        end.
        injection H as <- <- <-.
        destruct (IH _ _ _ eq_refl) as [Hle _].
        assert (Hs3 : updated_bounce (probes s3) = Int.incr (updated_bounce (probes st))).
        { subst s3. unfold swap_irradiance. cbn.
          by rewrite fold_tag_grid_refresh_probes. }
        split; [lia|]. intros Heq. lia.
      * match type of H with
        | refresh_grids_loop K n ?s = _ => set (s3 := s) in *
        end.
        destruct (IH _ _ _ _ H) as [Hle _].
        assert (Hs3 : updated_bounce (probes s3) = Int.incr (updated_bounce (probes st)))
          by reflexivity.
        split; [lia|]. intros Heq. lia.
Qed.

(** X14.  An invocation of [EEVEE_lightprobes_refresh] returns the state
    it was given exactly when the scheduler is idle: the world is clean and
    either the bake is paused, or the bounce counter has reached the limit
    and no listed cube needs an update.  It then issues no event, so it
    requests no redraw.  In every other case the state changes. *)
Theorem refresh_fixed_point K ctx st :
  let idle :=
    st.(update_world) = false
    /\ (bake_paused ctx = true
        \/ (max_bounce <= st.(probes).(updated_bounce)
            /\ find_need_update st (cube_slots K st) = None)) in
  ((EEVEE_lightprobes_refresh K ctx st).1 = st <-> idle)
  /\ (idle -> EEVEE_lightprobes_refresh K ctx st = (st, [])).
Proof.
  intros idle.
  assert (Hidle : idle -> EEVEE_lightprobes_refresh K ctx st = (st, [])).
  { intros (Hw & [Hp|[Hb Hc]]); unfold EEVEE_lightprobes_refresh; rewrite Hw.
    - by rewrite Hp.
    - destruct (bake_paused ctx); [done|].
      unfold refresh_grids. rewrite refresh_grids_loop_done by (apply Z.ltb_ge; lia).
      unfold refresh_cubes. fold (cube_slots K st). by rewrite Hc. }
  split; [|exact Hidle]. split; [|by intros H; rewrite Hidle].
  intros Heq. subst idle.
  destruct (refresh_cases K ctx st)
    as [[Hw Hr]|[(Hw & Hp & Hr)|[(Hw & Hp & Hr)|(Hw & Hp & Hr)]]]; cbv zeta in Hr.
  - exfalso. destruct (refresh_world_spec K st) as (_ & Hu & _).
    rewrite <- Hr, Heq in Hu. congruence.
  - auto.
  - exfalso. destruct Hr as (tr & Hg & _). rewrite Heq in Hg.
    unfold refresh_grids in Hg.
    apply refresh_grids_loop_progress in Hg as [_ Hg].
    destruct (Hg eq_refl) as [ob Hob]. symmetry in Hob. by apply Int_incr_ne in Hob.
  - destruct Hr as (st1 & tr1 & Hg & Hst & _). rewrite Heq in Hst.
    pose proof Hg as Hfall. apply refresh_grids_fallthrough in Hfall as [Hmax _].
    unfold refresh_grids in Hg.
    apply refresh_grids_loop_progress in Hg as [_ Hg].
    destruct (refresh_cubes_captures K st1) as [(i & ob & Hfind & Hc & _)|[Hfind Hc]].
    + exfalso. rewrite Hc in Hst.
      destruct (refresh_cube_spec st1 i ob) as (_ & Hpr & _ & _ & Hped).
      rewrite <- Hst in Hpr, Hped.
      assert (Hb : updated_bounce (probes st1) = updated_bounce (probes st)).
      { rewrite Hpr. cbv zeta. by destruct (ready_to_shade _). }
      destruct (Hg Hb) as [-> _].
      apply find_need_update_some in Hfind as [_ Hneed].
      rewrite Hped in Hneed. discriminate Hneed.
    + rewrite Hc in Hst. cbn [fst] in Hst. subst st1. auto.
Qed.

(** ** One step of the scheduler, in full *)

Lemma find_split {A} (f : A -> bool) l x :
  find f l = Some x ->
  exists l1 l2, l = l1 ++ x :: l2 /\ Forall (fun y => f y = false) l1 /\ f x = true.
Proof.
  induction l as [|a l IH]; intros H; [discriminate|].
  cbn [find] in H. destruct (f a) eqn:Ha.
  - injection H as <-. exists [], l. split_and!; [done|constructor|done].
  - destruct (IH H) as (l1 & l2 & -> & Hl1 & Hx).
    exists (a :: l1), l2. split_and!; [done|by constructor|done].
Qed.

(** The walk visits the slots in increasing order, so the object that
    [find_need_update] returns is in the lowest slot that needs an update. *)
Lemma find_need_update_first st refs max i ob :
  find_need_update st (for_each_ref refs max) = Some (i, ob) ->
  1 <= i < max /\ refs !! i = Some ob
  /\ (get_object st ob).(ped).(need_update) = true
  /\ forall j ob', In (j, ob') (for_each_ref refs max) -> j < i ->
       (get_object st ob').(ped).(need_update) = false.
Proof.
  intros Hfind. pose proof Hfind as Hsome.
  apply find_need_update_some in Hsome as [Hin Hneed].
  apply for_each_ref_bound in Hin as [Hi Href].
  split_and!; try done; try lia.
  intros j ob' Hin' Hlt.
  unfold find_need_update in Hfind.
  apply find_split in Hfind as (l1 & l2 & Hl & Hl1 & _).
  assert (Hfst : map fst (for_each_ref refs max)
                 = seqZ 1 (Z.of_nat (length (for_each_ref refs max)))).
  { unfold for_each_ref. apply walk_refs_fst. }
  rewrite Hl in Hin'. apply in_app_or in Hin' as [Hin'|Hin'].
  - rewrite List.Forall_forall in Hl1. by apply (Hl1 (j, ob')).
  - exfalso.
    apply list_elem_of_In, list_elem_of_lookup in Hin' as [k Hk].
    assert (Hi' : map fst (for_each_ref refs max) !! length l1 = Some i).
    { rewrite Hl, list_lookup_fmap, lookup_app_r, Nat.sub_diag by lia. done. }
    assert (Hj : map fst (for_each_ref refs max) !! (length l1 + k)%nat = Some j).
    { rewrite Hl, list_lookup_fmap, lookup_app_r by lia.
      replace (length l1 + k - length l1)%nat with k by lia. by rewrite Hk. }
    rewrite Hfst in Hi', Hj.
    apply lookup_seqZ in Hi' as [Hi' _]. apply lookup_seqZ in Hj as [Hj _].
    destruct k as [|k]; [|lia].
    cbn in Hk. injection Hk as -> _. lia.
Qed.

(** X15.  The grid step.  With the world clean, the bake not paused and
    the bounce counter below the limit, an invocation bakes one cell of the
    grid in the lowest slot that needs an update, and does exactly this:
    swap the irradiance buffers; capture the scene from the cell with every
    cube probe switched off and, during the first bounce, every grid too
    (afterwards all [num_grid] grids light the capture), reading the buffer
    that was [irradiance_rt] at entry; filter into the buffer that was
    [irradiance_pool] at entry, at atlas cell [offset + cell]; swap back;
    request a redraw.  At exit the two buffers and the rendered-cube count
    are as at entry and the rendered-grid count is [num_grid]. *)
Theorem refresh_grid_capture K ctx st i ob :
  st.(update_world) = false ->
  bake_paused ctx = false ->
  st.(probes).(updated_bounce) < max_bounce ->
  find_need_update st (grid_slots K st) = Some (i, ob) ->
  let r := EEVEE_lightprobes_refresh K ctx st in
  let c := (get_object st ob).(ped).(updated_cells) in
  let egrid := default zero_grid (st.(probes).(grid_data) !! i) in
  let prb := (get_object st ob).(data) in
  (exists vp,
     r.2 = [EvSwapIrradiance;
            EvRenderScene (PosGridCell i c (lightprobe_cell_location_get egrid c))
              prb.(clipsta) prb.(clipend) 0
              (if st.(probes).(updated_bounce) =? 0 then 0 else st.(probes).(num_grid))
              st.(irradiance_rt);
            EvDiffusePass st.(irradiance_pool) (Int.add egrid.(offset) c) vp;
            EvSwapIrradiance; EvRequestRedraw])
  /\ 1 <= i < K.(MAX_GRID)
  /\ st.(probes).(probes_grid_ref) !! i = Some ob
  /\ (forall j ob', In (j, ob') (grid_slots K st) -> j < i ->
        (get_object st ob').(ped).(need_update) = false)
  /\ r.1.(irradiance_pool) = st.(irradiance_pool)
  /\ r.1.(irradiance_rt) = st.(irradiance_rt)
  /\ r.1.(probes).(num_render_cube) = st.(probes).(num_render_cube)
  /\ r.1.(probes).(num_render_grid) = st.(probes).(num_grid)
  /\ r.1.(probes).(specular_toggle) = true
  /\ r.1.(probes).(updated_bounce) = st.(probes).(updated_bounce).
Proof.
  intros Hw Hp Hb Hfind r c egrid prb. subst r.
  rewrite (refresh_grid_step K ctx st i ob Hw Hp Hb Hfind).
  set (s1 := with_probes (fun p => set_num_render_grid (num_grid p) p) st).
  destruct (refresh_grid_cell_spec K s1 i ob) as (Htr & Hfr & _).
  pose proof (refresh_grid_cell_probes K s1 i ob) as Hpr.
  destruct (find_need_update_first _ _ _ _ _ Hfind) as (Hi & Href & _ & Hfirst).
  apply frame_of_fields in Hfr as (_ & _ & _ & Hip & Hir & _ & _).
  split_and!; try done; try lia.
  - rewrite Htr. eexists. reflexivity.
  - by rewrite Hpr.
  - by rewrite Hpr.
  - by rewrite Hpr.
  - by rewrite Hpr.
Qed.

Lemma refresh_grid_capture_witness :
  let st := sample_grid_bake in
  let r := EEVEE_lightprobes_refresh sample_constants ctx_idle st in
  (exists vp,
     r.2 = [EvSwapIrradiance;
            EvRenderScene
              (PosGridCell 1 0
                 (lightprobe_cell_location_get
                    (default zero_grid (st.(probes).(grid_data) !! 1)) 0))
              (get_object st 1).(data).(clipsta) (get_object st 1).(data).(clipend) 0
              (if st.(probes).(updated_bounce) =? 0 then 0 else st.(probes).(num_grid))
              st.(irradiance_rt);
            EvDiffusePass st.(irradiance_pool)
              (Int.add (default zero_grid (st.(probes).(grid_data) !! 1)).(offset) 0) vp;
            EvSwapIrradiance; EvRequestRedraw])
  /\ 1 <= 1 < sample_constants.(MAX_GRID)
  /\ st.(probes).(probes_grid_ref) !! 1 = Some 1%positive
  /\ (forall j ob', In (j, ob') (grid_slots sample_constants st) -> j < 1 ->
        (get_object st ob').(ped).(need_update) = false)
  /\ r.1.(irradiance_pool) = st.(irradiance_pool)
  /\ r.1.(irradiance_rt) = st.(irradiance_rt)
  /\ r.1.(probes).(num_render_cube) = st.(probes).(num_render_cube)
  /\ r.1.(probes).(num_render_grid) = st.(probes).(num_grid)
  /\ r.1.(probes).(specular_toggle) = true
  /\ r.1.(probes).(updated_bounce) = st.(probes).(updated_bounce).
Proof.
  apply (refresh_grid_capture sample_constants ctx_idle sample_grid_bake 1 1%positive);
    vm_compute; reflexivity.
Defined.

Lemma refresh_runs_cube K ctx st i ob :
  st.(update_world) = false ->
  bake_paused ctx = false ->
  max_bounce <= st.(probes).(updated_bounce) ->
  find_need_update st (cube_slots K st) = Some (i, ob) ->
  EEVEE_lightprobes_refresh K ctx st = refresh_cube st i ob.
Proof.
  intros Hw Hp Hb Hfind. unfold EEVEE_lightprobes_refresh. rewrite Hw, Hp.
  unfold refresh_grids. rewrite refresh_grids_loop_done by (apply Z.ltb_ge; lia).
  unfold refresh_cubes. fold (cube_slots K st). rewrite Hfind.
  by destruct (refresh_cube st i ob).
Qed.

(** X16.  The cube step.  With the world clean, the bake not paused and
    the bounce counter at the limit, an invocation bakes the cube in the
    lowest slot that needs an update: one capture from the object, lit by
    the cubes and grids rendered so far, then the glossy filter, whose
    seven draws (mip levels 0 to 6, the only glossy draws of the trace) all
    go into the atlas layer that is the slot index; the object
    gets that index as probe id, is marked clean and ready to shade, and
    the rendered-cube count grows by one only if the cube was not ready
    before.  No other object changes. *)
Theorem refresh_cube_step K ctx st i ob :
  st.(update_world) = false ->
  bake_paused ctx = false ->
  max_bounce <= st.(probes).(updated_bounce) ->
  find_need_update st (cube_slots K st) = Some (i, ob) ->
  let r := EEVEE_lightprobes_refresh K ctx st in
  let prb := (get_object st ob).(data) in
  let d := (get_object r.1 ob).(ped) in
  r.2 = [EvRenderScene (PosObject ob) prb.(clipsta) prb.(clipend)
           st.(probes).(num_render_cube) st.(probes).(num_render_grid)
           st.(irradiance_pool)]
        ++ glossy_filter_probe i ++ [EvRequestRedraw]
  /\ (forall p, In (EvGlossyPass p) r.2 -> gp_layer p = i)
  /\ glossy_draws r.2 = map (pair i) (seqZ 0 7)
  /\ 1 <= i < K.(MAX_PROBE)
  /\ st.(probes).(probes_cube_ref) !! i = Some ob
  /\ (forall j ob', In (j, ob') (cube_slots K st) -> j < i ->
        (get_object st ob').(ped).(need_update) = false)
  /\ d.(need_update) = false /\ d.(probe_id) = i /\ d.(ready_to_shade) = true
  /\ d.(updated_cells) = (get_object st ob).(ped).(updated_cells)
  /\ r.1.(probes).(num_render_cube)
     = (if (get_object st ob).(ped).(ready_to_shade)
        then st.(probes).(num_render_cube)
        else Int.incr st.(probes).(num_render_cube))
  /\ r.1.(probes).(num_render_grid) = st.(probes).(num_render_grid)
  /\ r.1.(probes).(updated_bounce) = st.(probes).(updated_bounce)
  /\ (forall ob', ob' <> ob -> get_object r.1 ob' = get_object st ob').
Proof.
  intros Hw Hp Hb Hfind r prb d. subst r d.
  rewrite (refresh_runs_cube K ctx st i ob Hw Hp Hb Hfind).
  destruct (refresh_cube_spec st i ob) as (Htr & Hpr & _ & Hother & Hped).
  destruct (find_need_update_first _ _ _ _ _ Hfind) as (Hi & Href & _ & Hfirst).
  rewrite Hped, Hpr. cbv zeta.
  split; [exact Htr|]. rewrite Htr. clear Htr.
  split.
  { intros p Hin. apply in_app_or in Hin as [Hin|Hin];
      [destruct Hin as [Hin|[]]; discriminate Hin|].
    apply in_app_or in Hin as [Hin|Hin];
      [|destruct Hin as [Hin|[]]; discriminate Hin].
    apply in_glossy_filter_probe in Hin as (p' & Heq & Hin).
    injection Heq as <-. by apply glossy_filter_passes_layer in Hin. }
  split.
  { rewrite !glossy_draws_app, glossy_draws_glossy_filter_probe.
    cbn [glossy_draws flat_map app]. by rewrite app_nil_r. }
  split; [lia|]. split; [exact Href|]. split; [exact Hfirst|].
  unfold cube_ped. cbn [need_update probe_id ready_to_shade updated_cells
    set_ready_to_shade set_probe_id set_need_update].
  split_and!; try reflexivity; try exact Hother;
    destruct (ready_to_shade _); reflexivity.
Qed.

Lemma refresh_cube_step_witness :
  let st := sample_grid_back in
  let r := EEVEE_lightprobes_refresh sample_constants ctx_idle st in
  let d := (get_object r.1 3).(ped) in
  r.2 = [EvRenderScene (PosObject 3) (get_object st 3).(data).(clipsta)
           (get_object st 3).(data).(clipend)
           st.(probes).(num_render_cube) st.(probes).(num_render_grid)
           st.(irradiance_pool)]
        ++ glossy_filter_probe 2 ++ [EvRequestRedraw]
  /\ (forall p, In (EvGlossyPass p) r.2 -> gp_layer p = 2)
  /\ glossy_draws r.2 = map (pair 2) (seqZ 0 7)
  /\ 1 <= 2 < sample_constants.(MAX_PROBE)
  /\ st.(probes).(probes_cube_ref) !! 2 = Some 3%positive
  /\ (forall j ob', In (j, ob') (cube_slots sample_constants st) -> j < 2 ->
        (get_object st ob').(ped).(need_update) = false)
  /\ d.(need_update) = false /\ d.(probe_id) = 2 /\ d.(ready_to_shade) = true
  /\ d.(updated_cells) = (get_object st 3).(ped).(updated_cells)
  /\ r.1.(probes).(num_render_cube)
     = (if (get_object st 3).(ped).(ready_to_shade)
        then st.(probes).(num_render_cube)
        else Int.incr st.(probes).(num_render_cube))
  /\ r.1.(probes).(num_render_grid) = st.(probes).(num_render_grid)
  /\ r.1.(probes).(updated_bounce) = st.(probes).(updated_bounce)
  /\ (forall ob', ob' <> 3%positive -> get_object r.1 ob' = get_object st ob').
Proof.
  apply (refresh_cube_step sample_constants ctx_idle sample_grid_back 2 3%positive).
  - vm_compute. reflexivity.
  - vm_compute. reflexivity.
  - vm_compute. discriminate.
  - vm_compute. reflexivity.
Defined.

(** ** The start of a bounce *)

Lemma refresh_starts_bounce K ctx st i ob rest :
  st.(update_world) = false ->
  bake_paused ctx = false ->
  Int.INT_MIN <= st.(probes).(updated_bounce) ->
  st.(probes).(updated_bounce) + 1 < max_bounce ->
  find_need_update st (grid_slots K st) = None ->
  grid_slots K st = (i, ob) :: rest ->
  exists s4,
    EEVEE_lightprobes_refresh K ctx st
    = ((refresh_grid_cell K s4 i ob).1,
       EvSwapIrradiance :: (refresh_grid_cell K s4 i ob).2)
    /\ s4.(irradiance_pool) = st.(irradiance_rt)
    /\ s4.(irradiance_rt) = st.(irradiance_pool)
    /\ s4.(probes)
       = set_num_render_grid st.(probes).(num_grid)
           (set_updated_bounce (st.(probes).(updated_bounce) + 1) st.(probes))
    /\ (forall ob', (get_object s4 ob').(data) = (get_object st ob').(data))
    /\ (forall ob', In ob' (map snd (grid_slots K st)) ->
          (get_object s4 ob').(ped).(need_update) = true
          /\ (get_object s4 ob').(ped).(updated_cells) = 0
          /\ (get_object s4 ob').(ped).(num_cell) = (get_object st ob').(ped).(num_cell))
    /\ (forall ob', ~ In ob' (map snd (grid_slots K st)) ->
          (get_object s4 ob').(ped) = (get_object st ob').(ped)).
Proof.
  intros Hw Hp Hmin Hb Hnone Hslots.
  assert (Hincr : Int.incr (updated_bounce (probes st)) = updated_bounce (probes st) + 1).
  { apply Int_incr_small. unfold max_bounce, Int.INT_MAX in *. lia. }
  set (s2 := with_probes (fun p => set_num_render_grid (num_grid p) p)
               (with_probes (fun p => set_updated_bounce (Int.incr (updated_bounce p)) p)
                  (with_probes (fun p => set_num_render_grid (num_grid p) p) st))).
  set (s3 := swap_irradiance (fold_left tag_grid_refresh (grid_slots K st) s2)).
  set (s4 := with_probes (fun p => set_num_render_grid (num_grid p) p) s3).
  assert (Hp3 : probes s3 = probes s2).
  { subst s3. unfold swap_irradiance. cbn. apply fold_tag_grid_refresh_probes. }
  assert (Hget : forall ob', get_object s4 ob'
                             = get_object (fold_left tag_grid_refresh (grid_slots K st) s2) ob')
    by reflexivity.
  assert (Hget2 : forall ob', get_object s2 ob' = get_object st ob') by reflexivity.
  assert (Hfr : frame_of (fold_left tag_grid_refresh (grid_slots K st) s2) = frame_of s2)
    by apply fold_tag_grid_refresh_frame.
  apply frame_of_fields in Hfr as (_ & _ & _ & Hip & Hir & _ & _).
  exists s4. split_and!.
  - unfold EEVEE_lightprobes_refresh. rewrite Hw, Hp, refresh_grids_while.
    assert (Hb1 : (updated_bounce (probes st) <? max_bounce) = true)
      by (apply Z.ltb_lt; lia).
    rewrite Hb1. cbv zeta.
    change (find_need_update (with_probes _ st) (for_each_ref _ _))
      with (find_need_update st (grid_slots K st)).
    rewrite Hnone. fold s2.
    change (for_each_ref (probes_grid_ref (probes (with_probes _ st))) (MAX_GRID K))
      with (grid_slots K st).
    fold s3.
    assert (Hb2 : (updated_bounce (probes s2) <? max_bounce) = true).
    { apply Z.ltb_lt. change (updated_bounce (probes s2))
        with (Int.incr (updated_bounce (probes st))). lia. }
    rewrite Hb2, refresh_grids_while.
    rewrite Hp3, Hb2. cbv zeta. fold s4.
    assert (Hfind : find_need_update s4
                      (for_each_ref (probes_grid_ref (probes s4)) (MAX_GRID K))
                    = Some (i, ob)).
    { change (probes_grid_ref (probes s4)) with (probes_grid_ref (probes s3)).
      rewrite Hp3.
      change (for_each_ref (probes_grid_ref (probes s2)) (MAX_GRID K))
        with (grid_slots K st).
      rewrite Hslots. unfold find_need_update. cbn [find snd].
      rewrite Hget.
      destruct (fold_tag_grid_refresh_in (grid_slots K st) s2 ob) as [-> _]; [|done].
      rewrite Hslots. by left. }
    rewrite Hfind. by destruct (refresh_grid_cell K s4 i ob).
  - done.
  - done.
  - change (probes s4) with (set_num_render_grid (num_grid (probes s3)) (probes s3)).
    rewrite Hp3. subst s2. cbn. by rewrite Hincr.
  - intros ob'. by rewrite Hget, fold_tag_grid_refresh_data.
  - intros ob' Hin. rewrite Hget.
    destruct (fold_tag_grid_refresh_in (grid_slots K st) s2 ob' Hin) as [-> ->].
    destruct (fold_tag_grid_refresh_other_fields (grid_slots K st) s2 ob')
      as (_ & _ & ->).
    done.
  - intros ob' Hnin. by rewrite Hget, fold_tag_grid_refresh_notin.
Qed.

(** X17.  The start of a bounce.  With the world clean, the bake not
    paused, no visited grid in need of an update and the bounce counter [b]
    at least two below the limit, one invocation advances the counter to
    [b + 1], marks every visited grid for update with its cell counter at 0,
    swaps the irradiance buffers, and in the same invocation bakes cell 0 of
    the grid in the first slot: the capture reads the buffer that was
    [irradiance_pool] at entry (the result of the bounce just finished) and
    the filter writes the one that was [irradiance_rt].  At exit the two
    buffers have changed places. *)
Theorem refresh_bounce_advance K ctx st i ob rest :
  st.(update_world) = false ->
  bake_paused ctx = false ->
  Int.INT_MIN <= st.(probes).(updated_bounce) ->
  st.(probes).(updated_bounce) + 1 < max_bounce ->
  find_need_update st (grid_slots K st) = None ->
  grid_slots K st = (i, ob) :: rest ->
  let r := EEVEE_lightprobes_refresh K ctx st in
  let egrid := default zero_grid (st.(probes).(grid_data) !! i) in
  let prb := (get_object st ob).(data) in
  (exists vp,
     r.2 = [EvSwapIrradiance; EvSwapIrradiance;
            EvRenderScene (PosGridCell i 0 (lightprobe_cell_location_get egrid 0))
              prb.(clipsta) prb.(clipend) 0
              (if st.(probes).(updated_bounce) + 1 =? 0 then 0
               else st.(probes).(num_grid))
              st.(irradiance_pool);
            EvDiffusePass st.(irradiance_rt) (Int.add egrid.(offset) 0) vp;
            EvSwapIrradiance; EvRequestRedraw])
  /\ r.1.(probes).(updated_bounce) = st.(probes).(updated_bounce) + 1
  /\ r.1.(irradiance_pool) = st.(irradiance_rt)
  /\ r.1.(irradiance_rt) = st.(irradiance_pool)
  /\ (get_object r.1 ob).(ped).(updated_cells) = 1
  /\ (get_object r.1 ob).(ped).(need_update)
     = negb ((get_object st ob).(ped).(num_cell) <=? 1)
  /\ (forall ob', In ob' (map snd rest) -> ob' <> ob ->
        (get_object r.1 ob').(ped).(need_update) = true
        /\ (get_object r.1 ob').(ped).(updated_cells) = 0)
  /\ (forall ob', ~ In ob' (map snd (grid_slots K st)) ->
        (get_object r.1 ob').(ped) = (get_object st ob').(ped)).
Proof.
  intros Hw Hp Hmin Hb Hnone Hslots r egrid prb. subst r.
  destruct (refresh_starts_bounce K ctx st i ob rest Hw Hp Hmin Hb Hnone Hslots)
    as (s4 & -> & Hip & Hir & Hpr & Hdata & Hin & Hnin).
  cbn [fst snd].
  destruct (refresh_grid_cell_spec K s4 i ob) as (Htr & Hfr & _ & Hother & Hped).
  pose proof (refresh_grid_cell_probes K s4 i ob) as Hprobes.
  apply frame_of_fields in Hfr as (_ & _ & _ & Hip' & Hir' & _ & _).
  assert (Hob : In ob (map snd (grid_slots K st))) by (rewrite Hslots; by left).
  destruct (Hin ob Hob) as (Hneed & Hcells & Hnum).
  rewrite Hcells, Hdata, Hip, Hir, Hpr in Htr.
  cbn [grid_data updated_bounce num_render_grid set_num_render_grid set_updated_bounce]
    in Htr.
  split; [rewrite Htr; eexists; reflexivity|].
  split; [by rewrite Hprobes, Hpr|].
  split; [by rewrite Hip'|]. split; [by rewrite Hir'|].
  destruct (grid_cell_ped_step _ Hneed) as (Hc & Hn & _ & _ & Hnu).
  rewrite Hped, Hc, Hnu, Hcells, Hnum.
  change (Int.incr 0) with 1.
  split; [reflexivity|]. split; [reflexivity|]. split.
  - intros ob' Hin' Hne. rewrite Hother by done.
    destruct (Hin ob') as (-> & -> & _); [|split; reflexivity].
    rewrite Hslots. right. exact Hin'.
  - intros ob' Hnin'. rewrite Hother; [by apply Hnin|].
    intros ->. by apply Hnin'.
Qed.

Lemma refresh_bounce_advance_witness :
  let st := (sample_grid_only_frames 8).1 in
  let r := EEVEE_lightprobes_refresh sample_constants ctx_idle st in
  let egrid := default zero_grid (st.(probes).(grid_data) !! 1) in
  let prb := (get_object st 1).(data) in
  (exists vp,
     r.2 = [EvSwapIrradiance; EvSwapIrradiance;
            EvRenderScene (PosGridCell 1 0 (lightprobe_cell_location_get egrid 0))
              prb.(clipsta) prb.(clipend) 0
              (if st.(probes).(updated_bounce) + 1 =? 0 then 0
               else st.(probes).(num_grid))
              st.(irradiance_pool);
            EvDiffusePass st.(irradiance_rt) (Int.add egrid.(offset) 0) vp;
            EvSwapIrradiance; EvRequestRedraw])
  /\ r.1.(probes).(updated_bounce) = st.(probes).(updated_bounce) + 1
  /\ r.1.(irradiance_pool) = st.(irradiance_rt)
  /\ r.1.(irradiance_rt) = st.(irradiance_pool)
  /\ (get_object r.1 1).(ped).(updated_cells) = 1
  /\ (get_object r.1 1).(ped).(need_update)
     = negb ((get_object st 1).(ped).(num_cell) <=? 1)
  /\ (forall ob', In ob' (map snd ([] : list (Z * positive))) -> ob' <> 1%positive ->
        (get_object r.1 ob').(ped).(need_update) = true
        /\ (get_object r.1 ob').(ped).(updated_cells) = 0)
  /\ (forall ob', ~ In ob' (map snd (grid_slots sample_constants st)) ->
        (get_object r.1 ob').(ped) = (get_object st ob').(ped)).
Proof.
  apply (refresh_bounce_advance sample_constants ctx_idle
           (sample_grid_only_frames 8).1 1 1%positive []).
  - vm_compute. reflexivity.
  - vm_compute. reflexivity.
  - vm_compute. discriminate.
  - vm_compute. reflexivity.
  - vm_compute. reflexivity.
  - vm_compute. reflexivity.
Defined.

(** ** Creation of an irradiance buffer *)

Lemma irradiance_reset_spec K st :
  let s := irradiance_reset K st in
  s.(probes) = set_updated_bounce 0 (set_num_render_grid 0 st.(probes))
  /\ s.(irradiance_pool) = st.(irradiance_pool)
  /\ s.(irradiance_rt) = st.(irradiance_rt)
  /\ forall ob,
       In ob (map snd (for_each_ref st.(probes).(probes_grid_ref) K.(MAX_PROBE))) ->
       (get_object s ob).(ped).(need_update) = true
       /\ (get_object s ob).(ped).(updated_cells) = 0.
Proof.
  intros s.
  destruct (frame_of_fields _ _ _ _ _ _ _ _ (irradiance_reset_frame K st))
    as (_ & _ & _ & Hip & Hir & _ & Hpr).
  split_and!; try done.
  intros ob Hin. subst s. unfold irradiance_reset. cbv zeta.
  by apply fold_tag_grid_refresh_in.
Qed.

Lemma probe_pool_ensure_grid_ref K st :
  (probe_pool_ensure K st).(probes).(probes_grid_ref) = st.(probes).(probes_grid_ref).
Proof.
  destruct (probe_pool_ensure_textures K st) as (_ & _ & [(-> & _)|(_ & _ & Hc)]); [done|].
  unfold probe_pool_ensure in *.
  destruct (negb _); cbn [probe_pool set_probe_pool].
  - destruct (frame_of_fields _ _ _ _ _ _ _ _
                (probe_pool_create_frame K (set_probe_pool None st)))
      as (_ & _ & _ & _ & _ & _ & ->). done.
  - destruct (probe_pool st); [done|].
    destruct (frame_of_fields _ _ _ _ _ _ _ _ (probe_pool_create_frame K st))
      as (_ & _ & _ & _ & _ & _ & ->). done.
Qed.

(** X18.  When [EEVEE_lightprobes_cache_finish] finds one of the two
    irradiance buffers missing, it creates it and the grid bake starts
    over: the bounce counter and the rendered-grid count are 0 at exit, and
    every grid that the walk bounded by [MAX_PROBE] visits needs an update
    with its cell counter at 0. *)
Theorem cache_finish_resets_grids K st :
  st.(irradiance_pool) = None \/ st.(irradiance_rt) = None ->
  let s := EEVEE_lightprobes_cache_finish K st in
  s.(probes).(updated_bounce) = 0
  /\ s.(probes).(num_render_grid) = 0
  /\ s.(irradiance_pool) <> None /\ s.(irradiance_rt) <> None
  /\ forall slot,
       In slot (for_each_ref st.(probes).(probes_grid_ref) K.(MAX_PROBE)) ->
       (get_object s slot.2).(ped).(need_update) = true
       /\ (get_object s slot.2).(ped).(updated_cells) = 0.
Proof.
  intros Hnone s. subst s. unfold EEVEE_lightprobes_cache_finish. cbv zeta.
  set (s1 := probe_pool_ensure K st).
  set (s2 := irradiance_pool_ensure K s1).
  set (s3 := irradiance_rt_ensure K s2).
  pose proof (probe_pool_ensure_grid_ref K st) as Hg1. fold s1 in Hg1.
  destruct (probe_pool_ensure_textures K st) as (Hip1 & Hir1 & _). fold s1 in Hip1, Hir1.
  assert (H3 : s3.(probes).(updated_bounce) = 0 /\ s3.(probes).(num_render_grid) = 0
               /\ s3.(irradiance_pool) <> None /\ s3.(irradiance_rt) <> None
               /\ forall ob,
                    In ob (map snd (for_each_ref st.(probes).(probes_grid_ref)
                                      K.(MAX_PROBE))) ->
                    (get_object s3 ob).(ped).(need_update) = true
                    /\ (get_object s3 ob).(ped).(updated_cells) = 0).
  { rewrite <- Hg1.
    assert (H2 : s2.(irradiance_pool) <> None
                 /\ s2.(irradiance_rt) = s1.(irradiance_rt)
                 /\ s2.(probes).(probes_grid_ref) = s1.(probes).(probes_grid_ref)
                 /\ (s1.(irradiance_pool) = None ->
                     s2.(probes).(updated_bounce) = 0
                     /\ s2.(probes).(num_render_grid) = 0
                     /\ forall ob,
                          In ob (map snd (for_each_ref s1.(probes).(probes_grid_ref)
                                            K.(MAX_PROBE))) ->
                          (get_object s2 ob).(ped).(need_update) = true
                          /\ (get_object s2 ob).(ped).(updated_cells) = 0)).
    { subst s2. unfold irradiance_pool_ensure.
      destruct (irradiance_pool s1) eqn:Hp1;
        [split_and!; [by rewrite Hp1|done|done|discriminate]|].
      unfold texture_create. cbv zeta.
      match goal with |- context [irradiance_reset K ?s0] =>
        destruct (irradiance_reset_spec K s0) as (Hpr & Hip & Hir & Hob) end.
      rewrite Hpr, Hip, Hir. split_and!; first [done | intros _; by split_and!]. }
    destruct H2 as (Hp2 & Hr2 & Hg2 & Hreset2).
    subst s3. unfold irradiance_rt_ensure.
    destruct (irradiance_rt s2) eqn:Hrt2.
    - assert (Hp1 : irradiance_pool s1 = None).
      { destruct Hnone as [H|H]; [congruence|]. congruence. }
      destruct (Hreset2 Hp1) as (Hb & Hn & Hob). rewrite Hrt2. done.
    - unfold texture_create. cbv zeta.
      match goal with |- context [irradiance_reset K ?s0] =>
        destruct (irradiance_reset_spec K s0) as (Hpr & Hip & Hir & Hob) end.
      rewrite Hpr, Hip, Hir. cbn [irradiance_pool irradiance_rt set_irradiance_rt
        set_next_texture]. split_and!; try done.
      intros ob Hin. apply Hob. cbn [probes set_irradiance_rt set_next_texture].
      by rewrite Hg2. }
  destruct H3 as (Hb & Hn & Hp & Hr & Hob).
  destruct (updates_frame K s3) as (_ & _ & _ & Hip & Hir & _ & Hobj & Hprobes).
  assert (Hfields : (EEVEE_lightprobes_updates K s3).(probes).(updated_bounce)
                    = s3.(probes).(updated_bounce)
                    /\ (EEVEE_lightprobes_updates K s3).(probes).(num_render_grid)
                       = s3.(probes).(num_render_grid)).
  { unfold set_grid_data in Hprobes. injection Hprobes as _ _ _ _ -> _ -> _ _ _. done. }
  destruct Hfields as [-> ->]. rewrite Hip, Hir.
  split_and!; try done.
  intros slot Hin. unfold get_object. rewrite Hobj. apply Hob.
  apply in_map_iff. by exists slot.
Qed.

Lemma cache_finish_resets_grids_witness :
  let st := cache_populate sample_constants
              (EEVEE_lightprobes_cache_init (Some 0)
                 (EEVEE_lightprobes_init sample_scene))
              [1%positive; 2%positive; 3%positive] in
  let s := EEVEE_lightprobes_cache_finish sample_constants st in
  s.(probes).(updated_bounce) = 0
  /\ s.(probes).(num_render_grid) = 0
  /\ s.(irradiance_pool) <> None /\ s.(irradiance_rt) <> None
  /\ forall slot,
       In slot (for_each_ref st.(probes).(probes_grid_ref) sample_constants.(MAX_PROBE)) ->
       (get_object s slot.2).(ped).(need_update) = true
       /\ (get_object s slot.2).(ped).(updated_cells) = 0.
Proof.
  intros st. apply (cache_finish_resets_grids sample_constants st).
  left. vm_compute. reflexivity.
Defined.

(** ** After the reflection atlas is recreated *)

(** X19.  Whenever [EEVEE_lightprobes_cache_finish] has to create the
    reflection atlas (there is none, or the cube count differs from the
    cached one), the next [EEVEE_lightprobes_refresh] bakes the world and
    nothing else, paused or not: no probe is captured, the world becomes
    ready to shade with one cube and one grid rendered, and every listed
    cube is still waiting for its update. *)
Theorem atlas_creation_rebakes_world K ctx st :
  st.(probe_pool) = None
  \/ st.(probes).(num_cube) <> st.(probes).(cache_num_cube) ->
  let s := EEVEE_lightprobes_cache_finish K st in
  let r := EEVEE_lightprobes_refresh K ctx s in
  s.(update_world) = true
  /\ In EvRenderWorld r.2
  /\ captures r.2 = []
  /\ r.1.(update_world) = false
  /\ r.1.(world_ready_to_shade) = true
  /\ r.1.(probes).(num_render_cube) = 1
  /\ r.1.(probes).(num_render_grid) = 1
  /\ forall slot, In slot (cube_slots K st) ->
       (get_object r.1 slot.2).(ped).(need_update) = true
       /\ (get_object r.1 slot.2).(ped).(ready_to_shade) = false.
Proof.
  intros Hnew s r.
  assert (Hc : st.(probes).(num_cube) <> st.(probes).(cache_num_cube)
               \/ st.(probe_pool) = None) by tauto.
  destruct (probe_pool_ensure_create K st Hc)
    as (_ & Hw1 & Hr1 & _ & _ & _ & Hin & _).
  destruct (cache_finish_keeps K st) as (_ & Hw & Hr & _ & _ & Hob).
  fold s in Hw, Hr, Hob. rewrite Hw1 in Hw. rewrite Hr1 in Hr.
  assert (Hrw : r = refresh_world K s).
  { subst r. unfold EEVEE_lightprobes_refresh. by rewrite Hw. }
  destruct (refresh_world_spec K s) as (Htr & Hu & Hrs & _ & _ & _ & Hobj & Hpr).
  rewrite <- Hrw in Htr, Hu, Hrs, Hobj, Hpr. rewrite Hr in Hpr.
  split; [exact Hw|]. split; [rewrite Htr; by left|].
  split; [rewrite Hrw; apply refresh_world_captures|].
  split; [exact Hu|]. split; [exact Hrs|].
  split; [by rewrite Hpr|]. split; [by rewrite Hpr|].
  intros slot Hslot.
  assert (Hget : get_object r.1 slot.2 = get_object s slot.2).
  { unfold get_object. by rewrite Hobj. }
  rewrite Hget.
  destruct (Hob slot.2) as (Hneed & -> & _).
  rewrite Hin by (apply in_map_iff; by exists slot).
  split; [|reflexivity]. apply Hneed. by rewrite Hin by (apply in_map_iff; by exists slot).
Qed.

Lemma atlas_creation_rebakes_world_witness :
  let st := cache_populate sample_constants
              (EEVEE_lightprobes_cache_init (Some 0)
                 (EEVEE_lightprobes_init sample_scene))
              [1%positive; 2%positive; 3%positive] in
  let s := EEVEE_lightprobes_cache_finish sample_constants st in
  let r := EEVEE_lightprobes_refresh sample_constants ctx_navigating s in
  s.(update_world) = true
  /\ In EvRenderWorld r.2
  /\ captures r.2 = []
  /\ r.1.(update_world) = false
  /\ r.1.(world_ready_to_shade) = true
  /\ r.1.(probes).(num_render_cube) = 1
  /\ r.1.(probes).(num_render_grid) = 1
  /\ forall slot, In slot (cube_slots sample_constants st) ->
       (get_object r.1 slot.2).(ped).(need_update) = true
       /\ (get_object r.1 slot.2).(ped).(ready_to_shade) = false.
Proof.
  intros st. apply (atlas_creation_rebakes_world sample_constants ctx_navigating st).
  left. vm_compute. reflexivity.
Defined.
